(** * A shallow embedding of the AINative Strapi MCP server (src/index.js, v1.1.0)

    The adapter receives a tool call, authenticates against the backend,
    forwards one HTTP request and reshapes the answer.  The embedding follows
    the source function by function:

    - JS strings are lists of UTF-16 code units, JS values a small JSON-like
      inductive type (numbers restricted to integers);
    - [generateSlug] is the chain of [String.prototype] calls of the source;
    - the asynchronous methods live in a state-and-exception monad whose state
      is the server object together with the trace of HTTP requests issued so
      far; the backend is an oracle answering each request. *)

From Stdlib Require Import List String Ascii ZArith NArith Lia Bool DecimalString.
Import ListNotations.

Set Implicit Arguments.
Open Scope string_scope.
Open Scope list_scope.
Set Warnings "-register-all".

(* ================================================================== *)
(** ** JS strings *)

Definition codeunit := N.
Definition jsstring := list codeunit.

(** A string literal of the source, as code units. *)
Definition str (s : string) : jsstring :=
  map N_of_ascii (list_ascii_of_string s).

(** [a === b] on strings. *)
Fixpoint jsstring_eqb (a b : jsstring) : bool :=
  match a, b with
  | [], [] => true
  | c :: a', d :: b' => (N.eqb c d && jsstring_eqb a' b')%bool
  | _, _ => false
  end.

Definition HYPHEN : codeunit := 45%N.

Definition isHyphen (c : codeunit) : bool := N.eqb c HYPHEN.

(** The class [a-z] of a regular expression without the [i] and [u] flags. *)
Definition is_a_z (c : codeunit) : bool := (N.leb 97 c && N.leb c 122)%bool.

(** The class [0-9]. *)
Definition is_0_9 (c : codeunit) : bool := (N.leb 48 c && N.leb c 57)%bool.

(** The class [\s], which is also what [String.prototype.trim] removes:
    WhiteSpace and LineTerminator of ECMA-262. *)
Definition isWhiteSpace (c : codeunit) : bool :=
  ((N.leb 9 c && N.leb c 13)
   || N.eqb c 32 || N.eqb c 160 || N.eqb c 5760
   || (N.leb 8192 c && N.leb c 8202)
   || N.eqb c 8232 || N.eqb c 8233 || N.eqb c 8239 || N.eqb c 8287
   || N.eqb c 12288 || N.eqb c 65279)%bool.

(** The complement of the class [^a-z0-9\s-]: what the first [replace] of
    [generateSlug] keeps. *)
Definition keptBySlug (c : codeunit) : bool :=
  (is_a_z c || is_0_9 c || isWhiteSpace c || isHyphen c)%bool.

(** The characters a slug is made of. *)
Definition isSlugChar (c : codeunit) : bool :=
  (is_a_z c || is_0_9 c || isHyphen c)%bool.

Fixpoint dropWhile (p : codeunit -> bool) (s : jsstring) : jsstring :=
  match s with
  | [] => []
  | c :: s' => if p c then dropWhile p s' else s
  end.

(** [s.replace(/[^...]/g, '')] for a one-character class: the characters of
    the class are deleted, the others stay in order. *)
Definition removeAll (kept : codeunit -> bool) (s : jsstring) : jsstring :=
  filter kept s.

(** The string without its longest suffix of characters of the class [p]. *)
Fixpoint dropWhileEnd (p : codeunit -> bool) (s : jsstring) : jsstring :=
  match s with
  | [] => []
  | c :: s' =>
      match dropWhileEnd p s' with
      | [] => if p c then [] else [c]
      | t => c :: t
      end
  end.

(** [s.trim()]. *)
Definition trim (s : jsstring) : jsstring :=
  dropWhileEnd isWhiteSpace (dropWhile isWhiteSpace s).

(** [s.replace(/p+/g, r)]: every maximal run of characters of the class [p]
    is replaced by [r].  [inrun] tells that the previous character belonged
    to the run being replaced. *)
Fixpoint replaceRunsFrom (p : codeunit -> bool) (r : jsstring)
         (inrun : bool) (s : jsstring) : jsstring :=
  match s with
  | [] => []
  | c :: s' =>
      if p c
      then (if inrun then replaceRunsFrom p r true s'
            else r ++ replaceRunsFrom p r true s')
      else c :: replaceRunsFrom p r false s'
  end.

Definition replaceRuns (p : codeunit -> bool) (r s : jsstring) : jsstring :=
  replaceRunsFrom p r false s.

(** [s.replace(/^-+|-+$/g, '')]: the run of hyphens at the start and the run
    of hyphens at the end are deleted. *)
Definition stripHyphens (s : jsstring) : jsstring :=
  dropWhileEnd isHyphen (dropWhile isHyphen s).

(** The words of a string: its maximal runs of characters that are not
    separators, in order.  [cur] is the word being read, reversed. *)
Definition emit (cur : jsstring) : list jsstring :=
  match cur with
  | [] => []
  | _ => [rev cur]
  end.

Fixpoint wordsFrom (sep : codeunit -> bool) (cur : jsstring) (s : jsstring)
  : list jsstring :=
  match s with
  | [] => emit cur
  | c :: s' =>
      if sep c then emit cur ++ wordsFrom sep [] s'
      else wordsFrom sep (c :: cur) s'
  end.

Definition words (sep : codeunit -> bool) (s : jsstring) : list jsstring :=
  wordsFrom sep [] s.

(** [ws.join('-')] *)
Fixpoint joinHyphen (ws : list jsstring) : jsstring :=
  match ws with
  | [] => []
  | [w] => w
  | w :: ws' => w ++ HYPHEN :: joinHyphen ws'
  end.

(** Two neighbouring characters of the class [p]. *)
Fixpoint adjacent (p : codeunit -> bool) (s : jsstring) : bool :=
  match s with
  | c1 :: ((c2 :: _) as t) => (p c1 && p c2) || adjacent p t
  | _ => false
  end.

(* ================================================================== *)
(** ** JS values *)

(** The values that travel through the adapter: tool arguments, request
    payloads and response bodies are JSON.  Numbers are restricted to
    integers (identifiers, page numbers, counts, time stamps). *)
Inductive value : Type :=
| VUndefined
| VNull
| VBool (b : bool)
| VNum (n : Z)
| VStr (s : jsstring)
| VArr (items : list value)
| VObj (fields : list (string * value)).

Definition object := list (string * value).

(** ToBoolean. *)
Definition truthy (v : value) : bool :=
  match v with
  | VUndefined | VNull => false
  | VBool b => b
  | VNum n => negb (Z.eqb n 0)
  | VStr s => match s with [] => false | _ => true end
  | VArr _ | VObj _ => true
  end.

Fixpoint lookup (k : string) (o : object) : option value :=
  match o with
  | [] => None
  | (k', v) :: o' => if String.eqb k k' then Some v else lookup k o'
  end.

(** [o[k] = v] on an object literal: an existing key keeps its position, a
    new key goes last. *)
Fixpoint obj_set (k : string) (v : value) (o : object) : object :=
  match o with
  | [] => [(k, v)]
  | (k', v') :: o' =>
      if String.eqb k k' then (k, v) :: o' else (k', v') :: obj_set k v o'
  end.

(* ================================================================== *)
(** ** generateSlug *)

Section Slug.

(** [String.prototype.toLowerCase], the Unicode case mapping of the host. *)
Variable toLowerCase : jsstring -> jsstring.

(** The method chain of [generateSlug], for a non-empty string. *)
Definition slugify (title : jsstring) : jsstring :=
  stripHyphens
    (replaceRuns isHyphen [HYPHEN]
       (replaceRuns isWhiteSpace [HYPHEN]
          (trim
             (removeAll keptBySlug
                (toLowerCase title))))).

Definition generateSlug (title : value) : jsstring :=
  match title with
  | VStr s => if truthy title then slugify s else []
  | _ => []
  end.

(** What separates the words of a title once the special characters are
    gone: white space and hyphens. *)
Definition isSeparator (c : codeunit) : bool :=
  (isWhiteSpace c || isHyphen c)%bool.

(** The slug as the specification words it: the title in lower case, the
    characters that are neither alphanumeric nor separators stripped, and
    the words joined by hyphens. *)
Definition slug_spec (title : jsstring) : jsstring :=
  joinHyphen (words isSeparator (removeAll keptBySlug (toLowerCase title))).

End Slug.

(** The letters a-z and the digits, by their character codes. *)
Definition isAlphanumeric (c : codeunit) : bool :=
  ((N.leb 97 c && N.leb c 122) || (N.leb 48 c && N.leb c 57))%bool.

Definition isEmptyString (s : jsstring) : bool :=
  match s with
  | [] => true
  | _ => false
  end.

(** The words of a title as the specification has them: the pieces between
    white space and hyphens, each without its characters that are not
    alphanumeric, the pieces left empty dropped. *)
Definition titleWords (title : jsstring) : list jsstring :=
  filter (fun w => negb (isEmptyString w))
    (map (filter isAlphanumeric) (words isSeparator title)).

(* ================================================================== *)
(** ** Exceptions and property access *)

(** A thrown [Error]: only its [message] is ever read (by the dispatcher). *)
Record exn : Type := Error { message : jsstring }.

Inductive outcome (A : Type) : Type :=
| Return (a : A)
| Throw (e : exn).

Arguments Return {A} a.
Arguments Throw {A} e.

Definition obind {A B} (c : outcome A) (k : A -> outcome B) : outcome B :=
  match c with
  | Return a => k a
  | Throw e => Throw e
  end.

Notation "'let*' x ':=' c 'in' k" := (obind c (fun x => k))
  (at level 61, x name, c at next level, right associativity).

Fixpoint omap {A B} (f : A -> outcome B) (l : list A) : outcome (list B) :=
  match l with
  | [] => Return []
  | a :: l' =>
      let* b := f a in
      let* bs := omap f l' in
      Return (b :: bs)
  end.

(** The [TypeError] of Node for a property read on [undefined] or [null]. *)
Definition cannotRead (what k : string) : exn :=
  Error (str ("Cannot read properties of " ++ what ++ " (reading '" ++ k ++ "')")%string).

Definition notAFunction (what : string) : exn :=
  Error (str (what ++ " is not a function")%string).

(** [o.k] or [o[k]]: a property read.  Only strings and arrays have the
    property [length] among the values of the model. *)
Definition js_get (o : value) (k : string) : outcome value :=
  match o with
  | VUndefined => Throw (cannotRead "undefined" k)
  | VNull => Throw (cannotRead "null" k)
  | VObj f => Return (match lookup k f with Some v => v | None => VUndefined end)
  | VStr s =>
      Return (if String.eqb k "length" then VNum (Z.of_nat (List.length s)) else VUndefined)
  | VArr l =>
      Return (if String.eqb k "length" then VNum (Z.of_nat (List.length l)) else VUndefined)
  | VBool _ | VNum _ => Return VUndefined
  end.

(** [a || b]. *)
Definition js_or (a b : value) : value := if truthy a then a else b.

(** A destructuring default [{ k = d } = o]: the default replaces
    [undefined] only. *)
Definition withDefault (v d : value) : value :=
  match v with
  | VUndefined => d
  | _ => v
  end.

Definition getDefault (o : value) (k : string) (d : value) : outcome value :=
  let* v := js_get o k in
  Return (withDefault v d).

(** [a.map(f)]: only arrays have [map]. *)
Definition js_map (what : string) (f : value -> outcome value) (a : value)
  : outcome value :=
  match a with
  | VArr l => let* l' := omap f l in Return (VArr l')
  | VUndefined => Throw (cannotRead "undefined" "map")
  | VNull => Throw (cannotRead "null" "map")
  | _ => Throw (notAFunction (what ++ ".map")%string)
  end.

(* ================================================================== *)
(** ** Word count and reading time *)

(** [s.split(/\s+/)]: the pieces of [s] between the maximal runs of white
    space, in order; a run at the start or at the end of [s] leaves an empty
    piece there, and the empty string gives one empty piece.  [cur] is the
    piece being read (reversed) and [insep] tells that the previous character
    belonged to a separator. *)
Fixpoint splitFrom (insep : bool) (cur : jsstring) (s : jsstring)
  : list jsstring :=
  match s with
  | [] => [rev cur]
  | c :: s' =>
      if isWhiteSpace c
      then (if insep then splitFrom true [] s'
            else rev cur :: splitFrom true [] s')
      else splitFrom false (c :: cur) s'
  end.

Definition splitWhiteSpace (s : jsstring) : list jsstring :=
  splitFrom false [] s.

(** [v.split(/\s+/)] on a value: only strings have [split]. *)
Definition js_split (what : string) (v : value) : outcome (list jsstring) :=
  match v with
  | VStr s => Return (splitWhiteSpace s)
  | VUndefined => Throw (cannotRead "undefined" "split")
  | VNull => Throw (cannotRead "null" "split")
  | _ => Throw (notAFunction (what ++ ".split")%string)
  end.

(** [Math.ceil(n / d)] for a count [n] and a positive divisor [d]. *)
Definition ceilDiv (n d : Z) : Z := ((n + d - 1) / d)%Z.

(** [Math.ceil(args.content.split(/\s+/).length / 200)]. *)
Definition readingTime (content : value) : outcome Z :=
  let* pieces := js_split "args.content" content in
  let wordCount := Z.of_nat (List.length pieces) in
  Return (ceilDiv wordCount 200).

(** The number of whitespace-separated words of a content string. *)
Definition word_count (content : jsstring) : Z :=
  Z.of_nat (List.length (words isWhiteSpace content)).

(** Reading time as the specification states it. *)
Definition readingTime_spec (content : jsstring) : Z :=
  ceilDiv (word_count content) 200.

(* ================================================================== *)
(** ** The host and the outside world *)

(** The built-in operations of the JS host that the source relies on. *)
Record runtime : Type := {
  (** [String.prototype.toLowerCase] *)
  toLowerCase : jsstring -> jsstring;
  (** the conversion of a template literal, [`${v}`] *)
  ToString : value -> jsstring;
  (** the numeric conversion of a relational comparison; [None] is NaN *)
  ToNumber : value -> option Z;
  (** [JSON.stringify(v, null, 2)]: a string, or [undefined] *)
  JSON_stringify : value -> value;
  (** [new Date(t).toISOString()] *)
  toISOString : Z -> jsstring
}.

Inductive http_method : Type := GET | POST | PUT.

(** One call of [axios]: [axios.get(url, { headers, params })],
    [axios.post(url, data, { headers })], [axios.put(url, data, { headers })].
    A part that the call does not pass is [undefined]. *)
Record request : Type := {
  method : http_method;
  url : jsstring;
  data : value;
  params : value;
  headers : value
}.

(** The world outside the process: the clock, and the backend, which
    answers a request (after the requests issued before it) with a response
    body, or makes [axios] reject with an error. *)
Record world : Type := {
  Date_now : list request -> Z;
  respond : list request -> request -> outcome value
}.

(* ================================================================== *)
(** ** The server object and the monad of its methods *)

Record server : Type := {
  strapiUrl : jsstring;
  apiToken : option jsstring;
  adminEmail : option jsstring;
  adminPassword : option jsstring;
  jwtToken : value;
  tokenExpiry : option Z
}.

(** [this.jwtToken = token; this.tokenExpiry = expiry] *)
Definition withToken (srv : server) (token : value) (expiry : Z) : server :=
  {| strapiUrl := strapiUrl srv;
     apiToken := apiToken srv;
     adminEmail := adminEmail srv;
     adminPassword := adminPassword srv;
     jwtToken := token;
     tokenExpiry := Some expiry |}.

(** An environment variable as a JS value: a string, or [undefined]. *)
Definition envValue (v : option jsstring) : value :=
  match v with
  | Some s => VStr s
  | None => VUndefined
  end.

(** [this.tokenExpiry] as a JS value: [null] or a number. *)
Definition expiryValue (e : option Z) : value :=
  match e with
  | Some t => VNum t
  | None => VNull
  end.

Record state : Type := {
  self : server;
  sent : list request
}.

Definition M (A : Type) : Type := state -> outcome A * state.

Definition ret {A} (a : A) : M A := fun s => (Return a, s).

Definition throw {A} (e : exn) : M A := fun s => (Throw e, s).

Definition bind {A B} (c : M A) (k : A -> M B) : M B :=
  fun s =>
    match c s with
    | (Return a, s') => k a s'
    | (Throw e, s') => (Throw e, s')
    end.

Notation "x <- c ;; k" := (bind c (fun x => k))
  (at level 61, c at next level, right associativity).

(** [try { body } catch (error) { handler(error) }] *)
Definition try_catch {A} (body : M A) (handler : exn -> M A) : M A :=
  fun s =>
    match body s with
    | (Return a, s') => (Return a, s')
    | (Throw e, s') => handler e s'
    end.

Definition lift {A} (c : outcome A) : M A := fun s => (c, s).

Definition getSelf : M server := fun s => (Return (self s), s).

Definition setSelf (srv : server) : M unit :=
  fun s => (Return tt, {| self := srv; sent := sent s |}).

(** The result of a tool call: [{ content: [{ type: 'text', text }] }],
    with [isError: true] on the error path only. *)
Record tool_result : Type := {
  text : value;
  isError : bool
}.

(** [request.params] of a call-tool request. *)
Record call_request : Type := {
  params_name : jsstring;
  params_arguments : value
}.

Inductive tool : Type :=
| create_blog_post | list_blog_posts | get_blog_post | update_blog_post
| publish_blog_post | list_authors | list_categories | list_tags
| create_tutorial | list_tutorials | get_tutorial | update_tutorial
| publish_tutorial
| create_event | list_events | get_event | update_event | publish_event.

(** The [case] labels of the dispatcher. *)
Definition tool_name (t : tool) : string :=
  match t with
  | create_blog_post => "strapi_create_blog_post"
  | list_blog_posts => "strapi_list_blog_posts"
  | get_blog_post => "strapi_get_blog_post"
  | update_blog_post => "strapi_update_blog_post"
  | publish_blog_post => "strapi_publish_blog_post"
  | list_authors => "strapi_list_authors"
  | list_categories => "strapi_list_categories"
  | list_tags => "strapi_list_tags"
  | create_tutorial => "strapi_create_tutorial"
  | list_tutorials => "strapi_list_tutorials"
  | get_tutorial => "strapi_get_tutorial"
  | update_tutorial => "strapi_update_tutorial"
  | publish_tutorial => "strapi_publish_tutorial"
  | create_event => "strapi_create_event"
  | list_events => "strapi_list_events"
  | get_event => "strapi_get_event"
  | update_event => "strapi_update_event"
  | publish_event => "strapi_publish_event"
  end.

Definition all_tools : list tool :=
  [ create_blog_post; list_blog_posts; get_blog_post; update_blog_post;
    publish_blog_post; list_authors; list_categories; list_tags;
    create_tutorial; list_tutorials; get_tutorial; update_tutorial;
    publish_tutorial;
    create_event; list_events; get_event; update_event; publish_event ].

(** The [switch (request.params.name)]: the first label equal to the name. *)
Definition find_tool (name : jsstring) : option tool :=
  find (fun t => jsstring_eqb name (str (tool_name t))) all_tools.

(** The three content kinds and their collection identifiers. *)
Definition BLOG_POST : string := "api::blog-post.blog-post".
Definition TUTORIAL : string := "api::tutorial.tutorial".
Definition EVENT : string := "api::event.event".
Definition AUTHOR : string := "api::author.author".
Definition CATEGORY : string := "api::category.category".
Definition TAG : string := "api::tag.tag".

(** [`${this.strapiUrl}/admin/login`] *)
Definition loginUrl (base : jsstring) : jsstring :=
  base ++ str "/admin/login".

(** [`${this.strapiUrl}/content-manager/collection-types/<uid>`] *)
Definition collectionUrl (base : jsstring) (uid : string) : jsstring :=
  base ++ str "/content-manager/collection-types/" ++ str uid.

(** The token lifetime of [authenticate]: [25 * 60 * 1000] milliseconds. *)
Definition TOKEN_LIFETIME : Z := (25 * 60 * 1000)%Z.

(* ================================================================== *)
(** ** The methods of StrapiMCPServer *)

Section Methods.

Variable R : runtime.
Variable W : world.

(** [Date.now()] *)
Definition dateNow : M Z := fun s => (Return (Date_now W (sent s)), s).

(** A call of [axios]: the request joins the trace and the backend's
    answer is the outcome of the [await]. *)
Definition axios (m : http_method) (u : jsstring) (d p h : value) : M value :=
  fun s =>
    let r := {| method := m; url := u; data := d; params := p; headers := h |} in
    (respond W (sent s) r, {| self := self s; sent := sent s ++ [r] |}).

(** [authenticate] *)
Definition authenticate : M value :=
  srv <- getSelf ;;
  if truthy (envValue (apiToken srv)) then ret (envValue (apiToken srv))
  else
    now <- dateNow ;;
    if (truthy (jwtToken srv) && truthy (expiryValue (tokenExpiry srv))
        && match tokenExpiry srv with Some e => Z.ltb now e | None => false end)%bool
    then ret (jwtToken srv)
    else
      _ <- try_catch
        (response_data <-
           axios POST (loginUrl (strapiUrl srv))
             (VObj [("email", envValue (adminEmail srv));
                    ("password", envValue (adminPassword srv))])
             VUndefined VUndefined ;;
         d <- lift (js_get response_data "data") ;;
         token <- lift (js_get d "token") ;;
         setSelf (withToken srv token (now + TOKEN_LIFETIME)))
        (fun error => throw error) ;;
      srv' <- getSelf ;;
      ret (jwtToken srv').

(** The normal result of a handler:
    [{ content: [{ type: 'text', text: JSON.stringify(body, null, 2) }] }]. *)
Definition reply (body : value) : tool_result :=
  {| text := JSON_stringify R body; isError := false |}.

(* ---------------- request payloads ---------------- *)

(** The [data] object of [createBlogPost]; [now] is the reading of the
    clock behind [new Date()]. *)
Definition createBlogPost_data (now : Z) (args : value) : outcome object :=
  let* content := js_get args "content" in
  let* reading_time := readingTime content in
  let* title := js_get args "title" in
  let* slug := js_get args "slug" in
  let* description := js_get args "description" in
  let* author_id := js_get args "author_id" in
  let* category_id := js_get args "category_id" in
  let* tag_ids := js_get args "tag_ids" in
  let* published_date := js_get args "published_date" in
  let* publishedAt := js_get args "publishedAt" in
  Return [ ("title", title);
           ("slug", js_or slug (VStr (generateSlug (toLowerCase R) title)));
           ("content", content);
           ("excerpt", description);
           ("author", author_id);
           ("category", category_id);
           ("tags", tag_ids);
           ("reading_time", VNum reading_time);
           ("published_date", js_or published_date (VStr (toISOString R now)));
           ("publishedAt", js_or publishedAt VNull) ].

Definition createTutorial_data (args : value) : outcome object :=
  let* title := js_get args "title" in
  let* slug := js_get args "slug" in
  let* content := js_get args "content" in
  let* description := js_get args "description" in
  let* difficulty := js_get args "difficulty" in
  let* duration := js_get args "duration" in
  let* author_id := js_get args "author_id" in
  let* category_id := js_get args "category_id" in
  let* tag_ids := js_get args "tag_ids" in
  let* publishedAt := js_get args "publishedAt" in
  Return [ ("title", title);
           ("slug", js_or slug (VStr (generateSlug (toLowerCase R) title)));
           ("content", content);
           ("description", description);
           ("difficulty", difficulty);
           ("duration", duration);
           ("author", author_id);
           ("category", category_id);
           ("tags", tag_ids);
           ("publishedAt", js_or publishedAt VNull) ].

Definition createEvent_data (args : value) : outcome object :=
  let* title := js_get args "title" in
  let* slug := js_get args "slug" in
  let* description := js_get args "description" in
  let* event_type := js_get args "event_type" in
  let* start_date := js_get args "start_date" in
  let* end_date := js_get args "end_date" in
  let* location := js_get args "location" in
  let* registration_url := js_get args "registration_url" in
  let* max_attendees := js_get args "max_attendees" in
  let* publishedAt := js_get args "publishedAt" in
  Return [ ("title", title);
           ("slug", js_or slug (VStr (generateSlug (toLowerCase R) title)));
           ("description", description);
           ("event_type", event_type);
           ("start_date", start_date);
           ("end_date", end_date);
           ("location", location);
           ("registration_url", registration_url);
           ("max_attendees", max_attendees);
           ("publishedAt", js_or publishedAt VNull) ].

(** [if (args.a) data.k = args.a] *)
Definition copyIfTruthy (args : value) (a k : string) (data : object)
  : outcome object :=
  let* v := js_get args a in
  Return (if truthy v then obj_set k v data else data).

(** The first two statements of every update method:
    [if (args.title) { data.title = args.title;
                       if (!args.slug) data.slug = this.generateSlug(args.title) }
     if (args.slug) data.slug = args.slug] *)
Definition titleAndSlug (args : value) (data : object) : outcome object :=
  let* title := js_get args "title" in
  let* slug := js_get args "slug" in
  let data :=
    if truthy title
    then
      let data := obj_set "title" title data in
      if negb (truthy slug)
      then obj_set "slug" (VStr (generateSlug (toLowerCase R) title)) data
      else data
    else data in
  Return (if truthy slug then obj_set "slug" slug data else data).

(** The [data] object of [updateBlogPost]. *)
Definition updateBlogPost_data (args : value) : outcome object :=
  let* data := titleAndSlug args [] in
  let* content := js_get args "content" in
  let* data :=
    (if truthy content
     then
       let data := obj_set "content" content data in
       let* reading_time := readingTime content in
       Return (obj_set "reading_time" (VNum reading_time) data)
     else Return data) in
  let* data := copyIfTruthy args "description" "excerpt" data in
  let* data := copyIfTruthy args "published_date" "published_date" data in
  let* data := copyIfTruthy args "category_id" "category" data in
  copyIfTruthy args "tag_ids" "tags" data.

Definition updateTutorial_data (args : value) : outcome object :=
  let* data := titleAndSlug args [] in
  let* data := copyIfTruthy args "content" "content" data in
  let* data := copyIfTruthy args "description" "description" data in
  let* data := copyIfTruthy args "difficulty" "difficulty" data in
  copyIfTruthy args "duration" "duration" data.

Definition updateEvent_data (args : value) : outcome object :=
  let* data := titleAndSlug args [] in
  let* data := copyIfTruthy args "description" "description" data in
  let* data := copyIfTruthy args "start_date" "start_date" data in
  let* data := copyIfTruthy args "end_date" "end_date" data in
  let* data := copyIfTruthy args "location" "location" data in
  copyIfTruthy args "registration_url" "registration_url" data.

(* ---------------- response shaping ---------------- *)

(** [v > n] for a number literal [n]. *)
Definition js_gt (v : value) (n : Z) : bool :=
  match v with
  | VNum m => Z.ltb n m
  | VUndefined => false
  | VNull => Z.ltb n 0
  | VBool b => Z.ltb n (if b then 1 else 0)
  | _ => match ToNumber R v with Some m => Z.ltb n m | None => false end
  end.

(** [v.substring(0, n)]: only strings have [substring]. *)
Definition substring0 (what : string) (n : nat) (v : value) : outcome jsstring :=
  match v with
  | VStr s => Return (firstn n s)
  | VUndefined => Throw (cannotRead "undefined" "substring")
  | VNull => Throw (cannotRead "null" "substring")
  | _ => Throw (notAFunction (what ++ ".substring")%string)
  end.

(** [v && v.length > 500 ? v.substring(0, 500) + '...' : v] *)
Definition truncated (what : string) (v : value) : outcome value :=
  if truthy v
  then
    let* len := js_get v "length" in
    if js_gt len 500
    then
      let* sub := substring0 what 500 v in
      Return (VStr (sub ++ str "..."))
    else Return v
  else Return v.

(** [{ id: r.id, name: r.name }] *)
Definition idAndName (r : value) : outcome value :=
  let* id := js_get r "id" in
  let* name := js_get r "name" in
  Return (VObj [("id", id); ("name", name)]).

(** [r ? { id: r.id, name: r.name } : null] *)
Definition relation (r : value) : outcome value :=
  if truthy r then idAndName r else Return VNull.

(** [ts ? ts.map(tag => ({ id: tag.id, name: tag.name })) : []] *)
Definition relations (ts : value) : outcome value :=
  if truthy ts then js_map "item.tags" idAndName ts else Return (VArr []).

(** The summary of one blog post of [listBlogPosts]. *)
Definition summarizeBlogPost (item : value) : outcome value :=
  let* id := js_get item "id" in
  let* documentId := js_get item "documentId" in
  let* title := js_get item "title" in
  let* slug := js_get item "slug" in
  let* excerpt0 := js_get item "excerpt" in
  let* excerpt := truncated "item.excerpt" excerpt0 in
  let* reading_time := js_get item "reading_time" in
  let* published_date := js_get item "published_date" in
  let* publishedAt := js_get item "publishedAt" in
  let* createdAt := js_get item "createdAt" in
  let* updatedAt := js_get item "updatedAt" in
  let* author0 := js_get item "author" in
  let* author := relation author0 in
  let* category0 := js_get item "category" in
  let* category := relation category0 in
  let* tags0 := js_get item "tags" in
  let* tags := relations tags0 in
  Return (VObj [ ("id", id); ("documentId", documentId); ("title", title);
                 ("slug", slug); ("excerpt", excerpt);
                 ("reading_time", reading_time);
                 ("published_date", published_date);
                 ("publishedAt", publishedAt); ("createdAt", createdAt);
                 ("updatedAt", updatedAt); ("author", author);
                 ("category", category); ("tags", tags) ]).

(** The summary of one tutorial of [listTutorials]. *)
Definition summarizeTutorial (item : value) : outcome value :=
  let* id := js_get item "id" in
  let* documentId := js_get item "documentId" in
  let* title := js_get item "title" in
  let* slug := js_get item "slug" in
  let* description0 := js_get item "description" in
  let* description := truncated "item.description" description0 in
  let* difficulty := js_get item "difficulty" in
  let* duration := js_get item "duration" in
  let* publishedAt := js_get item "publishedAt" in
  let* createdAt := js_get item "createdAt" in
  let* updatedAt := js_get item "updatedAt" in
  let* author0 := js_get item "author" in
  let* author := relation author0 in
  let* category0 := js_get item "category" in
  let* category := relation category0 in
  let* tags0 := js_get item "tags" in
  let* tags := relations tags0 in
  Return (VObj [ ("id", id); ("documentId", documentId); ("title", title);
                 ("slug", slug); ("description", description);
                 ("difficulty", difficulty); ("duration", duration);
                 ("publishedAt", publishedAt); ("createdAt", createdAt);
                 ("updatedAt", updatedAt); ("author", author);
                 ("category", category); ("tags", tags) ]).

(** The summary of one event of [listEvents]. *)
Definition summarizeEvent (item : value) : outcome value :=
  let* id := js_get item "id" in
  let* documentId := js_get item "documentId" in
  let* title := js_get item "title" in
  let* slug := js_get item "slug" in
  let* event_type := js_get item "event_type" in
  let* start_date := js_get item "start_date" in
  let* end_date := js_get item "end_date" in
  let* location := js_get item "location" in
  let* registration_url := js_get item "registration_url" in
  let* max_attendees := js_get item "max_attendees" in
  let* publishedAt := js_get item "publishedAt" in
  let* createdAt := js_get item "createdAt" in
  let* updatedAt := js_get item "updatedAt" in
  Return (VObj [ ("id", id); ("documentId", documentId); ("title", title);
                 ("slug", slug); ("event_type", event_type);
                 ("start_date", start_date); ("end_date", end_date);
                 ("location", location);
                 ("registration_url", registration_url);
                 ("max_attendees", max_attendees);
                 ("publishedAt", publishedAt); ("createdAt", createdAt);
                 ("updatedAt", updatedAt) ]).

(** What a list method returns from the response body: the summary when
    [summary && response.data.results], the body itself otherwise. *)
Definition listResult (summarize : value -> outcome value)
           (summary body : value) : outcome tool_result :=
  if truthy summary
  then
    let* results := js_get body "results" in
    if truthy results
    then
      let* items := js_map "response.data.results" summarize results in
      let* pagination := js_get body "pagination" in
      Return (reply (VObj [("results", items); ("pagination", pagination)]))
    else Return (reply body)
  else Return (reply body).

End Methods.

Section Handlers.

Variable R : runtime.
Variable W : world.

(** [`${url}/${args.document_id}`] *)
Definition documentUrl (base : jsstring) (uid : string) (document_id : value)
  : jsstring :=
  collectionUrl base uid ++ str "/" ++ ToString R document_id.

(** [axios.post(collection, data, { headers })] and the normal result. *)
Definition postTo (uid : string) (data headers : value) : M tool_result :=
  srv <- getSelf ;;
  response_data <-
    axios W POST (collectionUrl (strapiUrl srv) uid) data VUndefined headers ;;
  ret (reply R response_data).

(** [axios.get(collection, { headers })] and the normal result. *)
Definition getFrom (u : jsstring) (headers : value) : M tool_result :=
  response_data <- axios W GET u VUndefined VUndefined headers ;;
  ret (reply R response_data).

(* ---------------- blog posts ---------------- *)

Definition createBlogPost (headers args : value) : M tool_result :=
  now <- dateNow W ;;
  data <- lift (createBlogPost_data R now args) ;;
  postTo BLOG_POST (VObj data) headers.

(** The request and the result of a list method, once its arguments are
    destructured: [axios.get(collection, { headers, params: { page, pageSize } })]. *)
Definition listCollection (uid : string) (summarize : value -> outcome value)
           (headers page pageSize summary : value) : M tool_result :=
  srv <- getSelf ;;
  response_data <-
    axios W GET (collectionUrl (strapiUrl srv) uid) VUndefined
      (VObj [("page", page); ("pageSize", pageSize)]) headers ;;
  lift (listResult R summarize summary response_data).

(** The default parameter [args = {}]. *)
Definition defaultArgs (args : value) : value :=
  match args with
  | VUndefined => VObj []
  | _ => args
  end.

Definition listBlogPosts (headers args0 : value) : M tool_result :=
  let args := defaultArgs args0 in
  page <- lift (getDefault args "page" (VNum 1)) ;;
  pageSize <- lift (getDefault args "pageSize" (VNum 25)) ;;
  status <- lift (getDefault args "status" (VStr (str "all"))) ;;
  summary <- lift (getDefault args "summary" (VBool true)) ;;
  listCollection BLOG_POST (summarizeBlogPost R) headers page pageSize summary.

Definition getDocument (uid : string) (headers args : value) : M tool_result :=
  document_id <- lift (js_get args "document_id") ;;
  srv <- getSelf ;;
  getFrom (documentUrl (strapiUrl srv) uid document_id) headers.

Definition getBlogPost := getDocument BLOG_POST.

(** [axios.put(`${collection}/${args.document_id}`, data, { headers })] *)
Definition putDocument (uid : string) (data : object) (headers args : value)
  : M tool_result :=
  document_id <- lift (js_get args "document_id") ;;
  srv <- getSelf ;;
  response_data <-
    axios W PUT (documentUrl (strapiUrl srv) uid document_id) (VObj data)
      VUndefined headers ;;
  ret (reply R response_data).

Definition updateBlogPost (headers args : value) : M tool_result :=
  data <- lift (updateBlogPost_data R args) ;;
  putDocument BLOG_POST data headers args.

(** [args.publish !== false ? 'publish' : 'unpublish'] *)
Definition publishAction (publish : value) : jsstring :=
  match publish with
  | VBool false => str "unpublish"
  | _ => str "publish"
  end.

(** [axios.post(`${collection}/${args.document_id}/actions/${action}`, {}, { headers })] *)
Definition publishDocument (uid : string) (headers args : value) : M tool_result :=
  publish <- lift (js_get args "publish") ;;
  document_id <- lift (js_get args "document_id") ;;
  srv <- getSelf ;;
  response_data <-
    axios W POST
      (documentUrl (strapiUrl srv) uid document_id
         ++ str "/actions/" ++ publishAction publish)
      (VObj []) VUndefined headers ;;
  ret (reply R response_data).

Definition publishBlogPost := publishDocument BLOG_POST.

Definition listAll (uid : string) (headers : value) : M tool_result :=
  srv <- getSelf ;;
  getFrom (collectionUrl (strapiUrl srv) uid) headers.

Definition listAuthors := listAll AUTHOR.
Definition listCategories := listAll CATEGORY.
Definition listTags := listAll TAG.

(* ---------------- tutorials ---------------- *)

Definition createTutorial (headers args : value) : M tool_result :=
  data <- lift (createTutorial_data R args) ;;
  postTo TUTORIAL (VObj data) headers.

Definition listTutorials (headers args0 : value) : M tool_result :=
  let args := defaultArgs args0 in
  page <- lift (getDefault args "page" (VNum 1)) ;;
  pageSize <- lift (getDefault args "pageSize" (VNum 25)) ;;
  summary <- lift (getDefault args "summary" (VBool true)) ;;
  listCollection TUTORIAL (summarizeTutorial R) headers page pageSize summary.

Definition getTutorial := getDocument TUTORIAL.

Definition updateTutorial (headers args : value) : M tool_result :=
  data <- lift (updateTutorial_data R args) ;;
  putDocument TUTORIAL data headers args.

Definition publishTutorial := publishDocument TUTORIAL.

(* ---------------- events ---------------- *)

Definition createEvent (headers args : value) : M tool_result :=
  data <- lift (createEvent_data R args) ;;
  postTo EVENT (VObj data) headers.

Definition listEvents (headers args0 : value) : M tool_result :=
  let args := defaultArgs args0 in
  page <- lift (getDefault args "page" (VNum 1)) ;;
  pageSize <- lift (getDefault args "pageSize" (VNum 25)) ;;
  summary <- lift (getDefault args "summary" (VBool true)) ;;
  listCollection EVENT summarizeEvent headers page pageSize summary.

Definition getEvent := getDocument EVENT.

Definition updateEvent (headers args : value) : M tool_result :=
  data <- lift (updateEvent_data R args) ;;
  putDocument EVENT data headers args.

Definition publishEvent := publishDocument EVENT.

(* ---------------- the call-tool handler ---------------- *)

(** The [switch] of the call-tool handler. *)
Definition dispatch (headers : value) (req : call_request) : M tool_result :=
  let args := params_arguments req in
  match find_tool (params_name req) with
  | Some create_blog_post => createBlogPost headers args
  | Some list_blog_posts => listBlogPosts headers args
  | Some get_blog_post => getBlogPost headers args
  | Some update_blog_post => updateBlogPost headers args
  | Some publish_blog_post => publishBlogPost headers args
  | Some list_authors => listAuthors headers
  | Some list_categories => listCategories headers
  | Some list_tags => listTags headers
  | Some create_tutorial => createTutorial headers args
  | Some list_tutorials => listTutorials headers args
  | Some get_tutorial => getTutorial headers args
  | Some update_tutorial => updateTutorial headers args
  | Some publish_tutorial => publishTutorial headers args
  | Some create_event => createEvent headers args
  | Some list_events => listEvents headers args
  | Some get_event => getEvent headers args
  | Some update_event => updateEvent headers args
  | Some publish_event => publishEvent headers args
  | None => throw (Error (str "Unknown tool: " ++ params_name req))
  end.

(** The [headers] object built from the token. *)
Definition authHeaders (token : value) : value :=
  VObj [ ("Authorization", VStr (str "Bearer " ++ ToString R token));
         ("Content-Type", VStr (str "application/json")) ].

(** The body of the [try] block. *)
Definition callToolBody (req : call_request) : M tool_result :=
  token <- authenticate W ;;
  dispatch (authHeaders token) req.

(** The result of the [catch] block. *)
Definition errorResult (error : exn) : tool_result :=
  {| text := VStr (str "Error: " ++ message error); isError := true |}.

(** The handler registered for [CallToolRequestSchema]. *)
Definition callTool (req : call_request) : M tool_result :=
  try_catch (callToolBody req) (fun error => ret (errorResult error)).

(** The server handles the requests of a session one at a time. *)
Fixpoint serve (reqs : list call_request) (s : state)
  : list (outcome tool_result) * state :=
  match reqs with
  | [] => ([], s)
  | req :: reqs' =>
      let (r, s') := callTool req s in
      let (rs, s'') := serve reqs' s' in
      (r :: rs, s'')
  end.

End Handlers.

(* ================================================================== *)
(** ** Start-up *)

(** [process.env], as far as the constructor reads it. *)
Record environment : Type := {
  STRAPI_URL : option jsstring;
  STRAPI_API_TOKEN : option jsstring;
  STRAPI_ADMIN_EMAIL : option jsstring;
  STRAPI_ADMIN_PASSWORD : option jsstring
}.

Definition DEFAULT_URL : jsstring := str "http://localhost:1337".

Inductive construction : Type :=
| Exit (code : Z)
| Constructed (srv : server).

(** The constructor of [StrapiMCPServer]: the fields, then the validation
    of the credentials with its [process.exit(1)]. *)
Definition constructor (env : environment) : construction :=
  let srv :=
    {| strapiUrl :=
         match STRAPI_URL env with
         | Some u => if truthy (VStr u) then u else DEFAULT_URL
         | None => DEFAULT_URL
         end;
       apiToken := STRAPI_API_TOKEN env;
       adminEmail := STRAPI_ADMIN_EMAIL env;
       adminPassword := STRAPI_ADMIN_PASSWORD env;
       jwtToken := VNull;
       tokenExpiry := None |} in
  if (negb (truthy (envValue (apiToken srv)))
      && (negb (truthy (envValue (adminEmail srv)))
          || negb (truthy (envValue (adminPassword srv)))))%bool
  then Exit 1
  else Constructed srv.

Inductive session : Type :=
| Exited (code : Z)
| Served (results : list (outcome tool_result)) (final : state).

(** The process: [new StrapiMCPServer()], then [run()] serves the requests. *)
Definition main (R : runtime) (W : world) (env : environment)
           (reqs : list call_request) : session :=
  match constructor env with
  | Exit code => Exited code
  | Constructed srv =>
      let (rs, s) := serve R W reqs {| self := srv; sent := [] |} in
      Served rs s
  end.

(* ================================================================== *)
(** ** A host for running the model

    The theorems below hold for every [runtime] and every [world].  The
    instances of this section serve to run the model on concrete calls. *)

(** [toLowerCase] on a string whose characters are all ASCII. *)
Definition asciiToLowerCase (s : jsstring) : jsstring :=
  map (fun c => if (N.leb 65 c && N.leb c 90)%bool then (c + 32)%N else c) s.

(** The conversion of the primitive values to strings; the run-time
    representation of arrays and objects is abbreviated. *)
Definition primToString (v : value) : jsstring :=
  match v with
  | VUndefined => str "undefined"
  | VNull => str "null"
  | VBool true => str "true"
  | VBool false => str "false"
  | VNum n => str (NilZero.string_of_int (Z.to_int n))
  | VStr s => s
  | VArr _ => str "[object Array]"
  | VObj _ => str "[object Object]"
  end.

(** A stand-in for [JSON.stringify]: it keeps the value apart. *)
Definition keepValue (v : value) : value :=
  match v with
  | VUndefined => VUndefined
  | _ => VArr [VStr (str "JSON"); v]
  end.

Definition exampleRuntime : runtime :=
  {| toLowerCase := asciiToLowerCase;
     ToString := primToString;
     ToNumber := fun v => match v with VNum n => Some n | _ => None end;
     JSON_stringify := keepValue;
     toISOString := fun t => primToString (VNum t) |}.

(** A world whose clock stands still and whose backend answers every
    request alike. *)
Definition constantWorld (now : Z) (answer : outcome value) : world :=
  {| Date_now := fun _ => now;
     respond := fun _ _ => answer |}.

(** A world whose backend refuses the login and answers the other requests. *)
Definition loginRefused (now : Z) (answer : outcome value) : world :=
  {| Date_now := fun _ => now;
     respond := fun _ r =>
       match method r, data r with
       | POST, VObj (("email", _) :: _) =>
           Throw (Error (str "Request failed with status code 400"))
       | _, _ => answer
       end |}.

(** A world whose clock reads [first] before any request was sent and
    [later] afterwards, and whose backend answers every request alike. *)
Definition clockWorld (first later : Z) (answer : outcome value) : world :=
  {| Date_now := fun trace => match trace with [] => first | _ => later end;
     respond := fun _ _ => answer |}.

(* ================================================================== *)
(** ** Observations on a call *)

(** The request of [authenticate]:
    [axios.post(`${this.strapiUrl}/admin/login`, { email, password })]. *)
Definition loginRequest (srv : server) : request :=
  {| method := POST;
     url := loginUrl (strapiUrl srv);
     data := VObj [("email", envValue (adminEmail srv));
                   ("password", envValue (adminPassword srv))];
     params := VUndefined;
     headers := VUndefined |}.

(** A request to the login endpoint of the backend at [base]. *)
Definition isLoginRequest (base : jsstring) (r : request) : bool :=
  jsstring_eqb (url r) (loginUrl base).

(** The number of login requests among the requests [rs]. *)
Definition loginCalls (base : jsstring) (rs : list request) : nat :=
  List.length (filter (isLoginRequest base) rs).

(** The number of content requests, the HTTP calls that a tool call is
    translated into, among the requests [rs]. *)
Definition backendCalls (base : jsstring) (rs : list request) : nat :=
  List.length (filter (fun r => negb (isLoginRequest base r)) rs).

(** The requests that a computation adds to the trace of [s]. *)
Definition issued {A} (c : M A) (s : state) : list request :=
  skipn (List.length (sent s)) (sent (snd (c s))).

(** The token that a login yields from the answer of the backend:
    [response.data.data.token]. *)
Definition loginToken (answer : outcome value) : outcome value :=
  let* response_data := answer in
  let* d := js_get response_data "data" in
  js_get d "token".

(** What a handler does to the state [s]: it leaves the server object
    alone, and either throws before any request, or sends exactly one
    request, which is not a login, and then returns a result without the
    error flag or throws. *)
Definition handlerStep (c : M tool_result) (s : state) : Prop :=
  self (snd (c s)) = self s /\
  ((sent (snd (c s)) = sent s /\ exists e, fst (c s) = Throw e)
   \/ exists r,
       sent (snd (c s)) = sent s ++ [r]
       /\ isLoginRequest (strapiUrl (self s)) r = false
       /\ forall res, fst (c s) = Return res -> isError res = false).

(** An argument of a call: [args.k], [undefined] when missing. *)
Definition arg (args : value) (k : string) : value :=
  match js_get args k with
  | Return v => v
  | Throw _ => VUndefined
  end.

(** The collection that a list tool reads. *)
Definition listedCollection (t : tool) : option string :=
  match t with
  | list_blog_posts => Some BLOG_POST
  | list_tutorials => Some TUTORIAL
  | list_events => Some EVENT
  | _ => None
  end.

(** The request of a list method:
    [axios.get(collection, { headers, params: { page, pageSize } })]. *)
Definition listRequest (base : jsstring) (uid : string)
           (h page pageSize : value) : request :=
  {| method := GET;
     url := collectionUrl base uid;
     data := VUndefined;
     params := VObj [("page", page); ("pageSize", pageSize)];
     headers := h |}.

(** The requests of a list method, from its arguments. *)
Definition listRequests (base : jsstring) (uid : string) (h args : value)
  : list request :=
  match getDefault (defaultArgs args) "page" (VNum 1),
        getDefault (defaultArgs args) "pageSize" (VNum 25) with
  | Return page, Return pageSize => [listRequest base uid h page pageSize]
  | _, _ => []
  end.









(** The per-item summary of a list tool. *)
Definition summarizer (R : runtime) (t : tool) : value -> outcome value :=
  match t with
  | list_blog_posts => summarizeBlogPost R
  | list_tutorials => summarizeTutorial R
  | list_events => summarizeEvent
  | _ => fun _ => Throw (Error (str "not a list"))
  end.











(** Neither [undefined] nor [null]. *)
Definition defined (v : value) : bool :=
  match v with
  | VUndefined | VNull => false
  | _ => true
  end.




(** Two hundred words, each followed by a space. *)
Definition twoHundredWords : jsstring :=
  List.concat (repeat (str "word ") 200).

(** A variable of the environment is set, or present: it holds a string that
    is not empty.  The constructor tests its variables for truthiness, and
    its log lines call the two cases present and not set. *)
Definition isPresent (v : option jsstring) : Prop :=
  exists s, v = Some s /\ s <> [].

(** A server as the constructor leaves it, with or without an API token. *)
Definition exampleServer (token : option jsstring) : server :=
  {| strapiUrl := DEFAULT_URL;
     apiToken := token;
     adminEmail := Some (str "admin@example.com");
     adminPassword := Some (str "secret");
     jwtToken := VNull;
     tokenExpiry := None |}.

Definition freshState (srv : server) : state :=
  {| self := srv; sent := [] |}.

(** A response body with one blog post. *)
Definition exampleBody : value :=
  VObj [ ("results",
          VArr [ VObj [ ("id", VNum 7); ("title", VStr (str "Hello"));
                        ("content", VStr (str "A long text"));
                        ("excerpt", VStr (str "Short"));
                        ("author", VObj [ ("id", VNum 1);
                                          ("name", VStr (str "Ada"));
                                          ("email", VStr (str "ada@example.com")) ]) ] ]);
         ("pagination", VObj [("page", VNum 1); ("total", VNum 1)]) ].

(* ================================================================== *)
(** ** Further observations *)

(** The empty piece that [split(/\s+/)] leaves before leading white space;
    the empty string is one empty piece. *)
Definition leadingPiece (s : jsstring) : nat :=
  match s with
  | [] => 1
  | c :: _ => if isWhiteSpace c then 1 else 0
  end.

(** The empty piece that [split(/\s+/)] leaves after trailing white space. *)
Definition trailingPiece (s : jsstring) : nat :=
  match s with
  | [] => 0
  | _ => if isWhiteSpace (last s 0%N) then 1 else 0
  end.

(** Two server objects with the same configuration: everything but the
    cached token and its expiry. *)
Definition sameConfig (a b : server) : Prop :=
  strapiUrl a = strapiUrl b
  /\ apiToken a = apiToken b
  /\ adminEmail a = adminEmail b
  /\ adminPassword a = adminPassword b.

(** The collections of the get, publish and create tools, and of the tools
    that list the metadata. *)
Definition fetchedCollection (t : tool) : option string :=
  match t with
  | get_blog_post => Some BLOG_POST
  | get_tutorial => Some TUTORIAL
  | get_event => Some EVENT
  | _ => None
  end.

Definition publishedCollection (t : tool) : option string :=
  match t with
  | publish_blog_post => Some BLOG_POST
  | publish_tutorial => Some TUTORIAL
  | publish_event => Some EVENT
  | _ => None
  end.

Definition createdCollection (t : tool) : option string :=
  match t with
  | create_blog_post => Some BLOG_POST
  | create_tutorial => Some TUTORIAL
  | create_event => Some EVENT
  | _ => None
  end.

Definition metadataCollection (t : tool) : option string :=
  match t with
  | list_authors => Some AUTHOR
  | list_categories => Some CATEGORY
  | list_tags => Some TAG
  | _ => None
  end.

(** The payload of a create method; [now] is the reading of the clock. *)
Definition createData (R : runtime) (now : Z) (t : tool) (args : value)
  : outcome object :=
  match t with
  | create_blog_post => createBlogPost_data R now args
  | create_tutorial => createTutorial_data R args
  | create_event => createEvent_data R args
  | _ => Throw (Error (str "not a create"))
  end.

(** What follows the answer of the backend in a handler that hands the
    body on as it is. *)
Definition handOn (R : runtime) (answer : outcome value) : outcome tool_result :=
  let* response_data := answer in
  Return (reply R response_data).

(** What a handler does with the headers [h] on the state [s]: it throws
    before any request, or sends one request that carries [h]. *)
Definition sendsWith (h : value) (c : M tool_result) (s : state) : Prop :=
  (sent (snd (c s)) = sent s /\ exists e, fst (c s) = Throw e)
  \/ exists r, sent (snd (c s)) = sent s ++ [r] /\ headers r = h.

(** What a handler that hands the body on does on the state [s]: it throws
    before any request, or sends one request and returns the body of the
    answer, or throws the error of the answer. *)
Definition handsOn (R : runtime) (W : world) (c : M tool_result) (s : state)
  : Prop :=
  (sent (snd (c s)) = sent s /\ exists e, fst (c s) = Throw e)
  \/ exists r,
      sent (snd (c s)) = sent s ++ [r]
      /\ fst (c s) = handOn R (respond W (sent s) r).

(* ================================================================== *)
(** ** The tool catalog of setupTools *)

Inductive schema_type : Type :=
| TString
| TNumber
| TBoolean
| TArrayOfNumber.

(** A property of an input schema: its name, its [type], its [enum] and
    its [default].  The [description] strings are left out. *)
Record property : Type := {
  prop_name : string;
  prop_type : schema_type;
  prop_enum : list string;
  prop_default : option value
}.

(** A tool of the catalog: its [name] and, of its [inputSchema], the
    [properties] and the [required] names. *)
Record tool_schema : Type := {
  schema_name : string;
  schema_properties : list property;
  schema_required : list string
}.

Definition prop (n : string) (t : schema_type) : property :=
  {| prop_name := n; prop_type := t; prop_enum := []; prop_default := None |}.

Definition propDefault (n : string) (t : schema_type) (d : value) : property :=
  {| prop_name := n; prop_type := t; prop_enum := []; prop_default := Some d |}.

Definition propEnum (n : string) (e : list string) (d : option value)
  : property :=
  {| prop_name := n; prop_type := TString; prop_enum := e; prop_default := d |}.

Definition STATUS : property :=
  propEnum "status" ["published"; "draft"; "all"] (Some (VStr (str "all"))).

Definition DIFFICULTY : property :=
  propEnum "difficulty" ["beginner"; "intermediate"; "advanced"] None.

Definition EVENT_TYPE : property :=
  propEnum "event_type" ["webinar"; "workshop"; "meetup"; "conference"] None.

Definition byDocumentId (n : string) (more : list property) : tool_schema :=
  {| schema_name := n;
     schema_properties := prop "document_id" TString :: more;
     schema_required := ["document_id"] |}.

(** The [tools] array that the list-tools handler of v1.1.0 returns. *)
Definition catalog : list tool_schema :=
  [ {| schema_name := "strapi_create_blog_post";
       schema_properties :=
         [ prop "title" TString; prop "content" TString;
           prop "description" TString; prop "author_id" TNumber;
           prop "category_id" TNumber; prop "tag_ids" TArrayOfNumber;
           prop "published_date" TString; prop "publishedAt" TString ];
       schema_required := ["title"; "content"; "author_id"] |};
    {| schema_name := "strapi_list_blog_posts";
       schema_properties :=
         [ propDefault "page" TNumber (VNum 1);
           propDefault "pageSize" TNumber (VNum 25);
           STATUS;
           prop "category_id" TNumber; prop "author_id" TNumber;
           prop "tag_id" TNumber;
           propDefault "sort" TString (VStr (str "createdAt:desc"));
           prop "search" TString;
           propDefault "summary" TBoolean (VBool true) ];
       schema_required := [] |};
    byDocumentId "strapi_get_blog_post" [];
    byDocumentId "strapi_update_blog_post"
      [ prop "title" TString; prop "slug" TString; prop "content" TString;
        prop "description" TString; prop "published_date" TString;
        prop "category_id" TNumber; prop "tag_ids" TArrayOfNumber ];
    byDocumentId "strapi_publish_blog_post"
      [ propDefault "publish" TBoolean (VBool true) ];
    {| schema_name := "strapi_list_authors";
       schema_properties := []; schema_required := [] |};
    {| schema_name := "strapi_list_categories";
       schema_properties := []; schema_required := [] |};
    {| schema_name := "strapi_list_tags";
       schema_properties := []; schema_required := [] |};
    {| schema_name := "strapi_create_tutorial";
       schema_properties :=
         [ prop "title" TString; prop "slug" TString; prop "content" TString;
           prop "description" TString; DIFFICULTY; prop "duration" TNumber;
           prop "author_id" TNumber; prop "category_id" TNumber;
           prop "tag_ids" TArrayOfNumber; prop "publishedAt" TString ];
       schema_required := ["title"; "content"; "author_id"] |};
    {| schema_name := "strapi_list_tutorials";
       schema_properties :=
         [ propDefault "page" TNumber (VNum 1);
           propDefault "pageSize" TNumber (VNum 25);
           STATUS; DIFFICULTY; prop "category_id" TNumber;
           propDefault "sort" TString (VStr (str "createdAt:desc"));
           propDefault "summary" TBoolean (VBool true) ];
       schema_required := [] |};
    byDocumentId "strapi_get_tutorial" [];
    byDocumentId "strapi_update_tutorial"
      [ prop "title" TString; prop "slug" TString; prop "content" TString;
        prop "description" TString; DIFFICULTY; prop "duration" TNumber ];
    byDocumentId "strapi_publish_tutorial"
      [ propDefault "publish" TBoolean (VBool true) ];
    {| schema_name := "strapi_create_event";
       schema_properties :=
         [ prop "title" TString; prop "slug" TString;
           prop "description" TString; EVENT_TYPE;
           prop "start_date" TString; prop "end_date" TString;
           prop "location" TString; prop "registration_url" TString;
           prop "max_attendees" TNumber; prop "publishedAt" TString ];
       schema_required := ["title"; "description"; "event_type"; "start_date"] |};
    {| schema_name := "strapi_list_events";
       schema_properties :=
         [ propDefault "page" TNumber (VNum 1);
           propDefault "pageSize" TNumber (VNum 25);
           STATUS; EVENT_TYPE;
           propDefault "upcoming" TBoolean (VBool false);
           propDefault "sort" TString (VStr (str "start_date:asc"));
           propDefault "summary" TBoolean (VBool true) ];
       schema_required := [] |};
    byDocumentId "strapi_get_event" [];
    byDocumentId "strapi_update_event"
      [ prop "title" TString; prop "slug" TString; prop "description" TString;
        prop "start_date" TString; prop "end_date" TString;
        prop "location" TString; prop "registration_url" TString ];
    byDocumentId "strapi_publish_event"
      [ propDefault "publish" TBoolean (VBool true) ] ].

(** The arguments object [args] with the property [k: v] added at its end. *)
Definition withProperty (f : object) (k : string) (v : value) : object :=
  f ++ [(k, v)].

(* ================================================================== *)
(** ** The methods of v1.0.0 that v1.1.0 changed

    The first copy of the class in the file (lines 26-799) has no
    [tokenExpiry] field: the methods below leave that field of the record
    alone. *)

Module V1_0_0.

Section Methods.

Variable R : runtime.
Variable W : world.

(** [authenticate] of v1.0.0: the token is fetched once. *)
Definition authenticate : M value :=
  srv <- getSelf ;;
  if truthy (envValue (apiToken srv)) then ret (envValue (apiToken srv))
  else
    _ <- (if negb (truthy (jwtToken srv))
          then
            try_catch
              (response_data <-
                 axios W POST (loginUrl (strapiUrl srv))
                   (VObj [("email", envValue (adminEmail srv));
                          ("password", envValue (adminPassword srv))])
                   VUndefined VUndefined ;;
               d <- lift (js_get response_data "data") ;;
               token <- lift (js_get d "token") ;;
               setSelf {| strapiUrl := strapiUrl srv;
                          apiToken := apiToken srv;
                          adminEmail := adminEmail srv;
                          adminPassword := adminPassword srv;
                          jwtToken := token;
                          tokenExpiry := tokenExpiry srv |})
              (fun error => throw error)
          else ret tt) ;;
    srv' <- getSelf ;;
    ret (jwtToken srv').

(** The publish methods of v1.0.0:
    [data = { publishedAt: args.publish ? new Date().toISOString() : null }],
    then [axios.put(`${collection}/${args.document_id}`, data, { headers })]. *)
Definition publishDocument (uid : string) (headers args : value)
  : M tool_result :=
  publish <- lift (js_get args "publish") ;;
  publishedAt <- (if truthy publish
                  then now <- dateNow W ;; ret (VStr (toISOString R now))
                  else ret VNull) ;;
  let data := VObj [("publishedAt", publishedAt)] in
  document_id <- lift (js_get args "document_id") ;;
  srv <- getSelf ;;
  response_data <-
    axios W PUT (documentUrl R (strapiUrl srv) uid document_id) data
      VUndefined headers ;;
  ret (reply R response_data).

Definition publishBlogPost := publishDocument BLOG_POST.
Definition publishTutorial := publishDocument TUTORIAL.
Definition publishEvent := publishDocument EVENT.

End Methods.

End V1_0_0.

(* ================================================================== *)
(** ** Lemmas on the string operations *)

Section StringLemmas.

Variable p : codeunit -> bool.

Lemma dropWhile_split (s : jsstring) :
  exists pre, s = pre ++ dropWhile p s /\ Forall (fun c => p c = true) pre.
Proof.
  induction s as [|c s IH]; simpl.
  - exists []. split; [reflexivity | constructor].
  - destruct (p c) eqn:Hc.
    + destruct IH as (pre & Heq & Hall).
      exists (c :: pre). split.
      * simpl. now rewrite <- Heq.
      * now constructor.
    + exists []. split; [reflexivity | constructor].
Qed.

Lemma dropWhile_head (s : jsstring) :
  match dropWhile p s with
  | c :: _ => p c = false
  | [] => True
  end.
Proof.
  induction s as [|c s IH]; simpl; [exact I|].
  destruct (p c) eqn:Hc; [exact IH | exact Hc].
Qed.

Lemma dropWhileEnd_split (s : jsstring) :
  exists post, s = dropWhileEnd p s ++ post /\ Forall (fun c => p c = true) post.
Proof.
  induction s as [|c s IH]; simpl.
  - exists []. split; [reflexivity | constructor].
  - destruct IH as (post & Heq & Hall).
    destruct (dropWhileEnd p s) as [|d t] eqn:Hd.
    + simpl in Heq. subst post.
      destruct (p c) eqn:Hc.
      * exists (c :: s). split; [reflexivity | now constructor].
      * exists s. split; [reflexivity | assumption].
    + exists post. split; [|assumption].
      simpl. now rewrite Heq at 1.
Qed.

Lemma dropWhileEnd_app (a b : jsstring) :
  dropWhileEnd p (a ++ b) =
  match dropWhileEnd p b with
  | [] => dropWhileEnd p a
  | t => a ++ t
  end.
Proof.
  induction a as [|c a IH]; simpl.
  - now destruct (dropWhileEnd p b).
  - rewrite IH. destruct (dropWhileEnd p b) as [|d t] eqn:Hb; [reflexivity|].
    destruct (a ++ d :: t) eqn:Ha; [|reflexivity].
    now destruct a.
Qed.

Lemma dropWhileEnd_last (s : jsstring) :
  match rev (dropWhileEnd p s) with
  | c :: _ => p c = false
  | [] => True
  end.
Proof.
  induction s as [|c s IH]; simpl; [exact I|].
  destruct (dropWhileEnd p s) as [|d t] eqn:Hd.
  - destruct (p c) eqn:Hc; simpl; [exact I | exact Hc].
  - change (rev (c :: d :: t)) with (rev (d :: t) ++ [c]).
    destruct (rev (d :: t)) as [|e u] eqn:Hr; [|exact IH].
    apply (f_equal (@rev _)) in Hr. rewrite rev_involutive in Hr. discriminate.
Qed.

Lemma Forall_dropWhile (Q : codeunit -> Prop) (s : jsstring) :
  Forall Q s -> Forall Q (dropWhile p s).
Proof.
  intros H. destruct (dropWhile_split s) as (pre & Heq & _).
  rewrite Heq in H. now apply Forall_app in H.
Qed.

Lemma Forall_dropWhileEnd (Q : codeunit -> Prop) (s : jsstring) :
  Forall Q s -> Forall Q (dropWhileEnd p s).
Proof.
  intros H. destruct (dropWhileEnd_split s) as (post & Heq & _).
  rewrite Heq in H. now apply Forall_app in H.
Qed.

Lemma Forall_replaceRunsFrom (Q : codeunit -> Prop) (r : jsstring) :
  Forall Q r ->
  forall (s : jsstring) (b : bool),
    Forall (fun c => p c = false -> Q c) s ->
    Forall Q (replaceRunsFrom p r b s).
Proof.
  intros Hr. induction s as [|c s IH]; intros b Hs; simpl; [constructor|].
  inversion Hs as [|? ? Hc Hs']; subst.
  destruct (p c) eqn:Hpc.
  - destruct b; [now apply IH|].
    apply Forall_app. split; [assumption | now apply IH].
  - constructor; [now apply Hc | now apply IH].
Qed.

End StringLemmas.

Lemma adjacent_infix (p : codeunit -> bool) (a b : jsstring) (c1 c2 : codeunit) :
  p c1 = true -> p c2 = true -> adjacent p (a ++ c1 :: c2 :: b) = true.
Proof.
  intros H1 H2. induction a as [|c a IH].
  - simpl. now rewrite H1, H2.
  - change ((c :: a) ++ c1 :: c2 :: b) with (c :: (a ++ c1 :: c2 :: b)).
    destruct (a ++ c1 :: c2 :: b) as [|d t] eqn:Ha.
    + now destruct a.
    + simpl in *. rewrite IH. apply orb_true_r.
Qed.

Lemma adjacent_app_l (p : codeunit -> bool) (a b : jsstring) :
  adjacent p (a ++ b) = false -> adjacent p a = false.
Proof.
  induction a as [|c a IH]; [reflexivity|].
  destruct a as [|d a]; [reflexivity|].
  simpl in *. intros H. apply orb_false_iff in H. destruct H as [H1 H2].
  rewrite H1. now apply IH.
Qed.

Lemma adjacent_app_r (p : codeunit -> bool) (a b : jsstring) :
  adjacent p (a ++ b) = false -> adjacent p b = false.
Proof.
  induction a as [|c a IH]; [trivial|].
  intros H. apply IH.
  change ((c :: a) ++ b) with (c :: (a ++ b)) in H.
  destruct (a ++ b) as [|d t]; [reflexivity|].
  simpl in H. now apply orb_false_iff in H.
Qed.

(** Collapsing the runs of a class leaves no two neighbours of the class:
    after a replaced run comes a character outside the class. *)
Lemma adjacent_replaceRunsFrom (s : jsstring) :
  forall b : bool,
    adjacent isHyphen (replaceRunsFrom isHyphen [HYPHEN] b s) = false /\
    (b = true ->
     match replaceRunsFrom isHyphen [HYPHEN] b s with
     | c :: _ => isHyphen c = false
     | [] => True
     end).
Proof.
  induction s as [|c s IH]; intros b; simpl.
  - split; [reflexivity | now intros _].
  - destruct (isHyphen c) eqn:Hc.
    + destruct b.
      * apply IH.
      * destruct (IH true) as [Hadj Hhd]. specialize (Hhd eq_refl).
        split; [|discriminate].
        simpl. destruct (replaceRunsFrom isHyphen [HYPHEN] true s) as [|d t].
        -- reflexivity.
        -- rewrite Hhd. simpl. rewrite ?andb_false_r. exact Hadj.
    + destruct (IH false) as [Hadj _]. split; [|now intros _].
      destruct (replaceRunsFrom isHyphen [HYPHEN] false s) as [|d t].
      * reflexivity.
      * simpl. rewrite Hc. exact Hadj.
Qed.

(* ================================================================== *)
(** ** Words *)

Lemma emit_nonempty (cur : jsstring) :
  Forall (fun w => w <> []) (emit cur).
Proof.
  destruct cur as [|c cur]; simpl; constructor; [|constructor].
  intros H. apply (f_equal (@List.length _)) in H.
  rewrite length_app in H. simpl in H. lia.
Qed.

Lemma wordsFrom_nonempty (sep : codeunit -> bool) (s : jsstring) :
  forall cur, Forall (fun w => w <> []) (wordsFrom sep cur s).
Proof.
  induction s as [|c s IH]; intros cur; simpl.
  - apply emit_nonempty.
  - destruct (sep c); [|apply IH].
    apply Forall_app. split; [apply emit_nonempty | apply IH].
Qed.

Lemma wordsFrom_leading (sep : codeunit -> bool) (pre s : jsstring) :
  Forall (fun c => sep c = true) pre ->
  wordsFrom sep [] (pre ++ s) = wordsFrom sep [] s.
Proof.
  induction 1 as [|c pre Hc _ IH]; simpl; [reflexivity|].
  now rewrite Hc.
Qed.

Lemma wordsFrom_trailing (sep : codeunit -> bool) (post : jsstring) :
  Forall (fun c => sep c = true) post ->
  forall s cur, wordsFrom sep cur (s ++ post) = wordsFrom sep cur s.
Proof.
  intros Hpost.
  assert (Hbase : forall cur, wordsFrom sep cur post = emit cur).
  { induction Hpost as [|c post Hc _ IH]; intros cur; simpl; [reflexivity|].
    rewrite Hc, IH. simpl. apply app_nil_r. }
  induction s as [|c s IH]; intros cur; simpl.
  - apply Hbase.
  - destruct (sep c); now rewrite IH.
Qed.

Section ReplaceRunsWords.

(** Replacing the runs of [p] by one hyphen turns the words for the
    separators [sep] into the words for the separators [sep']. *)
Variables p sep sep' : codeunit -> bool.
Hypothesis p_sep : forall c, p c = true -> sep c = true.
Hypothesis hyphen_sep' : sep' HYPHEN = true.
Hypothesis others : forall c, p c = false -> sep' c = sep c.

Lemma wordsFrom_replaceRunsFrom (s : jsstring) :
  forall (cur : jsstring) (b : bool),
    (b = true -> cur = []) ->
    wordsFrom sep' cur (replaceRunsFrom p [HYPHEN] b s) = wordsFrom sep cur s.
Proof.
  induction s as [|c s IH]; intros cur b Hb; simpl; [reflexivity|].
  destruct (p c) eqn:Hc.
  - rewrite (p_sep Hc). destruct b.
    + rewrite (Hb eq_refl). simpl. now apply IH.
    + simpl. rewrite hyphen_sep'. f_equal. now apply IH.
  - simpl. rewrite (others Hc).
    destruct (sep c); [f_equal|]; apply IH; discriminate.
Qed.

End ReplaceRunsWords.

Lemma dropWhileEnd_id (p : codeunit -> bool) (s : jsstring) :
  Forall (fun c => p c = false) s -> dropWhileEnd p s = s.
Proof.
  induction 1 as [|c s Hc _ IH]; simpl; [reflexivity|].
  rewrite IH. destruct s; [now rewrite Hc | reflexivity].
Qed.

Lemma isHyphen_eq (c : codeunit) : isHyphen c = true -> c = HYPHEN.
Proof. unfold isHyphen. apply N.eqb_eq. Qed.

Lemma joinHyphen_cons_nonempty (w : jsstring) (ws : list jsstring) :
  w <> [] -> joinHyphen (w :: ws) <> [].
Proof.
  intros Hw. simpl. destruct ws; [assumption|].
  destruct w; [contradiction | discriminate].
Qed.

(** On a string without two neighbouring hyphens, joining the words by
    hyphens gives the string back, up to the hyphens at its ends. *)
Lemma joinHyphen_wordsFrom (s : jsstring) :
  forall cur,
    adjacent isHyphen s = false ->
    Forall (fun c => isHyphen c = false) cur ->
    (cur = [] -> match s with c :: _ => isHyphen c = false | [] => True end) ->
    joinHyphen (wordsFrom isHyphen cur s) = dropWhileEnd isHyphen (rev cur ++ s).
Proof.
  induction s as [|c s IH]; intros cur Hadj Hcur Hhd.
  - simpl. rewrite app_nil_r, dropWhileEnd_id by now apply Forall_rev.
    destruct cur; reflexivity.
  - cbn [wordsFrom]. destruct (isHyphen c) eqn:Hc.
    + destruct cur as [|d cur]; [specialize (Hhd eq_refl); congruence|].
      assert (Hs : adjacent isHyphen s = false /\
                   match s with e :: _ => isHyphen e = false | [] => True end).
      { destruct s as [|e s]; [now split|]. simpl in Hadj.
        rewrite Hc in Hadj. simpl in Hadj.
        apply orb_false_iff in Hadj. destruct Hadj. now split. }
      destruct Hs as [Hadj' Hhd'].
      specialize (IH [] Hadj' (Forall_nil _) (fun _ => Hhd')).
      simpl rev in IH. simpl app in IH.
      rewrite dropWhileEnd_app. cbn [dropWhileEnd]. rewrite <- IH, Hc.
      change (emit (d :: cur)) with [rev (d :: cur)].
      pose proof (wordsFrom_nonempty isHyphen s []) as Hne.
      destruct (wordsFrom isHyphen [] s) as [|w ws] eqn:Hw.
      * simpl joinHyphen. cbv iota.
        change (rev cur ++ [d]) with (rev (d :: cur)).
        symmetry. apply dropWhileEnd_id. now apply Forall_rev.
      * inversion Hne as [|? ? Hw0 _]; subst.
        pose proof (joinHyphen_cons_nonempty ws Hw0) as Hj.
        change ([rev (d :: cur)] ++ w :: ws) with (rev (d :: cur) :: w :: ws).
        change (joinHyphen (rev (d :: cur) :: w :: ws))
          with (rev (d :: cur) ++ HYPHEN :: joinHyphen (w :: ws)).
        destruct (joinHyphen (w :: ws)) as [|e t]; [contradiction|].
        now rewrite (isHyphen_eq c Hc).
    + rewrite IH.
      * simpl rev. now rewrite <- app_assoc.
      * destruct s as [|e s]; [reflexivity|]. simpl in Hadj.
        now apply orb_false_iff in Hadj.
      * now constructor.
      * discriminate.
Qed.

(** Trimming removes separators only, so it keeps the words. *)
Lemma words_trim (sep : codeunit -> bool) (x : jsstring) :
  (forall c, isWhiteSpace c = true -> sep c = true) ->
  wordsFrom sep [] (dropWhileEnd isWhiteSpace (dropWhile isWhiteSpace x))
  = wordsFrom sep [] x.
Proof.
  intros Hws.
  destruct (dropWhile_split isWhiteSpace x) as (pre & Hx & Hpre).
  remember (dropWhile isWhiteSpace x) as y eqn:Ey. clear Ey.
  destruct (dropWhileEnd_split isWhiteSpace y) as (post & Hy & Hpost).
  assert (Hpre' : Forall (fun c => sep c = true) pre)
    by (eapply Forall_impl; [|exact Hpre]; exact Hws).
  assert (Hpost' : Forall (fun c => sep c = true) post)
    by (eapply Forall_impl; [|exact Hpost]; exact Hws).
  rewrite <- (@wordsFrom_trailing sep post Hpost' (dropWhileEnd isWhiteSpace y) []).
  rewrite <- Hy. rewrite Hx. symmetry. now apply wordsFrom_leading.
Qed.

(** The chain of [replace] calls computes the words of its input joined by
    hyphens. *)
Lemma slug_pipeline_words (x : jsstring) :
  stripHyphens
    (replaceRuns isHyphen [HYPHEN]
       (replaceRuns isWhiteSpace [HYPHEN] (trim x)))
  = joinHyphen (words isSeparator x).
Proof.
  unfold stripHyphens, replaceRuns, trim, words.
  set (t := dropWhileEnd isWhiteSpace (dropWhile isWhiteSpace x)).
  set (v := replaceRunsFrom isWhiteSpace [HYPHEN] false t).
  set (z := replaceRunsFrom isHyphen [HYPHEN] false v).
  assert (Hws : forall c, isWhiteSpace c = true -> isSeparator c = true).
  { intros c Hc. unfold isSeparator. now rewrite Hc. }
  assert (Ht : wordsFrom isSeparator [] t = wordsFrom isSeparator [] x).
  { subst t. apply words_trim. exact Hws. }
  assert (Hv : wordsFrom isHyphen [] v = wordsFrom isSeparator [] t).
  { apply wordsFrom_replaceRunsFrom with (p := isWhiteSpace).
    - exact Hws.
    - reflexivity.
    - intros c Hc. unfold isSeparator. now rewrite Hc.
    - discriminate. }
  assert (Hz : wordsFrom isHyphen [] z = wordsFrom isHyphen [] v).
  { apply wordsFrom_replaceRunsFrom with (p := isHyphen).
    - trivial.
    - reflexivity.
    - reflexivity.
    - discriminate. }
  destruct (adjacent_replaceRunsFrom v false) as [Hadj _]. fold z in Hadj.
  destruct (dropWhile_split isHyphen z) as (pre & Hsplit & Hpre).
  rewrite <- Ht, <- Hv, <- Hz.
  rewrite Hsplit at 2. rewrite wordsFrom_leading by exact Hpre.
  rewrite joinHyphen_wordsFrom.
  - reflexivity.
  - rewrite Hsplit in Hadj. now apply adjacent_app_r in Hadj.
  - constructor.
  - intros _. apply dropWhile_head.
Qed.

(* ================================================================== *)
(** ** generateSlug: the claims *)

Section SlugTheorems.

Variable lower : jsstring -> jsstring.

Lemma slugify_spec (s : jsstring) : slugify lower s = slug_spec lower s.
Proof. unfold slugify, slug_spec. apply slug_pipeline_words. Qed.

Lemma slugify_chars (s : jsstring) :
  Forall (fun c => isSlugChar c = true) (slugify lower s).
Proof.
  unfold slugify, stripHyphens, replaceRuns, trim, removeAll.
  apply Forall_dropWhileEnd, Forall_dropWhile.
  apply Forall_replaceRunsFrom; [now repeat constructor|].
  eapply Forall_impl; [intros c Hc _; exact Hc|].
  apply Forall_replaceRunsFrom; [now repeat constructor|].
  apply Forall_dropWhileEnd, Forall_dropWhile.
  apply Forall_forall. intros c Hc. apply filter_In in Hc.
  destruct Hc as [_ Hc]. intros Hws. revert Hc.
  unfold keptBySlug, isSlugChar. rewrite Hws.
  now destruct (is_a_z c), (is_0_9 c), (isHyphen c).
Qed.

Lemma slugify_hyphens (s : jsstring) :
  (forall rest, slugify lower s <> HYPHEN :: rest) /\
  (forall front, slugify lower s <> front ++ [HYPHEN]) /\
  (forall front rest, slugify lower s <> front ++ HYPHEN :: HYPHEN :: rest).
Proof.
  unfold slugify, stripHyphens, replaceRuns.
  set (v := replaceRunsFrom isWhiteSpace [HYPHEN] false _).
  set (z := replaceRunsFrom isHyphen [HYPHEN] false v).
  destruct (adjacent_replaceRunsFrom v false) as [Hadj _]. fold z in Hadj.
  destruct (dropWhile_split isHyphen z) as (pre & Hz & _).
  pose proof (dropWhile_head isHyphen z) as Hhd.
  remember (dropWhile isHyphen z) as y eqn:Ey. clear Ey.
  destruct (dropWhileEnd_split isHyphen y) as (post & Hy & _).
  pose proof (dropWhileEnd_last isHyphen y) as Hlast.
  remember (dropWhileEnd isHyphen y) as slug eqn:Es. clear Es.
  rewrite Hz in Hadj. apply adjacent_app_r in Hadj.
  rewrite Hy in Hadj. apply adjacent_app_l in Hadj.
  split; [|split].
  - intros rest E. subst slug. rewrite Hy in Hhd. discriminate.
  - intros front E. subst slug. rewrite rev_app_distr in Hlast. discriminate.
  - intros front rest E. subst slug.
    now rewrite adjacent_infix in Hadj.
Qed.

End SlugTheorems.

(** Deleting the special characters first, as the code does, or word by
    word, as the specification says, gives the same words. *)
Lemma emit_alphanumeric (cur : jsstring) :
  filter (fun w => negb (isEmptyString w)) (map (filter isAlphanumeric) (emit cur))
  = emit (filter isAlphanumeric cur).
Proof.
  destruct cur as [|c cur]; [reflexivity|].
  assert (Hrev : forall l, filter isAlphanumeric (rev l)
                           = rev (filter isAlphanumeric l)).
  { intros l. induction l as [|a l IH]; [reflexivity|].
    simpl rev. rewrite filter_app, IH. simpl.
    destruct (isAlphanumeric a); simpl; [reflexivity | now rewrite app_nil_r]. }
  change (emit (c :: cur)) with [rev (c :: cur)].
  cbn [map]. rewrite Hrev.
  remember (filter isAlphanumeric (c :: cur)) as l eqn:El. clear El.
  destruct l as [|d l]; [reflexivity|].
  change (emit (d :: l)) with [rev (d :: l)].
  cbn [filter]. simpl rev.
  destruct (rev l ++ [d]) eqn:E; [|reflexivity].
  now destruct (rev l).
Qed.

Lemma keptBySlug_split (c : codeunit) :
  keptBySlug c = (isAlphanumeric c || isSeparator c)%bool.
Proof.
  unfold keptBySlug, isAlphanumeric, isSeparator, is_a_z, is_0_9.
  now rewrite <- !orb_assoc.
Qed.

Lemma wordsFrom_kept (cur s : jsstring) :
  wordsFrom isSeparator (filter isAlphanumeric cur) (filter keptBySlug s)
  = filter (fun w => negb (isEmptyString w))
      (map (filter isAlphanumeric) (wordsFrom isSeparator cur s)).
Proof.
  revert cur. induction s as [|c s IH]; intros cur.
  - simpl. symmetry. apply emit_alphanumeric.
  - cbn [filter wordsFrom]. rewrite keptBySlug_split.
    destruct (isSeparator c) eqn:Hsep.
    + rewrite orb_true_r. cbn [wordsFrom]. rewrite Hsep.
      rewrite map_app, filter_app, emit_alphanumeric.
      f_equal. exact (IH []).
    + rewrite orb_false_r. destruct (isAlphanumeric c) eqn:Hal.
      * cbn [wordsFrom]. rewrite Hsep.
        rewrite <- IH. cbn [filter]. now rewrite Hal.
      * rewrite <- IH. cbn [filter]. now rewrite Hal.
Qed.

Lemma filter_dropWhile (q p : codeunit -> bool) (s : jsstring) :
  (forall c, p c = true -> q c = false) ->
  filter q (dropWhile p s) = filter q s.
Proof.
  intros H. induction s as [|c s IH]; [reflexivity|].
  simpl. destruct (p c) eqn:Hp; [|reflexivity].
  now rewrite (H c Hp).
Qed.

Lemma filter_dropWhileEnd (q p : codeunit -> bool) (s : jsstring) :
  (forall c, p c = true -> q c = false) ->
  filter q (dropWhileEnd p s) = filter q s.
Proof.
  intros H. destruct (dropWhileEnd_split p s) as (post & Hs & Hpost).
  rewrite Hs at 2. rewrite filter_app.
  assert (E : filter q post = []).
  { clear Hs. induction Hpost as [|c l Hc _ IH]; [reflexivity|].
    simpl. now rewrite (H c Hc). }
  now rewrite E, app_nil_r.
Qed.

Lemma filter_replaceRunsFrom (q p : codeunit -> bool) (r : jsstring)
      (inrun : bool) (s : jsstring) :
  (forall c, p c = true -> q c = false) ->
  filter q r = [] ->
  filter q (replaceRunsFrom p r inrun s) = filter q s.
Proof.
  intros H Hr. revert inrun. induction s as [|c s IH]; intros inrun; [reflexivity|].
  cbn [replaceRunsFrom filter]. destruct (p c) eqn:Hp.
  - rewrite (H c Hp). destruct inrun; [apply IH|].
    rewrite filter_app, Hr. apply IH.
  - cbn [filter]. now rewrite IH.
Qed.

Lemma slugify_alphanumerics (lower : jsstring -> jsstring) (s : jsstring) :
  filter isAlphanumeric (slugify lower s) = filter isAlphanumeric (lower s).
Proof.
  assert (Hws : forall c, isWhiteSpace c = true -> isAlphanumeric c = false).
  { intros c Hc. destruct (isAlphanumeric c) eqn:E; [|reflexivity].
    exfalso. unfold isAlphanumeric in E. unfold isWhiteSpace in Hc.
    repeat rewrite orb_true_iff in *. repeat rewrite andb_true_iff in *.
    repeat rewrite N.leb_le in *. repeat rewrite N.eqb_eq in *. lia. }
  assert (Hhy : forall c, isHyphen c = true -> isAlphanumeric c = false).
  { intros c Hc. apply isHyphen_eq in Hc. subst c. reflexivity. }
  unfold slugify, stripHyphens, replaceRuns, trim, removeAll.
  rewrite (@filter_dropWhileEnd isAlphanumeric isHyphen _ Hhy).
  rewrite (@filter_dropWhile isAlphanumeric isHyphen _ Hhy).
  rewrite (@filter_replaceRunsFrom isAlphanumeric isHyphen [HYPHEN] false _
             Hhy eq_refl).
  rewrite (@filter_replaceRunsFrom isAlphanumeric isWhiteSpace [HYPHEN] false _
             Hws eq_refl).
  rewrite (@filter_dropWhileEnd isAlphanumeric isWhiteSpace _ Hws).
  rewrite (@filter_dropWhile isAlphanumeric isWhiteSpace _ Hws).
  induction (lower s) as [|c l IH]; [reflexivity|].
  cbn [filter]. rewrite keptBySlug_split.
  destruct (isAlphanumeric c) eqn:E; cbn [orb filter]; rewrite ?E.
  - now rewrite IH.
  - destruct (isSeparator c); cbn [filter]; rewrite ?E; exact IH.
Qed.

(** C1. For every string title, [generateSlug] is deterministic (equal
    titles give equal slugs); its result is the title in lower case, cut
    into words at white space and hyphens, each word without its
    non-alphanumeric characters, the remaining words joined by single
    hyphens.  The letters and digits of the title in lower case are all
    kept, in order, and the result contains no character outside a-z, 0-9
    and the hyphen. *)
Theorem generateSlug_deterministic_lowercase_hyphenated :
  forall (lower : jsstring -> jsstring) (title title' : jsstring),
    lower [] = [] ->
    title = title' ->
    generateSlug lower (VStr title) = generateSlug lower (VStr title')
    /\ generateSlug lower (VStr title) = joinHyphen (titleWords (lower title))
    /\ filter isAlphanumeric (generateSlug lower (VStr title))
       = filter isAlphanumeric (lower title)
    /\ (forall c, In c (generateSlug lower (VStr title)) ->
          (97 <= c <= 122)%N \/ (48 <= c <= 57)%N \/ c = 45%N).
Proof.
  intros lower title title' Hnil E. subst title'.
  split; [reflexivity|]. split; [|split].
  - destruct title as [|c title].
    + simpl. now rewrite Hnil.
    + cbn [generateSlug truthy]. rewrite slugify_spec.
      unfold slug_spec, titleWords, words, removeAll.
      now rewrite <- (wordsFrom_kept [] (lower (c :: title))).
  - destruct title as [|c title].
    + simpl. now rewrite Hnil.
    + apply slugify_alphanumerics.
  - intros c Hc.
    assert (H : isSlugChar c = true).
    { destruct title as [|d title]; [contradiction|].
      pose proof (slugify_chars lower (d :: title)) as Hall.
      rewrite Forall_forall in Hall. now apply Hall. }
    unfold isSlugChar, is_a_z, is_0_9, isHyphen, HYPHEN in H.
    repeat rewrite orb_true_iff in H. repeat rewrite andb_true_iff in H.
    repeat rewrite N.leb_le in H. rewrite N.eqb_eq in H. tauto.
Qed.

Lemma generateSlug_deterministic_lowercase_hyphenated_witness :
  generateSlug asciiToLowerCase (VStr (str "Hello, World!"))
  = generateSlug asciiToLowerCase (VStr (str "Hello, World!"))
  /\ generateSlug asciiToLowerCase (VStr (str "Hello, World!"))
     = joinHyphen (titleWords (asciiToLowerCase (str "Hello, World!")))
  /\ filter isAlphanumeric
       (generateSlug asciiToLowerCase (VStr (str "Hello, World!")))
     = filter isAlphanumeric (asciiToLowerCase (str "Hello, World!"))
  /\ (forall c,
        In c (generateSlug asciiToLowerCase (VStr (str "Hello, World!"))) ->
        (97 <= c <= 122)%N \/ (48 <= c <= 57)%N \/ c = 45%N).
Proof.
  apply (@generateSlug_deterministic_lowercase_hyphenated
           asciiToLowerCase (str "Hello, World!") (str "Hello, World!"));
    reflexivity.
Defined.

(** C9. [generateSlug] is total: a missing, [null] or non-string argument
    gives the empty string, and for every string the result does not begin
    with a hyphen, does not end with one and has no two hyphens in a row. *)
Theorem generateSlug_total_no_stray_hyphens :
  forall (lower : jsstring -> jsstring) (title : value),
    (exists slug, generateSlug lower title = slug)
    /\ match title with
       | VStr _ =>
           (forall rest, generateSlug lower title <> HYPHEN :: rest)
           /\ (forall front, generateSlug lower title <> front ++ [HYPHEN])
           /\ (forall front rest,
                 generateSlug lower title <> front ++ HYPHEN :: HYPHEN :: rest)
       | _ => generateSlug lower title = []
       end.
Proof.
  intros lower title. split; [eexists; reflexivity|].
  destruct title as [| | b | n | s | l | f]; try reflexivity.
  destruct s as [|c s].
  - simpl. repeat split; intros; try discriminate.
    + now destruct front.
    + now destruct front.
  - apply slugify_hyphens.
Qed.

(* ================================================================== *)
(** ** Reading time *)

(** Inside a content that ends with a word, [split] yields as many pieces
    as there are words left to read. *)
Lemma splitFrom_length_words (s : jsstring) :
  forall (insep : bool) (cur : jsstring),
    (insep = true -> cur = []) ->
    (insep = false -> cur <> []) ->
    (s = [] -> cur <> []) ->
    isWhiteSpace (last s 0%N) = false ->
    List.length (splitFrom insep cur s)
    = List.length (wordsFrom isWhiteSpace cur s).
Proof.
  induction s as [|c s IH]; intros insep cur Hin Hout Hnil Hlast.
  - simpl. destruct cur; [now destruct Hnil | reflexivity].
  - assert (Hlast' : s <> [] -> isWhiteSpace (last s 0%N) = false).
    { intros Hs. destruct s; [contradiction | exact Hlast]. }
    cbn [splitFrom wordsFrom]. destruct (isWhiteSpace c) eqn:Hc.
    + assert (Hs : s <> []).
      { intros ->. simpl in Hlast. congruence. }
      destruct insep.
      * rewrite (Hin eq_refl). simpl.
        apply IH; auto; try discriminate; intros E; contradiction.
      * destruct cur as [|d cur]; [now destruct Hout|].
        simpl. f_equal.
        apply IH; auto; try discriminate; intros E; contradiction.
    + apply IH; try discriminate.
      destruct s as [|d s]; [reflexivity | exact Hlast].
Qed.

(** Where the code agrees with the specification: on a content that begins
    and ends with a word, [split] counts the words. *)
Lemma readingTime_of_trimmed_content (c : codeunit) (s : jsstring) :
  isWhiteSpace c = false ->
  isWhiteSpace (last (c :: s) 0%N) = false ->
  readingTime (VStr (c :: s)) = Return (readingTime_spec (c :: s)).
Proof.
  intros Hc Hlast.
  unfold readingTime, readingTime_spec, word_count, words, js_split,
    splitWhiteSpace.
  cbn [obind splitFrom wordsFrom]. rewrite Hc.
  rewrite splitFrom_length_words; try discriminate; [reflexivity|].
  destruct s; [reflexivity | exact Hlast].
Qed.

Lemma readingTime_twoHundredWords :
  readingTime (VStr twoHundredWords) = Return 2%Z
  /\ readingTime_spec twoHundredWords = 1%Z.
Proof. split; vm_compute; reflexivity. Qed.

(** C2 (the code departs from the claim). A content of two hundred words
    that ends with white space: [createBlogPost] and [updateBlogPost] put
    [reading_time: 2] in the payload, where ceil(word_count / 200) is 1. *)
Theorem reading_time_counts_the_piece_after_trailing_space :
  forall (R : runtime) (now : Z),
    (exists d,
        createBlogPost_data R now
          (VObj [("title", VStr (str "Post")); ("content", VStr twoHundredWords);
                 ("author_id", VNum 1)]) = Return d
        /\ lookup "reading_time" d = Some (VNum 2))
    /\ (exists d,
          updateBlogPost_data R
            (VObj [("document_id", VStr (str "abc"));
                   ("content", VStr twoHundredWords)]) = Return d
          /\ lookup "reading_time" d = Some (VNum 2))
    /\ word_count twoHundredWords = 200%Z
    /\ readingTime_spec twoHundredWords = 1%Z.
Proof.
  intros R now. destruct readingTime_twoHundredWords as [Hcode Hspec].
  split; [|split; [|split]].
  - unfold createBlogPost_data. cbn [js_get lookup String.eqb Ascii.eqb Bool.eqb obind].
    rewrite Hcode. cbn [obind]. eexists. split; [reflexivity|].
    reflexivity.
  - unfold updateBlogPost_data, titleAndSlug, copyIfTruthy.
    cbn [js_get lookup String.eqb Ascii.eqb Bool.eqb obind truthy negb].
    change (truthy (VStr twoHundredWords)) with true. cbv iota.
    rewrite Hcode. cbn [obind]. eexists. split; reflexivity.
  - vm_compute. reflexivity.
  - exact Hspec.
Qed.

(* ================================================================== *)
(** ** authenticate *)

Lemma skipn_app_exact {A} (l new : list A) :
  skipn (List.length l) (l ++ new) = new.
Proof. induction l; simpl; auto. Qed.

Lemma issued_nil {A} (c : M A) (s : state) :
  sent (snd (c s)) = sent s -> issued c s = [].
Proof.
  unfold issued. intros ->. rewrite <- (app_nil_r (sent s)) at 2.
  apply skipn_app_exact.
Qed.

Lemma issued_app {A} (c : M A) (s : state) (new : list request) :
  sent (snd (c s)) = sent s ++ new -> issued c s = new.
Proof. unfold issued. intros ->. apply skipn_app_exact. Qed.

(** What [authenticate] does, case by case. *)
Lemma authenticate_cases (W : world) (srv : server) (trace : list request) :
  let s := {| self := srv; sent := trace |} in
  let now := Date_now W trace in
  authenticate W s =
  if truthy (envValue (apiToken srv)) then (Return (envValue (apiToken srv)), s)
  else if (truthy (jwtToken srv) && truthy (expiryValue (tokenExpiry srv))
           && match tokenExpiry srv with
              | Some e => Z.ltb now e
              | None => false
              end)%bool
  then (Return (jwtToken srv), s)
  else
    match loginToken (respond W trace (loginRequest srv)) with
    | Return token =>
        (Return token,
         {| self := withToken srv token (now + TOKEN_LIFETIME);
            sent := trace ++ [loginRequest srv] |})
    | Throw e =>
        (Throw e, {| self := srv; sent := trace ++ [loginRequest srv] |})
    end.
Proof.
  intros s now. subst s now.
  unfold authenticate, bind, getSelf, dateNow.
  cbv beta iota delta [self sent].
  destruct (truthy (envValue (apiToken srv))); [reflexivity|].
  destruct (truthy (jwtToken srv) && truthy (expiryValue (tokenExpiry srv))
            && match tokenExpiry srv with
               | Some e => Z.ltb (Date_now W trace) e
               | None => false
               end)%bool; [reflexivity|].
  unfold try_catch, bind, axios, lift, setSelf, throw, ret, loginToken.
  cbv beta iota delta [self sent]. fold (loginRequest srv).
  destruct (respond W trace (loginRequest srv)) as [body|e]; [|reflexivity].
  cbn [obind]. destruct (js_get body "data") as [d|e]; [|reflexivity].
  cbn [obind]. destruct (js_get d "token") as [token|e]; reflexivity.
Qed.

(** What [authenticate] of v1.0.0 does, case by case. *)
Lemma v1_0_0_authenticate_cases (W : world) (srv : server) (trace : list request) :
  let s := {| self := srv; sent := trace |} in
  V1_0_0.authenticate W s =
  if truthy (envValue (apiToken srv)) then (Return (envValue (apiToken srv)), s)
  else if truthy (jwtToken srv) then (Return (jwtToken srv), s)
  else
    match loginToken (respond W trace (loginRequest srv)) with
    | Return token =>
        (Return token,
         {| self := {| strapiUrl := strapiUrl srv;
                       apiToken := apiToken srv;
                       adminEmail := adminEmail srv;
                       adminPassword := adminPassword srv;
                       jwtToken := token;
                       tokenExpiry := tokenExpiry srv |};
            sent := trace ++ [loginRequest srv] |})
    | Throw e =>
        (Throw e, {| self := srv; sent := trace ++ [loginRequest srv] |})
    end.
Proof.
  intros s. subst s.
  unfold V1_0_0.authenticate, bind, getSelf.
  cbv beta iota delta [self sent].
  destruct (truthy (envValue (apiToken srv))); [reflexivity|].
  destruct (truthy (jwtToken srv)); cbn [negb]; [reflexivity|].
  unfold try_catch, bind, axios, lift, setSelf, throw, ret, loginToken.
  cbv beta iota delta [self sent]. fold (loginRequest srv).
  destruct (respond W trace (loginRequest srv)) as [body|e]; [|reflexivity].
  cbn [obind]. destruct (js_get body "data") as [d|e]; [|reflexivity].
  cbn [obind]. destruct (js_get d "token") as [token|e]; reflexivity.
Qed.

(** C3. In the current class (v1.1.0) and without a configured API token,
    [authenticate] returns the cached token without a login request exactly
    when a token is cached and the clock is strictly before the stored
    expiry; otherwise it sends one login request and, when the login
    succeeds, caches the fresh token with the expiry [now + TOKEN_LIFETIME].
    The [authenticate] of the v1.0.0 copy keeps no expiry: it returns a
    cached token without a login request exactly when one is cached,
    whatever the clock.  In both, a configured API token is returned and the
    state, hence the (token, expiry) pair, is left alone. *)
Theorem authenticate_cache_policy :
  forall (W : world) (srv : server) (trace : list request),
    let s := {| self := srv; sent := trace |} in
    let now := Date_now W trace in
    (0 <= now)%Z ->
    (if truthy (envValue (apiToken srv))
     then authenticate W s = (Return (envValue (apiToken srv)), s)
     else
       (issued (authenticate W) s = [] <->
        truthy (jwtToken srv) = true /\
        exists e, tokenExpiry srv = Some e /\ (now < e)%Z)
       /\
       if (truthy (jwtToken srv)
           && match tokenExpiry srv with
              | Some e => Z.ltb now e
              | None => false
              end)%bool
       then authenticate W s = (Return (jwtToken srv), s)
       else
         issued (authenticate W) s = [loginRequest srv]
         /\ match loginToken (respond W trace (loginRequest srv)) with
            | Return token =>
                authenticate W s =
                (Return token,
                 {| self := withToken srv token (now + TOKEN_LIFETIME);
                    sent := trace ++ [loginRequest srv] |})
            | Throw e =>
                authenticate W s =
                (Throw e, {| self := srv; sent := trace ++ [loginRequest srv] |})
            end)
    /\
    (if truthy (envValue (apiToken srv))
     then V1_0_0.authenticate W s = (Return (envValue (apiToken srv)), s)
     else
       (issued (V1_0_0.authenticate W) s = [] <-> truthy (jwtToken srv) = true)
       /\ (truthy (jwtToken srv) = true ->
           V1_0_0.authenticate W s = (Return (jwtToken srv), s))).
Proof.
  intros W srv trace s now Hnow. split.
  { pose proof (authenticate_cases W srv trace) as Hauth.
    cbv zeta in Hauth. fold s now in Hauth.
    destruct (truthy (envValue (apiToken srv))); [exact Hauth|].
    assert (Hvalid :
      (truthy (jwtToken srv) && truthy (expiryValue (tokenExpiry srv))
       && match tokenExpiry srv with Some e => Z.ltb now e | None => false end)%bool
      = (truthy (jwtToken srv)
         && match tokenExpiry srv with Some e => Z.ltb now e | None => false end)%bool).
    { destruct (truthy (jwtToken srv)); [|reflexivity]. simpl.
      destruct (tokenExpiry srv) as [e|]; [|reflexivity]. simpl.
      destruct (Z.ltb_spec now e); [|now rewrite andb_false_r].
      destruct (Z.eqb_spec e 0); [lia | reflexivity]. }
    rewrite Hvalid in Hauth.
    assert (Hiff :
      (truthy (jwtToken srv)
       && match tokenExpiry srv with Some e => Z.ltb now e | None => false end)%bool
      = true <->
      truthy (jwtToken srv) = true /\
      exists e, tokenExpiry srv = Some e /\ (now < e)%Z).
    { rewrite andb_true_iff. split.
      - intros [Hj He]. split; [exact Hj|].
        destruct (tokenExpiry srv) as [e|]; [|discriminate].
        exists e. split; [reflexivity | now apply Z.ltb_lt].
      - intros [Hj (e & He & Hlt)]. split; [exact Hj|].
        rewrite He. now apply Z.ltb_lt. }
    destruct (truthy (jwtToken srv)
              && match tokenExpiry srv with Some e => Z.ltb now e | None => false end)%bool.
    - split; [|exact Hauth].
      split; [intros _; now apply Hiff|]. intros _.
      apply issued_nil. now rewrite Hauth.
    - assert (Hissued : issued (authenticate W) s = [loginRequest srv]).
      { apply issued_app. rewrite Hauth.
        now destruct (loginToken (respond W trace (loginRequest srv))). }
      split; [|split; [exact Hissued|]].
      + split.
        * rewrite Hissued. discriminate.
        * intros H. apply Hiff in H. discriminate.
      + destruct (loginToken (respond W trace (loginRequest srv))); exact Hauth. }
  { pose proof (v1_0_0_authenticate_cases W srv trace) as Hold.
    cbv zeta in Hold. fold s in Hold.
    destruct (truthy (envValue (apiToken srv))); [exact Hold|].
    destruct (truthy (jwtToken srv)).
    - split; [|intros _; exact Hold].
      split; [reflexivity|]. intros _. apply issued_nil. now rewrite Hold.
    - split; [|discriminate].
      assert (Hissued : issued (V1_0_0.authenticate W) s = [loginRequest srv]).
      { apply issued_app. rewrite Hold.
        now destruct (loginToken (respond W trace (loginRequest srv))). }
      rewrite Hissued. split; discriminate. }
Qed.

(* ================================================================== *)
(** ** The trace of a handler *)

Lemma handlerStep_lift_bind {A} (c : outcome A) (k : A -> M tool_result)
      (s : state) :
  (forall a, handlerStep (k a) s) ->
  handlerStep (x <- lift c ;; k x) s.
Proof.
  intros H. unfold handlerStep, bind, lift in *. destruct c as [a|e].
  - apply H.
  - simpl. split; [reflexivity|]. left. split; [reflexivity | now exists e].
Qed.

Lemma handlerStep_getSelf_bind (k : server -> M tool_result) (s : state) :
  handlerStep (k (self s)) s ->
  handlerStep (srv <- getSelf ;; k srv) s.
Proof. intros H. exact H. Qed.

Lemma handlerStep_dateNow_bind (W : world) (k : Z -> M tool_result) (s : state) :
  handlerStep (k (Date_now W (sent s))) s ->
  handlerStep (now <- dateNow W ;; k now) s.
Proof. intros H. exact H. Qed.

Lemma handlerStep_axios (W : world) (m : http_method) (u : jsstring)
      (d p h : value) (tail : value -> outcome tool_result) (s : state) :
  jsstring_eqb u (loginUrl (strapiUrl (self s))) = false ->
  (forall body res, tail body = Return res -> isError res = false) ->
  handlerStep (response_data <- axios W m u d p h ;; lift (tail response_data)) s.
Proof.
  intros Hu Htail. unfold handlerStep, bind, axios, lift.
  destruct (respond W (sent s) _) as [body|e]; simpl.
  - split; [reflexivity|]. right. eexists. split; [reflexivity|].
    split; [exact Hu|]. intros res Hres. now apply Htail in Hres.
  - split; [reflexivity|]. right. eexists. split; [reflexivity|].
    split; [exact Hu|]. discriminate.
Qed.

(** No content endpoint is the login endpoint. *)
Lemma jsstring_eqb_eq (a b : jsstring) : jsstring_eqb a b = true <-> a = b.
Proof.
  revert b. induction a as [|c a IH]; intros [|d b]; simpl;
    try (split; [discriminate | discriminate]); [tauto|].
  rewrite andb_true_iff, N.eqb_eq, IH. split.
  - now intros [-> ->].
  - intros E. now injection E.
Qed.

Lemma jsstring_eqb_refl (a : jsstring) : jsstring_eqb a a = true.
Proof. now apply jsstring_eqb_eq. Qed.

Lemma collection_not_login (base : jsstring) (uid : string) (rest : jsstring) :
  jsstring_eqb (collectionUrl base uid ++ rest) (loginUrl base) = false.
Proof.
  destruct (jsstring_eqb _ _) eqn:E; [|reflexivity].
  apply jsstring_eqb_eq in E.
  unfold collectionUrl, loginUrl in E. rewrite <- !app_assoc in E.
  apply app_inv_head in E. discriminate E.
Qed.

Lemma collection_not_login_0 (base : jsstring) (uid : string) :
  jsstring_eqb (collectionUrl base uid) (loginUrl base) = false.
Proof.
  rewrite <- (app_nil_r (collectionUrl base uid)). apply collection_not_login.
Qed.

Lemma reply_not_error (R : runtime) (body : value) (res : tool_result) :
  Return (reply R body) = Return res -> isError res = false.
Proof. intros E. injection E as <-. reflexivity. Qed.

Lemma listResult_not_error (R : runtime) (f : value -> outcome value)
      (summary body : value) (res : tool_result) :
  listResult R f summary body = Return res -> isError res = false.
Proof.
  unfold listResult.
  destruct (truthy summary); [|apply reply_not_error].
  destruct (js_get body "results") as [results|e]; [|discriminate]. cbn [obind].
  destruct (truthy results); [|apply reply_not_error].
  destruct (js_map _ f results) as [items|e]; [|discriminate]. cbn [obind].
  destruct (js_get body "pagination") as [pg|e]; [|discriminate]. cbn [obind].
  apply reply_not_error.
Qed.

Ltac handler_step :=
  first
    [ apply handlerStep_lift_bind; intros ?
    | apply handlerStep_getSelf_bind
    | apply handlerStep_dateNow_bind
    | apply handlerStep_axios;
      [ first [ apply collection_not_login_0
              | apply collection_not_login
              | unfold documentUrl; rewrite <- ?app_assoc;
                apply collection_not_login ]
      | first [ intros ? ?; apply reply_not_error
              | intros ? ?; apply listResult_not_error ] ] ].

Section HandlerTraces.

Variable R : runtime.
Variable W : world.

Lemma postTo_step uid d h s : handlerStep (postTo R W uid d h) s.
Proof. unfold postTo. repeat handler_step. Qed.

Lemma getDocument_step uid h args s : handlerStep (getDocument R W uid h args) s.
Proof.
  unfold getDocument, getFrom. repeat handler_step.
Qed.

Lemma putDocument_step uid d h args s :
  handlerStep (putDocument R W uid d h args) s.
Proof. unfold putDocument. repeat handler_step. Qed.

Lemma publishDocument_step uid h args s :
  handlerStep (publishDocument R W uid h args) s.
Proof. unfold publishDocument. repeat handler_step. Qed.

Lemma listAll_step uid h s : handlerStep (listAll R W uid h) s.
Proof.
  unfold listAll, getFrom. repeat handler_step.
Qed.

Lemma listCollection_step uid f h page pageSize summary s :
  handlerStep (listCollection R W uid f h page pageSize summary) s.
Proof. unfold listCollection. repeat handler_step. Qed.

(** Every branch of the [switch] with a known tool is such a step. *)
Lemma dispatch_step (headers : value) (req : call_request) (s : state) :
  handlerStep (dispatch R W headers req) s.
Proof.
  unfold dispatch. destruct (find_tool (params_name req)) as [[]|].
  all: try (unfold createBlogPost, listBlogPosts, getBlogPost, updateBlogPost,
              publishBlogPost, listAuthors, listCategories, listTags,
              createTutorial, listTutorials, getTutorial, updateTutorial,
              publishTutorial, createEvent, listEvents, getEvent, updateEvent,
              publishEvent;
            repeat handler_step;
            first [ apply postTo_step | apply getDocument_step
                  | apply putDocument_step | apply publishDocument_step
                  | apply listAll_step | apply listCollection_step ]).
  unfold handlerStep, throw. simpl. split; [reflexivity|]. left.
  split; [reflexivity | eexists; reflexivity].
Qed.

End HandlerTraces.

(* ================================================================== *)
(** ** The call-tool handler *)

Section CallTool.

Variable R : runtime.
Variable W : world.

Lemma authenticate_trace (srv : server) (trace : list request) :
  let s := {| self := srv; sent := trace |} in
  strapiUrl (self (snd (authenticate W s))) = strapiUrl srv
  /\ exists auth,
      sent (snd (authenticate W s)) = trace ++ auth
      /\ (auth = [] \/ auth = [loginRequest srv]).
Proof.
  intros s. subst s. rewrite authenticate_cases.
  destruct (truthy (envValue (apiToken srv))).
  { split; [reflexivity|]. exists []. now rewrite app_nil_r; auto. }
  destruct (_ && _ && _)%bool.
  { split; [reflexivity|]. exists []. now rewrite app_nil_r; auto. }
  destruct (loginToken _); (split; [reflexivity|]);
    exists [loginRequest srv]; auto.
Qed.

(** The requests of a call: the login of [authenticate], if any, then the
    request of the handler, if any; a normal result comes with exactly one
    request of the handler. *)
Lemma callToolBody_trace (req : call_request) (srv : server)
      (trace : list request) :
  let s := {| self := srv; sent := trace |} in
  exists auth rest,
    sent (snd (callToolBody R W req s)) = trace ++ auth ++ rest
    /\ (auth = [] \/ auth = [loginRequest srv])
    /\ (rest = [] \/
        exists r, rest = [r] /\ isLoginRequest (strapiUrl srv) r = false)
    /\ match fst (callToolBody R W req s) with
       | Return res => isError res = false /\ exists r, rest = [r]
       | Throw _ => True
       end.
Proof.
  intros s. destruct (authenticate_trace srv trace) as (Hurl & auth & Hsent & Hauth).
  fold s in Hurl, Hsent. unfold callToolBody, bind.
  destruct (authenticate W s) as [[token|e] s1]; cbn [fst snd] in *.
  - destruct (dispatch_step R W (authHeaders R token) req s1)
      as [_ [[Hs (e & He)] | (r & Hs & Hr & Hres)]].
    + exists auth, []. rewrite Hs, Hsent, app_nil_r.
      repeat split; auto. now rewrite He.
    + exists auth, [r]. rewrite Hs, Hsent, app_assoc.
      repeat split; auto.
      * right. exists r. split; [reflexivity|]. now rewrite <- Hurl.
      * destruct (fst (dispatch R W (authHeaders R token) req s1)) as [res|];
          [|exact I].
        split; [now apply Hres | now exists r].
  - exists auth, []. rewrite Hsent, app_nil_r. repeat split; auto.
Qed.

Lemma callTool_body (req : call_request) (s : state) :
  callTool R W req s =
  match callToolBody R W req s with
  | (Return res, s') => (Return res, s')
  | (Throw e, s') => (Return (errorResult e), s')
  end.
Proof. reflexivity. Qed.

Lemma loginRequest_is_login (srv : server) :
  isLoginRequest (strapiUrl srv) (loginRequest srv) = true.
Proof. apply jsstring_eqb_refl. Qed.

End CallTool.

(** C4. Every failure inside the call-tool handler, whether raised by
    [authenticate], by the dispatch (an unknown tool name) or by the backend
    request, is caught: the handler always returns a result, the result of
    a failure carries [isError: true] and the text ["Error: " + message], and
    an unknown tool name always ends in such an error result. *)
Theorem callTool_catches_every_failure :
  forall (R : runtime) (W : world) (req : call_request) (s : state),
  exists res s',
    callTool R W req s = (Return res, s')
    /\ match callToolBody R W req s with
       | (Return res0, s0) => res = res0 /\ s' = s0 /\ isError res = false
       | (Throw e, s0) =>
           s' = s0 /\ isError res = true
           /\ text res = VStr (str "Error: " ++ message e)
       end
    /\ match find_tool (params_name req) with
       | Some _ => True
       | None =>
           isError res = true
           /\ match fst (authenticate W s) with
              | Return _ =>
                  text res =
                  VStr (str "Error: " ++ str "Unknown tool: " ++ params_name req)
              | Throw e => text res = VStr (str "Error: " ++ message e)
              end
       end.
Proof.
  intros R W req [srv trace]. rewrite callTool_body.
  pose proof (callToolBody_trace R W req srv trace) as Htrace. cbv zeta in Htrace.
  destruct Htrace as (auth & rest & _ & _ & _ & Hres).
  assert (Hunknown :
    find_tool (params_name req) = None ->
    callToolBody R W req {| self := srv; sent := trace |} =
    match authenticate W {| self := srv; sent := trace |} with
    | (Return _, s1) =>
        (Throw (Error (str "Unknown tool: " ++ params_name req)), s1)
    | (Throw e, s1) => (Throw e, s1)
    end).
  { intros Hnone. unfold callToolBody, bind, dispatch. rewrite Hnone.
    now destruct (authenticate W _) as [[token|e] s1]. }
  destruct (callToolBody R W req {| self := srv; sent := trace |})
    as [[res|e] s1] eqn:Hbody; cbn [fst] in Hres.
  - exists res, s1. split; [reflexivity|]. split; [tauto|].
    destruct (find_tool (params_name req)); [exact I|].
    specialize (Hunknown eq_refl).
    destruct (authenticate W _) as [[token|e] s2]; discriminate.
  - exists (errorResult e), s1. split; [reflexivity|].
    split; [repeat split|].
    destruct (find_tool (params_name req)); [exact I|].
    specialize (Hunknown eq_refl). split; [reflexivity|].
    destruct (authenticate W _) as [[token|e'] s2]; cbn [fst];
      injection Hunknown as He _; rewrite He; reflexivity.
Qed.

(** C8, as amended. A tool call issues at most one login request and at
    most one content request, and nothing else; it issues exactly one content
    request whenever it returns a normal result.  No request is sent twice. *)
Theorem callTool_at_most_one_backend_call :
  forall (R : runtime) (W : world) (req : call_request)
         (srv : server) (trace : list request),
    let s := {| self := srv; sent := trace |} in
    let new := issued (callTool R W req) s in
    let base := strapiUrl srv in
    sent (snd (callTool R W req s)) = trace ++ new
    /\ (loginCalls base new <= 1)%nat
    /\ (backendCalls base new <= 1)%nat
    /\ List.length new = (loginCalls base new + backendCalls base new)%nat
    /\ match fst (callTool R W req s) with
       | Return res =>
           if isError res then True else backendCalls base new = 1%nat
       | Throw _ => False
       end.
Proof.
  intros R W req srv trace s new base. subst base.
  destruct (callToolBody_trace R W req srv trace)
    as (auth & rest & Hsent & Hauth & Hrest & Hres).
  fold s in Hsent, Hres.
  assert (Hsnd : sent (snd (callTool R W req s)) = trace ++ auth ++ rest).
  { rewrite callTool_body.
    now destruct (callToolBody R W req s) as [[res|e] s1]. }
  assert (Hnew : new = auth ++ rest).
  { unfold new. now apply issued_app. }
  rewrite Hnew. split; [exact Hsnd|].
  assert (Hcount :
    loginCalls (strapiUrl srv) (auth ++ rest) = List.length auth
    /\ backendCalls (strapiUrl srv) (auth ++ rest) = List.length rest).
  { unfold loginCalls, backendCalls. rewrite !filter_app, !length_app.
    pose proof (loginRequest_is_login srv) as Hl.
    destruct Hauth as [-> | ->], Hrest as [-> | (r & -> & Hr)]; simpl;
      rewrite ?Hl, ?Hr; simpl; auto. }
  destruct Hcount as [Hlc Hbc]. rewrite Hlc, Hbc, length_app.
  split; [destruct Hauth as [-> | ->]; simpl; lia|].
  split; [destruct Hrest as [-> | (r & -> & _)]; simpl; lia|].
  split; [reflexivity|].
  rewrite callTool_body.
  destruct (callToolBody R W req s) as [[res|e] s1]; cbn [fst] in *.
  - destruct Hres as [-> (r & ->)]. reflexivity.
  - exact I.
Qed.

(** C8, as the claim states it, fails: a call with an unknown tool name and
    a call whose login is refused reach no content endpoint at all. *)
Lemma tool_call_without_backend_request :
  backendCalls DEFAULT_URL
    (issued
       (callTool exampleRuntime (constantWorld 0 (Return (VObj [])))
          {| params_name := str "strapi_delete_blog_post";
             params_arguments := VObj [] |})
       (freshState (exampleServer (Some (str "token"))))) = 0%nat
  /\ backendCalls DEFAULT_URL
       (issued
          (callTool exampleRuntime (loginRefused 0 (Return (VObj [])))
             {| params_name := str "strapi_list_authors";
                params_arguments := VObj [] |})
          (freshState (exampleServer None))) = 0%nat.
Proof. split; vm_compute; reflexivity. Qed.

(* ================================================================== *)
(** ** The list methods: the request *)

Lemma find_tool_name (t : tool) : find_tool (str (tool_name t)) = Some t.
Proof. destruct t; vm_compute; reflexivity. Qed.

Lemma js_get_total (a : value) (k k' : string) (v : value) :
  js_get a k = Return v -> exists v', js_get a k' = Return v'.
Proof. destruct a; simpl; try discriminate; intros _; eexists; reflexivity. Qed.

Lemma getDefault_total (a : value) (k k' : string) (d d' v : value) :
  getDefault a k d = Return v -> exists v', getDefault a k' d' = Return v'.
Proof.
  unfold getDefault. destruct (js_get a k) as [w|e] eqn:E; [|discriminate].
  intros _. destruct (js_get_total a k k' E) as (w' & ->).
  eexists; reflexivity.
Qed.

Section ListRequests.

Variable R : runtime.
Variable W : world.

Lemma listCollection_sent uid f h page pageSize summary s :
  sent (snd (listCollection R W uid f h page pageSize summary s))
  = sent s ++ [listRequest (strapiUrl (self s)) uid h page pageSize].
Proof.
  unfold listCollection, bind, getSelf, axios, lift. simpl.
  now destruct (respond W (sent s) _).
Qed.

Lemma list_dispatch_sent (t : tool) (uid : string) (h args : value) (s : state) :
  listedCollection t = Some uid ->
  sent (snd (dispatch R W h
               {| params_name := str (tool_name t); params_arguments := args |} s))
  = sent s ++ listRequests (strapiUrl (self s)) uid h args.
Proof.
  intros Ht. unfold dispatch. cbn [params_name params_arguments].
  rewrite find_tool_name. unfold listRequests.
  destruct t; try discriminate; injection Ht as <-;
    unfold listBlogPosts, listTutorials, listEvents, bind, lift;
    (destruct (getDefault (defaultArgs args) "page" (VNum 1)) as [page|e] eqn:Hp;
     [|now rewrite app_nil_r]);
    (destruct (getDefault_total (defaultArgs args) "page" "pageSize"
                 (VNum 1) (VNum 25) Hp) as (pageSize & ->));
    try (destruct (getDefault_total (defaultArgs args) "page" "status"
                     (VNum 1) (VStr (str "all")) Hp) as (status & ->));
    (destruct (getDefault_total (defaultArgs args) "page" "summary"
                 (VNum 1) (VBool true) Hp) as (summary & ->));
    apply listCollection_sent.
Qed.

End ListRequests.

(** C5. The request of a list call carries the query parameters [page] and
    [pageSize] and nothing else of the arguments: two list calls whose
    arguments agree on [page] and [pageSize] issue the same requests, and
    the content request is the [GET] of the collection with
    [params: { page, pageSize }] and no body. *)
Theorem list_request_has_page_and_pageSize_only :
  forall (R : runtime) (W : world) (t : tool) (uid : string)
         (args1 args2 : value) (srv : server) (trace : list request),
    listedCollection t = Some uid ->
    js_get (defaultArgs args1) "page" = js_get (defaultArgs args2) "page" ->
    js_get (defaultArgs args1) "pageSize" = js_get (defaultArgs args2) "pageSize" ->
    let s := {| self := srv; sent := trace |} in
    let call args :=
      callTool R W {| params_name := str (tool_name t); params_arguments := args |} in
    issued (call args1) s = issued (call args2) s
    /\ forall r,
        In r (issued (call args1) s) ->
        isLoginRequest (strapiUrl srv) r = false ->
        exists h page pageSize,
          getDefault (defaultArgs args1) "page" (VNum 1) = Return page
          /\ getDefault (defaultArgs args1) "pageSize" (VNum 25) = Return pageSize
          /\ r = listRequest (strapiUrl srv) uid h page pageSize.
Proof.
  intros R W t uid args1 args2 srv trace Ht Hpage Hsize s call.
  assert (Hsent : forall args,
    sent (snd (call args s)) =
    match authenticate W s with
    | (Return token, s1) =>
        sent s1 ++ listRequests (strapiUrl (self s1)) uid (authHeaders R token) args
    | (Throw _, s1) => sent s1
    end).
  { intros args. unfold call. rewrite callTool_body.
    unfold callToolBody, bind.
    destruct (authenticate W s) as [[token|e] s1]; [|reflexivity].
    rewrite <- (list_dispatch_sent R W t (authHeaders R token) args s1 Ht).
    now destruct (dispatch R W _ _ s1) as [[res|e] s2]. }
  assert (Hsame : forall h base,
    listRequests base uid h args1 = listRequests base uid h args2).
  { intros h base. unfold listRequests, getDefault. now rewrite Hpage, Hsize. }
  destruct (authenticate_trace W srv trace) as (Hurl & auth & Hauth & Hlogin).
  fold s in Hurl, Hauth.
  assert (Hissued : forall args,
    issued (call args) s =
    match authenticate W s with
    | (Return token, s1) =>
        auth ++ listRequests (strapiUrl srv) uid (authHeaders R token) args
    | (Throw _, s1) => auth
    end).
  { intros args. apply issued_app. rewrite Hsent.
    destruct (authenticate W s) as [[token|e] s1]; cbn [snd] in *.
    - now rewrite Hauth, Hurl, app_assoc.
    - exact Hauth. }
  split.
  - rewrite !Hissued.
    destruct (authenticate W s) as [[token|e] s1]; [|reflexivity].
    now rewrite Hsame.
  - intros r Hin Hr. rewrite Hissued in Hin.
    assert (Hnot : ~ In r auth).
    { intros Hin'. destruct Hlogin as [-> | ->]; [contradiction|].
      destruct Hin' as [<- | []].
      rewrite loginRequest_is_login in Hr. discriminate. }
    destruct (authenticate W s) as [[token|e] s1]; [|contradiction].
    apply in_app_or in Hin. destruct Hin as [Hin | Hin]; [contradiction|].
    unfold listRequests in Hin.
    destruct (getDefault (defaultArgs args1) "page" (VNum 1)) as [page|];
      [|contradiction].
    destruct (getDefault (defaultArgs args1) "pageSize" (VNum 25)) as [pageSize|];
      [|contradiction].
    destruct Hin as [<- | []]. now exists (authHeaders R token), page, pageSize.
Qed.

(* ================================================================== *)
(** ** Start-up *)

(** A variable is present exactly when the constructor finds it truthy. *)
Lemma isPresent_truthy (v : option jsstring) :
  isPresent v <-> truthy (envValue v) = true.
Proof.
  unfold isPresent. destruct v as [[|c s]|]; simpl; split.
  - intros (s & E & Hs). injection E as <-. contradiction.
  - discriminate.
  - reflexivity.
  - intros _. eexists. split; [reflexivity | discriminate].
  - intros (s & E & _). discriminate.
  - discriminate.
Qed.

(** C7. Without [STRAPI_API_TOKEN], and unless both [STRAPI_ADMIN_EMAIL] and
    [STRAPI_ADMIN_PASSWORD] are set, the process exits with status 1 and
    serves nothing; with an API token or both admin credentials present the
    server is constructed, and its URL is [http://localhost:1337] when
    [STRAPI_URL] is unset.  A variable is set, or present, when it holds a
    string that is not empty, and unset otherwise, which is what the
    constructor tests and what its log lines call present and not set: the
    two cases cover every environment. *)
Theorem constructor_validates_credentials :
  forall env : environment,
    (~ isPresent (STRAPI_API_TOKEN env) ->
     ~ (isPresent (STRAPI_ADMIN_EMAIL env)
        /\ isPresent (STRAPI_ADMIN_PASSWORD env)) ->
     constructor env = Exit 1
     /\ forall R W reqs, main R W env reqs = Exited 1)
    /\
    (isPresent (STRAPI_API_TOKEN env)
     \/ (isPresent (STRAPI_ADMIN_EMAIL env)
         /\ isPresent (STRAPI_ADMIN_PASSWORD env)) ->
     exists srv,
       constructor env = Constructed srv
       /\ (~ isPresent (STRAPI_URL env) -> strapiUrl srv = DEFAULT_URL)
       /\ (forall u, STRAPI_URL env = Some u -> u <> [] -> strapiUrl srv = u)
       /\ apiToken srv = STRAPI_API_TOKEN env
       /\ adminEmail srv = STRAPI_ADMIN_EMAIL env
       /\ adminPassword srv = STRAPI_ADMIN_PASSWORD env
       /\ jwtToken srv = VNull
       /\ tokenExpiry srv = None
       /\ forall R W reqs,
           main R W env reqs =
           Served (fst (serve R W reqs (freshState srv)))
                  (snd (serve R W reqs (freshState srv)))).
Proof.
  intros [u tok email pw]. rewrite !isPresent_truthy.
  cbn [STRAPI_URL STRAPI_API_TOKEN STRAPI_ADMIN_EMAIL STRAPI_ADMIN_PASSWORD].
  split.
  - intros Htok Hnot.
    assert (Hexit :
      constructor {| STRAPI_URL := u; STRAPI_API_TOKEN := tok;
                     STRAPI_ADMIN_EMAIL := email;
                     STRAPI_ADMIN_PASSWORD := pw |} = Exit 1).
    { unfold constructor.
      cbn [STRAPI_URL STRAPI_API_TOKEN STRAPI_ADMIN_EMAIL STRAPI_ADMIN_PASSWORD
           apiToken adminEmail adminPassword].
      destruct (truthy (envValue tok)); [now contradiction Htok|].
      destruct (truthy (envValue email)), (truthy (envValue pw));
        try reflexivity.
      exfalso. apply Hnot. now split. }
    split; [exact Hexit|]. intros R W reqs. unfold main. now rewrite Hexit.
  - intros Hpresent.
    set (srv := {| strapiUrl :=
                     match u with
                     | Some u' => if truthy (VStr u') then u' else DEFAULT_URL
                     | None => DEFAULT_URL
                     end;
                   apiToken := tok; adminEmail := email; adminPassword := pw;
                   jwtToken := VNull; tokenExpiry := None |}).
    assert (Hc :
      constructor {| STRAPI_URL := u; STRAPI_API_TOKEN := tok;
                     STRAPI_ADMIN_EMAIL := email;
                     STRAPI_ADMIN_PASSWORD := pw |} = Constructed srv).
    { unfold constructor.
      cbn [STRAPI_URL STRAPI_API_TOKEN STRAPI_ADMIN_EMAIL STRAPI_ADMIN_PASSWORD
           apiToken adminEmail adminPassword].
      destruct Hpresent as [-> | [-> ->]]; [reflexivity|].
      cbn [negb orb]. now rewrite andb_false_r. }
    assert (Hmain : forall R W reqs,
      main R W {| STRAPI_URL := u; STRAPI_API_TOKEN := tok;
                  STRAPI_ADMIN_EMAIL := email; STRAPI_ADMIN_PASSWORD := pw |} reqs
      = Served (fst (serve R W reqs (freshState srv)))
               (snd (serve R W reqs (freshState srv)))).
    { intros R W reqs. unfold main. rewrite Hc. unfold freshState.
      now destruct (serve R W reqs _). }
    exists srv. split; [exact Hc|].
    clear Hc. revert Hmain. subst srv. intros Hmain.
    cbn [strapiUrl apiToken adminEmail adminPassword jwtToken tokenExpiry].
    repeat split.
    + intros Hu. rewrite isPresent_truthy in Hu.
      destruct (truthy (envValue u)) eqn:E; [now contradiction Hu|].
      destruct u as [u'|]; [|reflexivity].
      cbn [envValue] in E. now rewrite E.
    + intros u' -> Hu'. destruct u'; [contradiction | reflexivity].
    + exact Hmain.
Qed.


(* ================================================================== *)
(** ** The update methods: the payload *)


Lemma js_get_arg (args : value) (k : string) (v : value) :
  js_get args k = Return v -> arg args k = v.
Proof. unfold arg. now intros ->. Qed.

Lemma js_get_arg_total (args : value) (k k' : string) (v : value) :
  js_get args k = Return v -> js_get args k' = Return (arg args k').
Proof.
  intros H. destruct (js_get_total args k k' H) as (v' & Hv').
  now rewrite (js_get_arg _ _ Hv').
Qed.

Section UpdatePayload.

Variable R : runtime.






End UpdatePayload.


Lemma splitFrom_nonempty (s : jsstring) :
  forall insep cur, (1 <= List.length (splitFrom insep cur s))%nat.
Proof.
  induction s as [|c s IH]; intros insep cur; simpl; [lia|].
  destruct (isWhiteSpace c); [destruct insep|]; simpl; try apply IH; lia.
Qed.

Lemma readingTime_positive (content : value) (n : Z) :
  readingTime content = Return n -> (1 <= n)%Z.
Proof.
  unfold readingTime, js_split.
  destruct content as [| | b | m | s | l | f]; try discriminate.
  cbn [obind]. intros E. injection E as <-.
  pose proof (splitFrom_nonempty s false []) as Hlen.
  unfold splitWhiteSpace, ceilDiv. apply Z.div_le_lower_bound; lia.
Qed.



(* ================================================================== *)
(** ** The list methods: the result *)

Lemma js_get_defined (r : value) (k : string) :
  defined r = true -> js_get r k = Return (arg r k).
Proof. unfold arg. destruct r; simpl; try discriminate; reflexivity. Qed.








Lemma list_dispatch_result (R : runtime) (W : world) (t : tool) (uid : string)
      (h args : value) (s : state) (v : value) :
  listedCollection t = Some uid ->
  js_get (defaultArgs args) "page" = Return v ->
  let a := defaultArgs args in
  fst (dispatch R W h
         {| params_name := str (tool_name t); params_arguments := args |} s)
  = let* body :=
      respond W (sent s)
        (listRequest (strapiUrl (self s)) uid h
           (withDefault (arg a "page") (VNum 1))
           (withDefault (arg a "pageSize") (VNum 25))) in
    listResult R (summarizer R t) (withDefault (arg a "summary") (VBool true)) body.
Proof.
  intros Ht Hv a. subst a.
  assert (Hget : forall k d,
    getDefault (defaultArgs args) k d
    = Return (withDefault (arg (defaultArgs args) k) d)).
  { intros k d. unfold getDefault.
    now rewrite (js_get_arg_total _ _ k Hv). }
  unfold dispatch. cbn [params_name params_arguments]. rewrite find_tool_name.
  destruct t; try discriminate; injection Ht as <-;
    unfold listBlogPosts, listTutorials, listEvents, bind, lift;
    rewrite !Hget; cbn [summarizer];
    unfold listCollection, bind, getSelf, axios, lift; cbn [self sent fst snd];
    fold (listRequest (strapiUrl (self s)));
    now destruct (respond W (sent s) _).
Qed.



(* ================================================================== *)
(** ** The theorems at concrete calls *)

Lemma authenticate_cache_policy_witness :
  (0 <= 1000)%Z
  /\ authenticate (constantWorld 1000 (Return VNull))
       (freshState (withToken (exampleServer None) (VStr (str "jwt")) 2000))
     = (Return (VStr (str "jwt")),
        freshState (withToken (exampleServer None) (VStr (str "jwt")) 2000))
  /\ issued
       (authenticate
          (constantWorld 3000
             (Return (VObj [("data", VObj [("token", VStr (str "fresh"))])]))))
       (freshState (withToken (exampleServer None) (VStr (str "jwt")) 2000))
     = [loginRequest (exampleServer None)]
  /\ V1_0_0.authenticate
       (constantWorld 3000
          (Return (VObj [("data", VObj [("token", VStr (str "fresh"))])])))
       (freshState (withToken (exampleServer None) (VStr (str "jwt")) 2000))
     = (Return (VStr (str "jwt")),
        freshState (withToken (exampleServer None) (VStr (str "jwt")) 2000)).
Proof.
  split; [lia|]. split; [|split].
  - assert (H : (0 <= 1000)%Z) by lia.
    exact (proj2 (proj1 (authenticate_cache_policy
                           (constantWorld 1000 (Return VNull))
                           (withToken (exampleServer None) (VStr (str "jwt")) 2000)
                           [] H))).
  - assert (H : (0 <= 3000)%Z) by lia.
    exact (proj1 (proj2 (proj1 (authenticate_cache_policy
                           (constantWorld 3000
                              (Return (VObj [("data",
                                              VObj [("token", VStr (str "fresh"))])])))
                           (withToken (exampleServer None) (VStr (str "jwt")) 2000)
                           [] H)))).
  - assert (H : (0 <= 3000)%Z) by lia.
    exact (proj2 (proj2 (authenticate_cache_policy
                           (constantWorld 3000
                              (Return (VObj [("data",
                                              VObj [("token", VStr (str "fresh"))])])))
                           (withToken (exampleServer None) (VStr (str "jwt")) 2000)
                           [] H)) eq_refl).
Defined.

(** C3, as the claim states it, fails for the [authenticate] of v1.0.0: a
    token fetched by a login at time 0 is returned, without a login request,
    at a time long after the fixed lifetime has passed. *)
Lemma v1_0_0_authenticate_never_refreshes :
  let W := clockWorld 0 10000000000
             (Return (VObj [("data", VObj [("token", VStr (str "fresh"))])])) in
  let s0 := freshState (exampleServer None) in
  let s1 := snd (V1_0_0.authenticate W s0) in
  Date_now W (sent s0) = 0%Z
  /\ issued (V1_0_0.authenticate W) s0 = [loginRequest (exampleServer None)]
  /\ jwtToken (self s1) = VStr (str "fresh")
  /\ Date_now W (sent s1) = 10000000000%Z
  /\ (0 + TOKEN_LIFETIME < 10000000000)%Z
  /\ V1_0_0.authenticate W s1 = (Return (VStr (str "fresh")), s1)
  /\ issued (V1_0_0.authenticate W) s1 = []
  /\ issued (authenticate W) {| self := self (snd (authenticate W s0));
                                sent := sent s1 |}
     = [loginRequest (exampleServer None)].
Proof.
  cbv zeta. repeat split; vm_compute; reflexivity.
Qed.

Lemma list_request_has_page_and_pageSize_only_witness :
  issued
    (callTool exampleRuntime (constantWorld 0 (Return (VObj [])))
       {| params_name := str "strapi_list_blog_posts";
          params_arguments :=
            VObj [("page", VNum 2); ("status", VStr (str "draft"));
                  ("summary", VBool false)] |})
    (freshState (exampleServer (Some (str "token"))))
  = issued
      (callTool exampleRuntime (constantWorld 0 (Return (VObj [])))
         {| params_name := str "strapi_list_blog_posts";
            params_arguments :=
              VObj [("page", VNum 2); ("search", VStr (str "rocq"))] |})
      (freshState (exampleServer (Some (str "token")))).
Proof.
  apply (list_request_has_page_and_pageSize_only
           exampleRuntime (constantWorld 0 (Return (VObj [])))
           list_blog_posts
           (VObj [("page", VNum 2); ("status", VStr (str "draft"));
                  ("summary", VBool false)])
           (VObj [("page", VNum 2); ("search", VStr (str "rocq"))])
           (exampleServer (Some (str "token"))) []
           (uid := BLOG_POST));
    reflexivity.
Defined.



Lemma constructor_validates_credentials_witness :
  constructor {| STRAPI_URL := None; STRAPI_API_TOKEN := Some [];
                 STRAPI_ADMIN_EMAIL := Some (str "admin@example.com");
                 STRAPI_ADMIN_PASSWORD := Some [] |} = Exit 1
  /\ exists srv,
      constructor {| STRAPI_URL := Some [];
                     STRAPI_API_TOKEN := Some (str "token");
                     STRAPI_ADMIN_EMAIL := None;
                     STRAPI_ADMIN_PASSWORD := None |} = Constructed srv
      /\ strapiUrl srv = DEFAULT_URL.
Proof.
  split.
  - apply (proj1 (constructor_validates_credentials _)).
    + intros (s & E & Hs). injection E as <-. now apply Hs.
    + intros [_ (s & E & Hs)]. injection E as <-. now apply Hs.
  - destruct (proj2 (constructor_validates_credentials
                       {| STRAPI_URL := Some [];
                          STRAPI_API_TOKEN := Some (str "token");
                          STRAPI_ADMIN_EMAIL := None;
                          STRAPI_ADMIN_PASSWORD := None |}))
      as (srv & Hc & Hurl & _).
    + left. exists (str "token"). split; [reflexivity | discriminate].
    + exists srv. split; [exact Hc|]. apply Hurl.
      intros (s & E & Hs). injection E as <-. now apply Hs.
Defined.



(* ================================================================== *)
(** ** generateSlug: further properties *)

Lemma slugChar_not_whiteSpace (c : codeunit) :
  isSlugChar c = true -> isWhiteSpace c = false.
Proof.
  unfold isSlugChar, is_a_z, is_0_9, isHyphen, HYPHEN. intros H.
  repeat rewrite orb_true_iff in H. repeat rewrite andb_true_iff in H.
  repeat rewrite N.leb_le in H. rewrite N.eqb_eq in H.
  destruct (isWhiteSpace c) eqn:E; [|reflexivity]. exfalso.
  unfold isWhiteSpace in E.
  repeat rewrite orb_true_iff in E. repeat rewrite andb_true_iff in E.
  repeat rewrite N.leb_le in E. repeat rewrite N.eqb_eq in E. lia.
Qed.

Lemma slugChar_kept (c : codeunit) : isSlugChar c = true -> keptBySlug c = true.
Proof.
  unfold isSlugChar, keptBySlug.
  destruct (is_a_z c), (is_0_9 c), (isHyphen c), (isWhiteSpace c);
    simpl; congruence.
Qed.

Lemma filter_all (p : codeunit -> bool) (s : jsstring) :
  Forall (fun c => p c = true) s -> filter p s = s.
Proof.
  induction 1 as [|c s Hc _ IH]; simpl; [reflexivity|]. now rewrite Hc, IH.
Qed.

Lemma dropWhile_none (p : codeunit -> bool) (s : jsstring) :
  match s with c :: _ => p c = false | [] => True end -> dropWhile p s = s.
Proof. destruct s as [|c s]; simpl; [reflexivity|]. now intros ->. Qed.

Lemma dropWhileEnd_none (p : codeunit -> bool) (s : jsstring) :
  match rev s with c :: _ => p c = false | [] => True end ->
  dropWhileEnd p s = s.
Proof.
  intros H. destruct (dropWhileEnd_split p s) as (post & Hs & Hpost).
  destruct post as [|d post]; [now rewrite app_nil_r in Hs|].
  exfalso. rewrite Hs, rev_app_distr in H.
  assert (Hlast : exists e rest, rev (d :: post) = e :: rest /\ p e = true).
  { destruct (rev (d :: post)) as [|e rest] eqn:Hr.
    - apply (f_equal (@rev _)) in Hr. rewrite rev_involutive in Hr. discriminate.
    - exists e, rest. split; [reflexivity|].
      apply Forall_rev in Hpost. rewrite Hr in Hpost. now inversion Hpost. }
  destruct Hlast as (e & rest & Hr & He). rewrite Hr in H. simpl in H. congruence.
Qed.

Lemma replaceRunsFrom_none (p : codeunit -> bool) (r s : jsstring) (b : bool) :
  Forall (fun c => p c = false) s -> replaceRunsFrom p r b s = s.
Proof.
  intros H. revert b. induction H as [|c s Hc _ IH]; intros b; simpl;
    [reflexivity|]. now rewrite Hc, IH.
Qed.

(** Collapsing the runs of hyphens changes nothing where no two hyphens
    are neighbours. *)
Lemma replaceRunsFrom_collapsed (s : jsstring) :
  forall b : bool,
    adjacent isHyphen s = false ->
    (b = true -> match s with c :: _ => isHyphen c = false | [] => True end) ->
    replaceRunsFrom isHyphen [HYPHEN] b s = s.
Proof.
  induction s as [|c s IH]; intros b Hadj Hb; [reflexivity|].
  assert (Hs : adjacent isHyphen s = false).
  { destruct s as [|d s]; [reflexivity|]. simpl in Hadj.
    now apply orb_false_iff in Hadj. }
  cbn [replaceRunsFrom]. destruct (isHyphen c) eqn:Hc.
  - destruct b; [specialize (Hb eq_refl); simpl in Hb; congruence|].
    rewrite IH; [now rewrite (isHyphen_eq c Hc) | exact Hs |].
    intros _. destruct s as [|d s]; [exact I|]. simpl in Hadj.
    rewrite Hc in Hadj. simpl in Hadj. now apply orb_false_iff in Hadj.
  - rewrite IH; [reflexivity | exact Hs | discriminate].
Qed.

(** The shape of a slug: slug characters only, no hyphen at either end, no
    two hyphens in a row. *)
Lemma slugify_normal (lower : jsstring -> jsstring) (s : jsstring) :
  let slug := slugify lower s in
  Forall (fun c => isSlugChar c = true) slug
  /\ adjacent isHyphen slug = false
  /\ match slug with c :: _ => isHyphen c = false | [] => True end
  /\ match rev slug with c :: _ => isHyphen c = false | [] => True end.
Proof.
  intros slug. split; [apply slugify_chars|].
  subst slug. unfold slugify, stripHyphens, replaceRuns.
  set (v := replaceRunsFrom isWhiteSpace [HYPHEN] false _).
  set (z := replaceRunsFrom isHyphen [HYPHEN] false v).
  destruct (adjacent_replaceRunsFrom v false) as [Hadj _]. fold z in Hadj.
  destruct (dropWhile_split isHyphen z) as (pre & Hz & _).
  pose proof (dropWhile_head isHyphen z) as Hhd.
  remember (dropWhile isHyphen z) as y eqn:Ey. clear Ey.
  destruct (dropWhileEnd_split isHyphen y) as (post & Hy & _).
  pose proof (dropWhileEnd_last isHyphen y) as Hlast.
  remember (dropWhileEnd isHyphen y) as slug eqn:Es. clear Es.
  rewrite Hz in Hadj. apply adjacent_app_r in Hadj.
  rewrite Hy in Hadj. apply adjacent_app_l in Hadj.
  split; [exact Hadj|]. split; [|exact Hlast].
  destruct slug as [|c slug]; [exact I|]. rewrite Hy in Hhd. exact Hhd.
Qed.

Lemma slugify_fixed (lower : jsstring -> jsstring) (x : jsstring) :
  lower x = x ->
  Forall (fun c => isSlugChar c = true) x ->
  adjacent isHyphen x = false ->
  match x with c :: _ => isHyphen c = false | [] => True end ->
  match rev x with c :: _ => isHyphen c = false | [] => True end ->
  slugify lower x = x.
Proof.
  intros Hlower Hchars Hadj Hhd Hlast.
  assert (Hws : Forall (fun c => isWhiteSpace c = false) x).
  { eapply Forall_impl; [|exact Hchars]. apply slugChar_not_whiteSpace. }
  assert (Hhd' : match x with c :: _ => isWhiteSpace c = false | [] => True end).
  { destruct x; [exact I | now inversion Hws]. }
  assert (Hlast' :
    match rev x with c :: _ => isWhiteSpace c = false | [] => True end).
  { apply Forall_rev in Hws. destruct (rev x); [exact I | now inversion Hws]. }
  unfold slugify, removeAll, trim, replaceRuns, stripHyphens.
  rewrite Hlower, filter_all
    by (eapply Forall_impl; [|exact Hchars]; apply slugChar_kept).
  rewrite (@dropWhile_none isWhiteSpace x Hhd').
  rewrite (@dropWhileEnd_none isWhiteSpace x Hlast').
  rewrite (@replaceRunsFrom_none isWhiteSpace [HYPHEN] x false Hws).
  rewrite (@replaceRunsFrom_collapsed x false Hadj) by discriminate.
  rewrite (@dropWhile_none isHyphen x Hhd).
  apply (@dropWhileEnd_none isHyphen x Hlast).
Qed.

(** X1. A slug is its own slug: applying [generateSlug] to a result of
    [generateSlug] gives it back, as soon as [toLowerCase] leaves the
    strings made of a-z, 0-9 and hyphens alone. *)
Theorem generateSlug_idempotent :
  forall (lower : jsstring -> jsstring) (title : value),
    (forall x, Forall (fun c => isSlugChar c = true) x -> lower x = x) ->
    generateSlug lower (VStr (generateSlug lower title))
    = generateSlug lower title.
Proof.
  intros lower title Hlower.
  destruct title as [| | b | n | s | l | f]; try reflexivity.
  destruct s as [|c s]; [reflexivity|].
  cbn [generateSlug truthy].
  destruct (slugify_normal lower (c :: s)) as (Hchars & Hadj & Hhd & Hlast).
  remember (slugify lower (c :: s)) as slug eqn:E. clear E.
  destruct slug as [|d slug]; [reflexivity|].
  apply slugify_fixed; auto.
Qed.

Lemma asciiToLowerCase_slug (x : jsstring) :
  Forall (fun c => isSlugChar c = true) x -> asciiToLowerCase x = x.
Proof.
  unfold asciiToLowerCase. induction 1 as [|c x Hc _ IH]; simpl; [reflexivity|].
  rewrite IH. f_equal.
  destruct (N.leb 65 c && N.leb c 90)%bool eqn:E; [|reflexivity]. exfalso.
  apply andb_true_iff in E. rewrite !N.leb_le in E.
  unfold isSlugChar, is_a_z, is_0_9, isHyphen, HYPHEN in Hc.
  repeat rewrite orb_true_iff in Hc. repeat rewrite andb_true_iff in Hc.
  repeat rewrite N.leb_le in Hc. rewrite N.eqb_eq in Hc. lia.
Qed.

Lemma generateSlug_idempotent_witness :
  generateSlug asciiToLowerCase
    (VStr (generateSlug asciiToLowerCase (VStr (str "  Hello,  World -- 2025! "))))
  = generateSlug asciiToLowerCase (VStr (str "  Hello,  World -- 2025! ")).
Proof.
  apply (generateSlug_idempotent asciiToLowerCase
           (VStr (str "  Hello,  World -- 2025! "))).
  exact asciiToLowerCase_slug.
Defined.

Lemma wordsFrom_nil_iff (sep : codeunit -> bool) (s : jsstring) :
  forall cur,
    wordsFrom sep cur s = [] <-> cur = [] /\ Forall (fun c => sep c = true) s.
Proof.
  induction s as [|c s IH]; intros cur; simpl.
  - destruct cur; simpl; split; try discriminate; auto.
    + intros [E _]. discriminate.
  - destruct (sep c) eqn:Hc.
    + destruct cur as [|d cur]; simpl.
      * rewrite IH. split.
        -- intros [_ H]. split; [reflexivity | now constructor].
        -- intros [_ H]. inversion H. now split.
      * split; [discriminate | intros [E _]; discriminate].
    + rewrite IH. split; [intros [E _]; discriminate|].
      intros [_ H]. inversion H. congruence.
Qed.

Lemma alnum_not_separator (c : codeunit) :
  (is_a_z c || is_0_9 c)%bool = true -> isSeparator c = false.
Proof.
  intros H. unfold isSeparator.
  rewrite slugChar_not_whiteSpace.
  - simpl. unfold is_a_z, is_0_9 in H. unfold isHyphen, HYPHEN.
    rewrite orb_true_iff, !andb_true_iff, !N.leb_le in H.
    destruct (N.eqb_spec c 45); [lia | reflexivity].
  - unfold isSlugChar. now rewrite H.
Qed.

(** X2. The slug of a non-empty title is empty exactly when the title in
    lower case has no letter a-z and no digit. *)
Theorem generateSlug_empty_iff_no_alphanumeric :
  forall (lower : jsstring -> jsstring) (title : jsstring),
    title <> [] ->
    (generateSlug lower (VStr title) = [] <->
     forall c, In c (lower title) -> (is_a_z c || is_0_9 c)%bool = false).
Proof.
  intros lower title Hne.
  destruct title as [|d title]; [contradiction|].
  cbn [generateSlug truthy]. rewrite slugify_spec. unfold slug_spec, words.
  pose proof (wordsFrom_nonempty isSeparator
                (removeAll keptBySlug (lower (d :: title))) []) as Hwords.
  split.
  - intros Hnil c Hin.
    destruct (wordsFrom isSeparator [] _) as [|w ws] eqn:Hw.
    + apply wordsFrom_nil_iff in Hw. destruct Hw as [_ Hall].
      destruct (is_a_z c || is_0_9 c)%bool eqn:Hc; [|reflexivity].
      rewrite Forall_forall in Hall.
      assert (Hkept : In c (removeAll keptBySlug (lower (d :: title)))).
      { apply filter_In. split; [exact Hin|]. unfold keptBySlug.
        apply orb_true_iff in Hc. destruct Hc as [-> | ->]; simpl;
          rewrite ?orb_true_r; reflexivity. }
      apply Hall in Hkept. rewrite (alnum_not_separator c Hc) in Hkept.
      discriminate.
    + inversion Hwords as [|? ? Hw0 _]; subst.
      now apply (joinHyphen_cons_nonempty ws) in Hw0.
  - intros Hall.
    assert (Hw : wordsFrom isSeparator []
                   (removeAll keptBySlug (lower (d :: title))) = []).
    { apply wordsFrom_nil_iff. split; [reflexivity|].
      apply Forall_forall. intros c Hc. apply filter_In in Hc.
      destruct Hc as [Hin Hkept]. specialize (Hall c Hin).
      unfold keptBySlug in Hkept. unfold isSeparator.
      destruct (is_a_z c), (is_0_9 c); simpl in *; try discriminate.
      exact Hkept. }
    now rewrite Hw.
Qed.

Lemma generateSlug_empty_iff_no_alphanumeric_witness :
  generateSlug asciiToLowerCase (VStr (str "?!  --")) = [] <->
  forall c, In c (asciiToLowerCase (str "?!  --")) ->
            (is_a_z c || is_0_9 c)%bool = false.
Proof.
  apply (generateSlug_empty_iff_no_alphanumeric asciiToLowerCase
           (title := str "?!  --")).
  discriminate.
Defined.

Lemma length_dropWhile (p : codeunit -> bool) (s : jsstring) :
  (List.length (dropWhile p s) <= List.length s)%nat.
Proof.
  destruct (dropWhile_split p s) as (pre & Hs & _).
  rewrite Hs at 2. rewrite length_app. lia.
Qed.

Lemma length_dropWhileEnd (p : codeunit -> bool) (s : jsstring) :
  (List.length (dropWhileEnd p s) <= List.length s)%nat.
Proof.
  destruct (dropWhileEnd_split p s) as (post & Hs & _).
  rewrite Hs at 2. rewrite length_app. lia.
Qed.

Lemma length_replaceRunsFrom (p : codeunit -> bool) (c : codeunit) (s : jsstring) :
  forall b, (List.length (replaceRunsFrom p [c] b s) <= List.length s)%nat.
Proof.
  induction s as [|d s IH]; intros b; simpl; [lia|].
  destruct (p d); [destruct b|]; simpl;
    [specialize (IH true) | specialize (IH true) | specialize (IH false)]; lia.
Qed.

(** X3. A slug is never longer than the title in lower case. *)
Theorem generateSlug_not_longer_than_title :
  forall (lower : jsstring -> jsstring) (title : jsstring),
    (List.length (generateSlug lower (VStr title))
     <= List.length (lower title))%nat.
Proof.
  intros lower title. destruct title as [|d title]; [simpl; lia|].
  cbn [generateSlug truthy]. unfold slugify, stripHyphens, replaceRuns, trim,
    removeAll.
  eapply Nat.le_trans; [apply length_dropWhileEnd|].
  eapply Nat.le_trans; [apply length_dropWhile|].
  eapply Nat.le_trans; [apply length_replaceRunsFrom|].
  eapply Nat.le_trans; [apply length_replaceRunsFrom|].
  eapply Nat.le_trans; [apply length_dropWhileEnd|].
  eapply Nat.le_trans; [apply length_dropWhile|].
  apply filter_length_le.
Qed.

(* ================================================================== *)
(** ** Reading time: the pieces of split and the words *)

Lemma last_cons_default (c d : codeunit) (s : jsstring) :
  last (c :: s) d = last s c.
Proof.
  revert c d. induction s as [|e s IH]; intros c d; [reflexivity|].
  change (last (c :: e :: s) d) with (last (e :: s) d).
  now rewrite (IH e d), (IH e c).
Qed.

(** From any point of the scan on, [split] yields one piece more than
    there are words left exactly when the text, or else what was read last,
    ends in white space. *)
Lemma splitFrom_length (s : jsstring) :
  forall (insep : bool) (cur : jsstring) (d : codeunit),
    (insep = true -> cur = []) ->
    (insep = false -> cur <> []) ->
    isWhiteSpace d = insep ->
    List.length (splitFrom insep cur s)
    = (List.length (wordsFrom isWhiteSpace cur s)
       + (if isWhiteSpace (last s d) then 1 else 0))%nat.
Proof.
  induction s as [|c s IH]; intros insep cur d Hin Hout Hd.
  - simpl. rewrite Hd. destruct insep.
    + now rewrite (Hin eq_refl).
    + destruct cur; [now destruct Hout | simpl; lia].
  - rewrite last_cons_default. cbn [splitFrom wordsFrom].
    destruct (isWhiteSpace c) eqn:Hc.
    + destruct insep.
      * rewrite (Hin eq_refl). simpl. apply IH; auto; discriminate.
      * destruct cur as [|e cur]; [now destruct Hout|].
        simpl. f_equal. apply IH; auto; discriminate.
    + apply IH; auto; discriminate.
Qed.

Lemma splitWhiteSpace_length (s : jsstring) :
  List.length (splitWhiteSpace s)
  = (List.length (words isWhiteSpace s) + leadingPiece s + trailingPiece s)%nat.
Proof.
  unfold splitWhiteSpace, words, leadingPiece, trailingPiece.
  destruct s as [|c s]; [reflexivity|].
  rewrite (last_cons_default c 0%N s). cbn [splitFrom wordsFrom].
  destruct (isWhiteSpace c) eqn:Hc.
  - simpl. rewrite (@splitFrom_length s true [] c);
      auto; try discriminate; lia.
  - rewrite (@splitFrom_length s false [c] c);
      auto; try discriminate; lia.
Qed.

Lemma ceilDiv_mono (n m : Z) : (n <= m)%Z -> (ceilDiv n 200 <= ceilDiv m 200)%Z.
Proof. intros H. unfold ceilDiv. apply Z.div_le_mono; lia. Qed.

Lemma ceilDiv_step (n : Z) : ceilDiv (n + 200) 200 = (ceilDiv n 200 + 1)%Z.
Proof.
  unfold ceilDiv. replace (n + 200 + 200 - 1)%Z with (n + 200 - 1 + 1 * 200)%Z
    by lia. apply Z.div_add. lia.
Qed.

(** X4. The word count of the code is the number of words plus one for
    leading white space (or an empty content) and one for trailing white
    space; so the reading time is at least 1, never below
    ceil(words / 200) and at most one above it. *)
Theorem readingTime_within_one_of_word_count :
  forall content : jsstring,
    List.length (splitWhiteSpace content)
    = (List.length (words isWhiteSpace content)
       + leadingPiece content + trailingPiece content)%nat
    /\ exists minutes,
        readingTime (VStr content) = Return minutes
        /\ (1 <= minutes)%Z
        /\ (readingTime_spec content <= minutes
            <= readingTime_spec content + 1)%Z.
Proof.
  intros content. pose proof (splitWhiteSpace_length content) as Hlen.
  split; [exact Hlen|].
  exists (ceilDiv (Z.of_nat (List.length (splitWhiteSpace content))) 200).
  split; [reflexivity|].
  assert (Hl : (leadingPiece content <= 1)%nat).
  { unfold leadingPiece. destruct content as [|c s]; [lia|].
    destruct (isWhiteSpace c); lia. }
  assert (Ht : (trailingPiece content <= 1)%nat).
  { unfold trailingPiece. destruct content as [|c s]; [lia|].
    destruct (isWhiteSpace _); lia. }
  assert (Hpos : (1 <= List.length (splitWhiteSpace content))%nat)
    by apply splitFrom_nonempty.
  unfold readingTime_spec, word_count. split; [|split].
  - unfold ceilDiv. apply Z.div_le_lower_bound; lia.
  - apply ceilDiv_mono. lia.
  - rewrite <- ceilDiv_step. apply ceilDiv_mono. lia.
Qed.

(* ================================================================== *)
(** ** The token cache over several calls *)

(** [authenticate] either returns a truthy token without a request, or logs
    in without an API token. *)
Lemma authenticate_reuse_or_login (W : world) (srv : server) (trace : list request) :
  let s := {| self := srv; sent := trace |} in
  (exists token, authenticate W s = (Return token, s) /\ truthy token = true)
  \/ (truthy (envValue (apiToken srv)) = false
      /\ authenticate W s =
         match loginToken (respond W trace (loginRequest srv)) with
         | Return token =>
             (Return token,
              {| self := withToken srv token (Date_now W trace + TOKEN_LIFETIME);
                 sent := trace ++ [loginRequest srv] |})
         | Throw e =>
             (Throw e, {| self := srv; sent := trace ++ [loginRequest srv] |})
         end).
Proof.
  intros s. pose proof (authenticate_cases W srv trace) as Hauth.
  cbv zeta in Hauth. fold s in Hauth.
  destruct (truthy (envValue (apiToken srv))) eqn:Hapi.
  - left. now exists (envValue (apiToken srv)).
  - destruct (truthy (jwtToken srv)) eqn:Hjwt; cbn [andb] in Hauth.
    + destruct (truthy (expiryValue (tokenExpiry srv))
                && match tokenExpiry srv with
                   | Some e => Z.ltb (Date_now W trace) e
                   | None => false
                   end)%bool.
      * left. now exists (jwtToken srv).
      * right. now split.
    + right. now split.
Qed.

(** X5. A token fetched by a login, the first one or one that replaces an
    expired token, is reused, without any request, by every later
    [authenticate] whose clock is before the login time plus
    [TOKEN_LIFETIME], 1500000 milliseconds, and replaced by a new login from
    that time on. *)
Theorem token_reused_until_expiry :
  forall (W : world) (srv : server) (trace : list request) (token : value),
    let s := {| self := srv; sent := trace |} in
    issued (authenticate W) s = [loginRequest srv] ->
    fst (authenticate W s) = Return token ->
    truthy token = true ->
    (0 <= Date_now W trace)%Z ->
    let s1 := snd (authenticate W s) in
    let expiry := (Date_now W trace + TOKEN_LIFETIME)%Z in
    TOKEN_LIFETIME = 1500000%Z
    /\ forall later : list request,
        let s2 := {| self := self s1; sent := later |} in
        ((Date_now W later < expiry)%Z ->
         authenticate W s2 = (Return token, s2))
        /\ ((expiry <= Date_now W later)%Z ->
            issued (authenticate W) s2 = [loginRequest srv]).
Proof.
  intros W srv trace token s Hlogin Hfst Htoken Hnow s1 expiry.
  split; [reflexivity|].
  destruct (authenticate_reuse_or_login W srv trace)
    as [(token' & Hsame & _) | [Hapi Hauth]]; fold s in Hsame || fold s in Hauth.
  { rewrite (@issued_nil _ (authenticate W) s) in Hlogin; [discriminate|].
    now rewrite Hsame. }
  assert (Hfirst :
    authenticate W s
    = (Return token,
       {| self := withToken srv token expiry;
          sent := trace ++ [loginRequest srv] |})).
  { rewrite Hauth in *.
    destruct (loginToken (respond W trace (loginRequest srv))) as [token'|e];
      cbn [fst] in Hfst; [|discriminate].
    now injection Hfst as ->. }
  subst s1. rewrite Hfirst. cbn [fst snd self].
  intros later. cbv zeta.
  pose proof (authenticate_cases W (withToken srv token expiry) later) as Hsecond.
  cbv zeta in Hsecond.
  cbn [withToken apiToken jwtToken tokenExpiry expiryValue truthy] in Hsecond.
  rewrite Hapi, Htoken in Hsecond.
  assert (Hexp : negb (Z.eqb expiry 0) = true).
  { unfold expiry, TOKEN_LIFETIME.
    destruct (Z.eqb_spec (Date_now W trace + 25 * 60 * 1000) 0);
      [lia | reflexivity]. }
  rewrite Hexp in Hsecond. cbn [andb] in Hsecond.
  split.
  - intros Hlt. apply Z.ltb_lt in Hlt. now rewrite Hlt in Hsecond.
  - intros Hge. apply Z.ltb_ge in Hge. rewrite Hge in Hsecond.
    apply issued_app. rewrite Hsecond.
    change (loginRequest (withToken srv token expiry)) with (loginRequest srv).
    destruct (loginToken (respond W later (loginRequest srv))); reflexivity.
Qed.

Lemma token_reused_until_expiry_witness :
  authenticate
    (constantWorld 1000
       (Return (VObj [("data", VObj [("token", VStr (str "fresh"))])])))
    (freshState (withToken (exampleServer None) (VStr (str "fresh")) 1501000))
  = (Return (VStr (str "fresh")),
     freshState (withToken (exampleServer None) (VStr (str "fresh")) 1501000)).
Proof.
  assert (Hnow : (0 <= 1000)%Z) by lia.
  assert (Hlt : (1000 < 1000 + TOKEN_LIFETIME)%Z) by (vm_compute; reflexivity).
  exact (proj1 (proj2 (@token_reused_until_expiry
                         (constantWorld 1000
                            (Return (VObj [("data",
                                            VObj [("token", VStr (str "fresh"))])])))
                         (withToken (exampleServer None) (VStr (str "old")) 500)
                         [] (VStr (str "fresh"))
                         eq_refl eq_refl eq_refl Hnow) []) Hlt).
Defined.

(** X6. A refused login, the first one or one that follows an expired
    token, is reported and not cached: whatever the tool, the call returns
    the error flag with the text ["Error: "] followed by the message of the
    login's error, sends the login request and no other, and leaves the
    server object, with its token and expiry, as it was. *)
Theorem refused_login_is_reported_and_not_cached :
  forall (R : runtime) (W : world) (req : call_request)
         (srv : server) (trace : list request) (e : exn),
    let s := {| self := srv; sent := trace |} in
    fst (authenticate W s) = Throw e ->
    callTool R W req s
    = (Return {| text := VStr (str "Error: " ++ message e); isError := true |},
       {| self := srv; sent := trace ++ [loginRequest srv] |}).
Proof.
  intros R W req srv trace e s Hthrow.
  destruct (authenticate_reuse_or_login W srv trace)
    as [(token' & Hsame & _) | [Hapi Hauth]]; fold s in Hsame || fold s in Hauth.
  { rewrite Hsame in Hthrow. discriminate. }
  rewrite callTool_body. unfold callToolBody, bind. rewrite Hauth in *.
  destruct (loginToken (respond W trace (loginRequest srv))) as [token'|e'];
    cbn [fst] in Hthrow; [discriminate|].
  now injection Hthrow as ->.
Qed.

Lemma refused_login_is_reported_and_not_cached_witness :
  callTool exampleRuntime (loginRefused 1000 (Return (VObj [])))
    {| params_name := str "strapi_list_tags"; params_arguments := VObj [] |}
    (freshState (withToken (exampleServer None) (VStr (str "old")) 500))
  = (Return {| text := VStr (str "Error: Request failed with status code 400");
               isError := true |},
     {| self := withToken (exampleServer None) (VStr (str "old")) 500;
        sent := [loginRequest (exampleServer None)] |}).
Proof.
  exact (@refused_login_is_reported_and_not_cached
           exampleRuntime (loginRefused 1000 (Return (VObj [])))
           {| params_name := str "strapi_list_tags"; params_arguments := VObj [] |}
           (withToken (exampleServer None) (VStr (str "old")) 500) []
           (Error (str "Request failed with status code 400")) eq_refl).
Defined.

(** X7. A login answer without a usable token is not an error: whenever
    [authenticate] returns a falsy token, it comes from a login; it serves
    the current call, whose handler runs with the headers built from it, and
    it is never reused, the next [authenticate] logging in again whatever
    the clock. *)
Theorem falsy_login_token_is_used_once :
  forall (R : runtime) (W : world) (req : call_request)
         (srv : server) (trace : list request) (token : value),
    let s := {| self := srv; sent := trace |} in
    fst (authenticate W s) = Return token ->
    truthy token = false ->
    let s1 := {| self := withToken srv token (Date_now W trace + TOKEN_LIFETIME);
                 sent := trace ++ [loginRequest srv] |} in
    authenticate W s = (Return token, s1)
    /\ callToolBody R W req s = dispatch R W (authHeaders R token) req s1
    /\ forall later : list request,
        issued (authenticate W) {| self := self s1; sent := later |}
        = [loginRequest srv].
Proof.
  intros R W req srv trace token s Hfst Htoken s1.
  destruct (authenticate_reuse_or_login W srv trace)
    as [(token' & Hsame & Htruthy) | [Hapi Hauth]];
    fold s in Hsame || fold s in Hauth.
  { rewrite Hsame in Hfst. injection Hfst as ->. congruence. }
  assert (Hfirst : authenticate W s = (Return token, s1)).
  { rewrite Hauth in *.
    destruct (loginToken (respond W trace (loginRequest srv))) as [token'|e];
      cbn [fst] in Hfst; [|discriminate].
    now injection Hfst as ->. }
  split; [exact Hfirst|]. split.
  - unfold callToolBody, bind. now rewrite Hfirst.
  - intros later. apply issued_app. subst s1. cbn [self].
    rewrite authenticate_cases. cbv zeta.
    cbn [withToken apiToken jwtToken]. rewrite Hapi, Htoken. cbn [andb].
    change (loginRequest (withToken srv token
                            (Date_now W trace + TOKEN_LIFETIME)))
      with (loginRequest srv).
    destruct (loginToken (respond W later (loginRequest srv))); reflexivity.
Qed.

Lemma falsy_login_token_is_used_once_witness :
  issued
    (authenticate (constantWorld 1000 (Return (VObj [("data", VObj [])]))))
    {| self := withToken (exampleServer None) VUndefined (1000 + TOKEN_LIFETIME);
       sent := [] |}
  = [loginRequest (exampleServer None)].
Proof.
  exact (proj2 (proj2 (@falsy_login_token_is_used_once
                         exampleRuntime
                         (constantWorld 1000 (Return (VObj [("data", VObj [])])))
                         {| params_name := str "strapi_list_tags";
                            params_arguments := VObj [] |}
                         (withToken (exampleServer None) (VStr (str "old")) 500)
                         [] VUndefined eq_refl eq_refl)) []).
Defined.

(* ================================================================== *)
(** ** The headers and the result of a handler *)

Section HandlerShapes.

Variable R : runtime.
Variable W : world.

Lemma sendsWith_lift_bind {A} (h : value) (c : outcome A)
      (k : A -> M tool_result) (s : state) :
  (forall a, sendsWith h (k a) s) -> sendsWith h (x <- lift c ;; k x) s.
Proof.
  intros H. unfold sendsWith, bind, lift in *. destruct c as [a|e].
  - apply H.
  - simpl. left. split; [reflexivity | now exists e].
Qed.

Lemma sendsWith_axios (m : http_method) (u : jsstring) (d p h : value)
      (tail : value -> outcome tool_result) (s : state) :
  sendsWith h (response_data <- axios W m u d p h ;; lift (tail response_data)) s.
Proof.
  unfold sendsWith, bind, axios, lift. right.
  destruct (respond W (sent s) _) as [body|e]; simpl;
    eexists; split; reflexivity.
Qed.

Lemma handsOn_lift_bind {A} (c : outcome A) (k : A -> M tool_result)
      (s : state) :
  (forall a, handsOn R W (k a) s) -> handsOn R W (x <- lift c ;; k x) s.
Proof.
  intros H. unfold handsOn, bind, lift in *. destruct c as [a|e].
  - apply H.
  - simpl. left. split; [reflexivity | now exists e].
Qed.

Lemma handsOn_axios (m : http_method) (u : jsstring) (d p h : value)
      (s : state) :
  handsOn R W (response_data <- axios W m u d p h ;; ret (reply R response_data)) s.
Proof.
  unfold handsOn, handOn, bind, axios, ret. right.
  destruct (respond W (sent s) _) as [body|e] eqn:E; simpl;
    eexists; (split; [reflexivity|]); now rewrite E.
Qed.

Lemma sendsWith_getSelf_bind (h : value) (k : server -> M tool_result)
      (s : state) :
  sendsWith h (k (self s)) s -> sendsWith h (srv <- getSelf ;; k srv) s.
Proof. intros H. exact H. Qed.

Lemma sendsWith_dateNow_bind (h : value) (k : Z -> M tool_result) (s : state) :
  sendsWith h (k (Date_now W (sent s))) s ->
  sendsWith h (now <- dateNow W ;; k now) s.
Proof. intros H. exact H. Qed.

Lemma handsOn_getSelf_bind (k : server -> M tool_result) (s : state) :
  handsOn R W (k (self s)) s -> handsOn R W (srv <- getSelf ;; k srv) s.
Proof. intros H. exact H. Qed.

Lemma handsOn_dateNow_bind (k : Z -> M tool_result) (s : state) :
  handsOn R W (k (Date_now W (sent s))) s ->
  handsOn R W (now <- dateNow W ;; k now) s.
Proof. intros H. exact H. Qed.

Ltac shape_step :=
  first
    [ apply sendsWith_lift_bind; intros ?
    | apply handsOn_lift_bind; intros ?
    | apply sendsWith_getSelf_bind
    | apply handsOn_getSelf_bind
    | apply sendsWith_dateNow_bind
    | apply handsOn_dateNow_bind
    | apply handsOn_axios
    | apply (sendsWith_axios _ _ _ _ _ (fun b => Return (reply R b)))
    | apply sendsWith_axios ].

Ltac unfold_handlers :=
  unfold createBlogPost, listBlogPosts, getBlogPost, updateBlogPost,
    publishBlogPost, listAuthors, listCategories, listTags,
    createTutorial, listTutorials, getTutorial, updateTutorial,
    publishTutorial, createEvent, listEvents, getEvent, updateEvent,
    publishEvent, postTo, getFrom, getDocument, putDocument, publishDocument,
    listAll, listCollection.

(** Every handler sends the headers of the dispatcher with its request. *)
Lemma dispatch_sendsWith (h : value) (req : call_request) (s : state) :
  sendsWith h (dispatch R W h req) s.
Proof.
  unfold dispatch. destruct (find_tool (params_name req)) as [[]|];
    try (unfold_handlers; repeat shape_step; fail).
  unfold sendsWith, throw. simpl. left.
  split; [reflexivity | eexists; reflexivity].
Qed.

(** Every handler but those of the three list tools hands the body of the
    answer on as it is. *)
Lemma dispatch_handsOn (h : value) (req : call_request) (s : state) :
  (forall t, find_tool (params_name req) = Some t -> listedCollection t = None) ->
  handsOn R W (dispatch R W h req) s.
Proof.
  intros Hnot. unfold dispatch.
  destruct (find_tool (params_name req)) as [t|].
  - specialize (Hnot t eq_refl).
    destruct t; try discriminate; unfold_handlers; repeat shape_step.
  - unfold handsOn, throw. simpl. left.
    split; [reflexivity | eexists; reflexivity].
Qed.

End HandlerShapes.

(* ================================================================== *)
(** ** What every call and every session keeps *)

Lemma callTool_snd (R : runtime) (W : world) (req : call_request) (s : state) :
  snd (callTool R W req s) = snd (callToolBody R W req s).
Proof.
  rewrite callTool_body. now destruct (callToolBody R W req s) as [[res|e] s1].
Qed.

Lemma callTool_returns (R : runtime) (W : world) (req : call_request) (s : state) :
  exists res, fst (callTool R W req s) = Return res.
Proof.
  rewrite callTool_body. destruct (callToolBody R W req s) as [[res|e] s1];
    eexists; reflexivity.
Qed.

Lemma sameConfig_refl (a : server) : sameConfig a a.
Proof. repeat split. Qed.

Lemma sameConfig_trans (a b c : server) :
  sameConfig a b -> sameConfig b c -> sameConfig a c.
Proof.
  unfold sameConfig. intros (H1 & H2 & H3 & H4) (K1 & K2 & K3 & K4).
  repeat split; congruence.
Qed.

Lemma authenticate_config (W : world) (s : state) :
  sameConfig (self (snd (authenticate W s))) (self s).
Proof.
  destruct s as [srv trace]. rewrite authenticate_cases.
  destruct (truthy (envValue (apiToken srv))); [apply sameConfig_refl|].
  destruct (_ && _ && _)%bool; [apply sameConfig_refl|].
  destruct (loginToken _); cbn [snd self]; repeat split.
Qed.

Lemma callTool_config (R : runtime) (W : world) (req : call_request) (s : state) :
  sameConfig (self (snd (callTool R W req s))) (self s).
Proof.
  rewrite callTool_snd. unfold callToolBody, bind.
  pose proof (authenticate_config W s) as Hauth.
  destruct (authenticate W s) as [[token|e] s1]; cbn [snd] in *; [|exact Hauth].
  destruct (dispatch_step R W (authHeaders R token) req s1) as [Hself _].
  destruct (dispatch R W (authHeaders R token) req s1) as [[res|e] s2];
    cbn [snd] in *; now rewrite Hself.
Qed.

Lemma counts_app (base : jsstring) (a b : list request) :
  loginCalls base (a ++ b) = (loginCalls base a + loginCalls base b)%nat
  /\ backendCalls base (a ++ b)
     = (backendCalls base a + backendCalls base b)%nat.
Proof. unfold loginCalls, backendCalls. now rewrite !filter_app, !length_app. Qed.

Lemma callTool_counts (R : runtime) (W : world) (req : call_request) (s : state) :
  exists new,
    sent (snd (callTool R W req s)) = sent s ++ new
    /\ (loginCalls (strapiUrl (self s)) new <= 1)%nat
    /\ (backendCalls (strapiUrl (self s)) new <= 1)%nat.
Proof.
  destruct s as [srv trace]. rewrite callTool_snd.
  destruct (callToolBody_trace R W req srv trace)
    as (auth & rest & Hsent & Hauth & Hrest & _).
  exists (auth ++ rest). split; [exact Hsent|]. cbn [self].
  destruct (counts_app (strapiUrl srv) auth rest) as [-> ->].
  pose proof (loginRequest_is_login srv) as Hl.
  unfold loginCalls, backendCalls.
  destruct Hauth as [-> | ->], Hrest as [-> | (r & -> & Hr)];
    cbn [filter]; rewrite ?Hl, ?Hr; cbn [negb List.length]; lia.
Qed.

(** X8. A session of calls answers every call with a result, no exception
    escaping; it never changes the configuration of the server (URL, API
    token, credentials), only extends the trace of requests, and sends at
    most one login and one content request per call. *)
Theorem session_answers_every_call :
  forall (R : runtime) (W : world) (reqs : list call_request) (s : state),
    let out := serve R W reqs s in
    List.length (fst out) = List.length reqs
    /\ Forall (fun o => exists res, o = Return res) (fst out)
    /\ sameConfig (self (snd out)) (self s)
    /\ exists new,
        sent (snd out) = sent s ++ new
        /\ (loginCalls (strapiUrl (self s)) new <= List.length reqs)%nat
        /\ (backendCalls (strapiUrl (self s)) new <= List.length reqs)%nat.
Proof.
  intros R W reqs. induction reqs as [|req reqs IH]; intros s out.
  - subst out. simpl. repeat split; [constructor | ].
    exists []. rewrite app_nil_r. repeat split; simpl; auto.
  - subst out. cbn [serve].
    destruct (callTool_returns R W req s) as (res & Hres).
    pose proof (callTool_config R W req s) as Hconf.
    destruct (callTool_counts R W req s) as (new1 & Hsent1 & Hl1 & Hb1).
    destruct (callTool R W req s) as [o s1]. cbn [fst snd] in *.
    specialize (IH s1). cbv zeta in IH.
    destruct (serve R W reqs s1) as [rs s2]. cbn [fst snd] in *.
    destruct IH as (Hlen & Hall & Hconf2 & new2 & Hsent2 & Hl2 & Hb2).
    assert (Hbase : strapiUrl (self s1) = strapiUrl (self s)) by apply Hconf.
    rewrite Hbase in Hl2, Hb2.
    split; [simpl; now rewrite Hlen|].
    split; [constructor; [now exists res | exact Hall]|].
    split; [now apply sameConfig_trans with (b := self s1)|].
    exists (new1 ++ new2). rewrite Hsent2, Hsent1, app_assoc.
    split; [reflexivity|].
    destruct (counts_app (strapiUrl (self s)) new1 new2) as [-> ->].
    simpl. lia.
Qed.

Lemma callToolBody_with_apiToken (R : runtime) (W : world)
      (req : call_request) (s : state) :
  truthy (envValue (apiToken (self s))) = true ->
  callToolBody R W req s
  = dispatch R W (authHeaders R (envValue (apiToken (self s)))) req s.
Proof.
  intros Hapi. destruct s as [srv trace]. unfold callToolBody, bind.
  rewrite authenticate_cases. cbn [self] in *. now rewrite Hapi.
Qed.

(** X9. With an API token configured, a session never contacts the login
    endpoint and never changes the server object; it sends at most one
    request per call, each with the headers built from the API token. *)
Theorem apiToken_session_never_logs_in :
  forall (R : runtime) (W : world) (reqs : list call_request) (s : state),
    truthy (envValue (apiToken (self s))) = true ->
    let out := serve R W reqs s in
    self (snd out) = self s
    /\ exists new,
        sent (snd out) = sent s ++ new
        /\ loginCalls (strapiUrl (self s)) new = 0%nat
        /\ (List.length new <= List.length reqs)%nat
        /\ Forall (fun r => headers r
                            = authHeaders R (envValue (apiToken (self s)))) new.
Proof.
  intros R W reqs. induction reqs as [|req reqs IH]; intros s Hapi out.
  - subst out. simpl. split; [reflexivity|]. exists [].
    rewrite app_nil_r. repeat split; auto.
  - subst out. cbn [serve].
    assert (Hstep :
      self (snd (callTool R W req s)) = self s
      /\ exists new,
          sent (snd (callTool R W req s)) = sent s ++ new
          /\ loginCalls (strapiUrl (self s)) new = 0%nat
          /\ (List.length new <= 1)%nat
          /\ Forall (fun r => headers r
                              = authHeaders R (envValue (apiToken (self s)))) new).
    { rewrite callTool_snd, (callToolBody_with_apiToken R W req s Hapi).
      set (h := authHeaders R (envValue (apiToken (self s)))).
      destruct (dispatch_step R W h req s) as [Hself Hsent].
      split; [exact Hself|].
      destruct (dispatch_sendsWith R W h req s) as [[Hs _] | (r & Hs & Hh)].
      - exists []. rewrite app_nil_r. repeat split; auto.
      - exists [r]. split; [exact Hs|].
        destruct Hsent as [[Hs' _] | (r' & Hs' & Hr' & _)].
        + rewrite Hs' in Hs. rewrite <- (app_nil_r (sent s)) in Hs at 1.
          apply app_inv_head in Hs. discriminate.
        + rewrite Hs' in Hs. apply app_inv_head in Hs. injection Hs as ->.
          unfold loginCalls. simpl. rewrite Hr'. repeat split; auto. }
    destruct Hstep as (Hself & new1 & Hsent1 & Hl1 & Hn1 & Hh1).
    destruct (callTool R W req s) as [o s1]. cbn [fst snd] in *.
    assert (Hapi1 : truthy (envValue (apiToken (self s1))) = true)
      by now rewrite Hself.
    specialize (IH s1 Hapi1). cbv zeta in IH.
    destruct (serve R W reqs s1) as [rs s2]. cbn [fst snd] in *.
    destruct IH as (Hself2 & new2 & Hsent2 & Hl2 & Hn2 & Hh2).
    rewrite Hself in Hl2, Hh2, Hself2.
    split; [exact Hself2|].
    exists (new1 ++ new2). rewrite Hsent2, Hsent1, app_assoc.
    split; [reflexivity|].
    destruct (counts_app (strapiUrl (self s)) new1 new2) as [-> _].
    rewrite Hl1, Hl2, length_app. repeat split; [simpl; lia|].
    apply Forall_app. now split.
Qed.

Lemma apiToken_session_never_logs_in_witness :
  self (snd (serve exampleRuntime (constantWorld 0 (Return (VObj [])))
               [ {| params_name := str "strapi_list_tags";
                    params_arguments := VUndefined |};
                 {| params_name := str "strapi_get_event";
                    params_arguments := VObj [("document_id", VStr (str "e1"))] |} ]
               (freshState (exampleServer (Some (str "token"))))))
  = exampleServer (Some (str "token")).
Proof.
  exact (proj1 (@apiToken_session_never_logs_in
                  exampleRuntime (constantWorld 0 (Return (VObj [])))
                  [ {| params_name := str "strapi_list_tags";
                       params_arguments := VUndefined |};
                    {| params_name := str "strapi_get_event";
                       params_arguments :=
                         VObj [("document_id", VStr (str "e1"))] |} ]
                  (freshState (exampleServer (Some (str "token"))))
                  eq_refl)).
Defined.

(** X10. Every request of a call other than the login carries the headers
    built from the token that [authenticate] returned; the login request
    carries none. *)
Theorem content_requests_carry_the_token :
  forall (R : runtime) (W : world) (req : call_request)
         (srv : server) (trace : list request) (r : request),
    let s := {| self := srv; sent := trace |} in
    In r (issued (callTool R W req) s) ->
    (r = loginRequest srv /\ headers r = VUndefined)
    \/ exists token,
        fst (authenticate W s) = Return token
        /\ headers r = authHeaders R token.
Proof.
  intros R W req srv trace r s Hin.
  destruct (authenticate_trace W srv trace) as (_ & auth & Hsent & Hauth).
  fold s in Hsent.
  assert (Hissued :
    exists rest,
      issued (callTool R W req) s = auth ++ rest
      /\ forall r', In r' rest ->
           exists token, fst (authenticate W s) = Return token
                         /\ headers r' = authHeaders R token).
  { unfold issued. rewrite callTool_snd. unfold callToolBody, bind.
    destruct (authenticate W s) as [[token|e] s1]; cbn [fst snd] in *.
    - destruct (dispatch_sendsWith R W (authHeaders R token) req s1)
        as [[Hs _] | (r' & Hs & Hh)].
      + exists []. rewrite Hs, Hsent, app_nil_r.
        split; [apply skipn_app_exact | intros ? []].
      + exists [r']. rewrite Hs, Hsent, <- app_assoc.
        split; [apply skipn_app_exact|].
        intros r'' [<- | []]. now exists token.
    - exists []. rewrite Hsent, app_nil_r.
      split; [apply skipn_app_exact | intros ? []]. }
  destruct Hissued as (rest & Hnew & Hrest). rewrite Hnew in Hin.
  apply in_app_or in Hin. destruct Hin as [Hin | Hin].
  - left. destruct Hauth as [-> | ->]; [contradiction|].
    destruct Hin as [<- | []]. now split.
  - right. now apply Hrest.
Qed.

Lemma content_requests_carry_the_token_witness :
  exists token,
    fst (authenticate
           (constantWorld 0
              (Return (VObj [("data", VObj [("token", VStr (str "fresh"))])])))
           (freshState (exampleServer None))) = Return token
    /\ VObj [ ("Authorization", VStr (str "Bearer fresh"));
              ("Content-Type", VStr (str "application/json")) ]
       = authHeaders exampleRuntime token.
Proof.
  destruct (@content_requests_carry_the_token
              exampleRuntime
              (constantWorld 0
                 (Return (VObj [("data", VObj [("token", VStr (str "fresh"))])])))
              {| params_name := str "strapi_list_tags";
                 params_arguments := VObj [] |}
              (exampleServer None) []
              {| method := GET;
                 url := collectionUrl DEFAULT_URL TAG;
                 data := VUndefined;
                 params := VUndefined;
                 headers :=
                   VObj [ ("Authorization", VStr (str "Bearer fresh"));
                          ("Content-Type", VStr (str "application/json")) ] |})
    as [[Hlogin _] | Htoken].
  - vm_compute. right. left. reflexivity.
  - discriminate Hlogin.
  - exact Htoken.
Defined.

(** X11. Every tool but the three list tools returns the body that the
    backend answered, as it is: in a result without the error flag, the text
    is the serialised body of the answer to the last request of the call. *)
Theorem other_tools_return_the_body_unchanged :
  forall (R : runtime) (W : world) (req : call_request) (s : state)
         (res : tool_result),
    (forall t, find_tool (params_name req) = Some t ->
               listedCollection t = None) ->
    fst (callTool R W req s) = Return res ->
    isError res = false ->
    exists before r body,
      sent (snd (callTool R W req s)) = before ++ [r]
      /\ respond W before r = Return body
      /\ text res = JSON_stringify R body.
Proof.
  intros R W req s res Hnot Hres Herr.
  rewrite callTool_snd. rewrite callTool_body in Hres.
  unfold callToolBody, bind in *.
  destruct (authenticate W s) as [[token|e] s1]; cbn [fst snd] in *.
  - destruct (dispatch_handsOn R W (authHeaders R token) req s1 Hnot)
      as [[_ (e & He)] | (r & Hs & Hfst)].
    + destruct (dispatch R W (authHeaders R token) req s1) as [[res'|e'] s2];
        cbn [fst] in *; [discriminate|].
      injection Hres as <-. discriminate.
    + exists (sent s1), r.
      destruct (dispatch R W (authHeaders R token) req s1) as [[res'|e'] s2];
        cbn [fst snd] in *.
      * injection Hres as ->. unfold handOn in Hfst.
        destruct (respond W (sent s1) r) as [body|e']; [|discriminate].
        exists body. cbn [obind] in Hfst. injection Hfst as ->. now split.
      * injection Hres as <-. discriminate.
  - injection Hres as <-. discriminate.
Qed.

Lemma other_tools_return_the_body_unchanged_witness :
  exists before r body,
    sent (snd (callTool exampleRuntime (constantWorld 0 (Return exampleBody))
                 {| params_name := str "strapi_get_blog_post";
                    params_arguments := VObj [("document_id", VStr (str "d1"))] |}
                 (freshState (exampleServer (Some (str "token"))))))
    = before ++ [r]
    /\ respond (constantWorld 0 (Return exampleBody)) before r = Return body
    /\ JSON_stringify exampleRuntime exampleBody
       = JSON_stringify exampleRuntime body.
Proof.
  apply (@other_tools_return_the_body_unchanged
           exampleRuntime (constantWorld 0 (Return exampleBody))
           {| params_name := str "strapi_get_blog_post";
              params_arguments := VObj [("document_id", VStr (str "d1"))] |}
           (freshState (exampleServer (Some (str "token"))))
           {| text := JSON_stringify exampleRuntime exampleBody;
              isError := false |}).
  - intros t Ht. vm_compute in Ht. injection Ht as <-. reflexivity.
  - reflexivity.
  - reflexivity.
Defined.

(* ================================================================== *)
(** ** The requests of the other tools *)

Lemma publishAction_unpublish_iff (v : value) :
  (publishAction v = str "unpublish" <-> v = VBool false)
  /\ (v <> VBool false -> publishAction v = str "publish").
Proof.
  split; [split|].
  - destruct v as [| | [|] | n | s | l | f]; simpl; try discriminate; auto.
  - now intros ->.
  - destruct v as [| | [|] | n | s | l | f]; simpl; auto. now intros [].
Qed.

(** X12. A publish call unpublishes only when [publish] is exactly [false]:
    with [publish] missing, [null], [0] or an empty string it publishes.
    Either way it is one [POST] with an empty object as body to the
    [actions] endpoint of the document. *)
Theorem publish_call_unpublishes_only_on_false :
  forall (R : runtime) (W : world) (t : tool) (uid : string)
         (h : value) (f : object) (s : state),
    publishedCollection t = Some uid ->
    let args := VObj f in
    let action :=
      match arg args "publish" with
      | VBool false => str "unpublish"
      | _ => str "publish"
      end in
    issued (dispatch R W h
              {| params_name := str (tool_name t); params_arguments := args |}) s
    = [ {| method := POST;
           url := documentUrl R (strapiUrl (self s)) uid (arg args "document_id")
                  ++ str "/actions/" ++ action;
           data := VObj [];
           params := VUndefined;
           headers := h |} ]
    /\ (action = str "unpublish" <-> arg args "publish" = VBool false).
Proof.
  intros R W t uid h f s Ht args action. subst action args. split.
  - apply issued_app. unfold dispatch. cbn [params_name params_arguments].
    rewrite find_tool_name.
    destruct t; try discriminate; injection Ht as <-;
      unfold publishBlogPost, publishTutorial, publishEvent, publishDocument,
        bind, lift, getSelf, axios, ret;
      cbn [js_get obind self sent snd];
      now destruct (respond W (sent s) _).
  - apply (publishAction_unpublish_iff (arg (VObj f) "publish")).
Qed.

Lemma publish_call_unpublishes_only_on_false_witness :
  issued (dispatch exampleRuntime (constantWorld 0 (Return (VObj []))) VNull
            {| params_name := str "strapi_publish_event";
               params_arguments :=
                 VObj [("document_id", VStr (str "e1")); ("publish", VNum 0)] |})
         (freshState (exampleServer (Some (str "token"))))
  = [ {| method := POST;
         url := str "http://localhost:1337/content-manager/collection-types/api::event.event/e1/actions/publish";
         data := VObj [];
         params := VUndefined;
         headers := VNull |} ].
Proof.
  exact (proj1 (@publish_call_unpublishes_only_on_false
                  exampleRuntime (constantWorld 0 (Return (VObj [])))
                  publish_event EVENT VNull
                  [("document_id", VStr (str "e1")); ("publish", VNum 0)]
                  (freshState (exampleServer (Some (str "token"))))
                  eq_refl)).
Defined.

(** X13. A get call sends its request for every argument value that is
    not [undefined] or [null], to the URL made of the collection and the
    conversion of [args.document_id] to a string, whether that property is
    there or not, and the text of its result is the serialised body of the
    answer; with [undefined] or [null] arguments it throws before any
    request. *)
Theorem get_call_does_not_check_document_id :
  forall (R : runtime) (W : world) (t : tool) (uid : string)
         (h args : value) (s : state),
    fetchedCollection t = Some uid ->
    let call :=
      dispatch R W h
        {| params_name := str (tool_name t); params_arguments := args |} in
    let r := {| method := GET;
                url := collectionUrl (strapiUrl (self s)) uid ++ str "/"
                       ++ ToString R (arg args "document_id");
                data := VUndefined;
                params := VUndefined;
                headers := h |} in
    if defined args
    then
      issued call s = [r]
      /\ fst (call s)
         = match respond W (sent s) r with
           | Return body =>
               Return {| text := JSON_stringify R body; isError := false |}
           | Throw e => Throw e
           end
    else
      issued call s = [] /\ exists e, fst (call s) = Throw e.
Proof.
  intros R W t uid h args s Ht call r. subst call r.
  unfold dispatch. cbn [params_name params_arguments]. rewrite find_tool_name.
  destruct (defined args) eqn:Hdef.
  - pose proof (js_get_defined args "document_id" Hdef) as Hid.
    destruct t; try discriminate; injection Ht as <-;
      unfold getBlogPost, getTutorial, getEvent, getDocument, getFrom,
        documentUrl, bind, lift, getSelf, axios, ret, reply;
      (split; [apply issued_app|]); rewrite Hid; cbn [self sent fst snd];
      match goal with
      | |- context [respond W ?tr ?rq] => destruct (respond W tr rq)
      end; reflexivity.
  - assert (Hid : exists e, js_get args "document_id" = Throw e).
    { destruct args; try discriminate; eexists; reflexivity. }
    destruct Hid as (e & Hid).
    destruct t; try discriminate; injection Ht as <-;
      unfold getBlogPost, getTutorial, getEvent, getDocument, bind, lift;
      rewrite Hid; (split; [now apply issued_nil | now exists e]).
Qed.

Lemma get_call_does_not_check_document_id_witness :
  issued (dispatch exampleRuntime (constantWorld 0 (Return (VObj []))) VNull
            {| params_name := str "strapi_get_tutorial";
               params_arguments := VObj [] |})
         (freshState (exampleServer (Some (str "token"))))
  = [ {| method := GET;
         url := str "http://localhost:1337/content-manager/collection-types/api::tutorial.tutorial/undefined";
         data := VUndefined;
         params := VUndefined;
         headers := VNull |} ]
  /\ fst (dispatch exampleRuntime (constantWorld 0 (Return (VObj []))) VNull
            {| params_name := str "strapi_get_tutorial";
               params_arguments := VObj [] |}
            (freshState (exampleServer (Some (str "token")))))
     = Return {| text := JSON_stringify exampleRuntime (VObj []);
                 isError := false |}.
Proof.
  exact (@get_call_does_not_check_document_id
           exampleRuntime (constantWorld 0 (Return (VObj [])))
           get_tutorial TUTORIAL VNull (VObj [])
           (freshState (exampleServer (Some (str "token"))))
           eq_refl).
Defined.

(** X14. The tools that list authors, categories and tags do not look at
    their arguments: whatever they are, even [null], the call is one [GET]
    of the collection without query parameters, and the text of its result
    is the serialised body of the answer. *)
Theorem metadata_lists_ignore_their_arguments :
  forall (R : runtime) (W : world) (t : tool) (uid : string)
         (h args : value) (s : state),
    metadataCollection t = Some uid ->
    let r := {| method := GET;
                url := collectionUrl (strapiUrl (self s)) uid;
                data := VUndefined;
                params := VUndefined;
                headers := h |} in
    dispatch R W h
      {| params_name := str (tool_name t); params_arguments := args |} s
    = (match respond W (sent s) r with
       | Return body =>
           Return {| text := JSON_stringify R body; isError := false |}
       | Throw e => Throw e
       end,
       {| self := self s; sent := sent s ++ [r] |}).
Proof.
  intros R W t uid h args s Ht r. subst r.
  unfold dispatch. cbn [params_name params_arguments]. rewrite find_tool_name.
  destruct t; try discriminate; injection Ht as <-;
    unfold listAuthors, listCategories, listTags, listAll, getFrom, bind,
      getSelf, axios, ret, reply;
    cbn [self sent];
    match goal with
    | |- context [respond W ?tr ?rq] => destruct (respond W tr rq)
    end; reflexivity.
Qed.

Lemma metadata_lists_ignore_their_arguments_witness :
  dispatch exampleRuntime (constantWorld 0 (Return (VObj []))) VNull
    {| params_name := str "strapi_list_authors"; params_arguments := VNull |}
    (freshState (exampleServer (Some (str "token"))))
  = (Return {| text := JSON_stringify exampleRuntime (VObj []);
               isError := false |},
     {| self := exampleServer (Some (str "token"));
        sent := [ {| method := GET;
                     url := collectionUrl DEFAULT_URL AUTHOR;
                     data := VUndefined;
                     params := VUndefined;
                     headers := VNull |} ] |}).
Proof.
  exact (@metadata_lists_ignore_their_arguments
           exampleRuntime (constantWorld 0 (Return (VObj [])))
           list_authors AUTHOR VNull VNull
           (freshState (exampleServer (Some (str "token")))) eq_refl).
Defined.

(* ================================================================== *)
(** ** The create methods *)

(** X15. Creating a tutorial or an event checks nothing: for every
    arguments object, even an empty one, the call sends one [POST] of the
    collection.  Its payload holds the given slug as it is when there is
    one and the slug generated from the title otherwise, and
    [publishedAt: null], a draft, unless a truthy [publishedAt] is given. *)
Theorem create_call_sends_for_any_object :
  forall (R : runtime) (W : world) (t : tool) (uid : string)
         (h : value) (f : object) (s : state),
    t = create_tutorial \/ t = create_event ->
    createdCollection t = Some uid ->
    let args := VObj f in
    exists payload,
      createData R (Date_now W (sent s)) t args = Return payload
      /\ issued (dispatch R W h
                   {| params_name := str (tool_name t);
                      params_arguments := args |}) s
         = [ {| method := POST;
                url := collectionUrl (strapiUrl (self s)) uid;
                data := VObj payload;
                params := VUndefined;
                headers := h |} ]
      /\ lookup "title" payload = Some (arg args "title")
      /\ lookup "slug" payload
         = Some (if truthy (arg args "slug") then arg args "slug"
                 else VStr (generateSlug (toLowerCase R) (arg args "title")))
      /\ lookup "publishedAt" payload
         = Some (if truthy (arg args "publishedAt") then arg args "publishedAt"
                 else VNull).
Proof.
  intros R W t uid h f s Hkind Ht args. subst args.
  destruct Hkind as [-> | ->]; injection Ht as <-;
    eexists; (split; [reflexivity|]); (split; [|repeat split]);
    try (apply issued_app; unfold dispatch; cbn [params_name params_arguments];
         rewrite find_tool_name;
         unfold createTutorial, createEvent, postTo, bind, lift, getSelf,
           axios, ret;
         cbn [js_get obind createTutorial_data createEvent_data self sent snd];
         now destruct (respond W (sent s) _)).
Qed.

Lemma create_call_sends_for_any_object_witness :
  issued (dispatch exampleRuntime (constantWorld 0 (Return (VObj []))) VNull
            {| params_name := str "strapi_create_event";
               params_arguments := VObj [] |})
         (freshState (exampleServer (Some (str "token"))))
  = [ {| method := POST;
         url := collectionUrl DEFAULT_URL EVENT;
         data := VObj [ ("title", VUndefined); ("slug", VStr []);
                        ("description", VUndefined);
                        ("event_type", VUndefined);
                        ("start_date", VUndefined); ("end_date", VUndefined);
                        ("location", VUndefined);
                        ("registration_url", VUndefined);
                        ("max_attendees", VUndefined);
                        ("publishedAt", VNull) ];
         params := VUndefined;
         headers := VNull |} ].
Proof.
  destruct (@create_call_sends_for_any_object
              exampleRuntime (constantWorld 0 (Return (VObj [])))
              create_event EVENT VNull []
              (freshState (exampleServer (Some (str "token"))))
              (or_intror eq_refl) eq_refl) as (payload & Hp & Hreq & _).
  injection Hp as <-. exact Hreq.
Defined.

(** X16. Creating a blog post needs a string as [content]: with any other
    value, or without one, the call throws before any request and changes
    nothing.  With a string it sends one [POST] whose payload holds the
    description under [excerpt], a reading time of at least 1, and the
    current time as [published_date] unless one is given. *)
Theorem create_blog_post_needs_string_content :
  forall (R : runtime) (W : world) (h args : value) (s : state),
    let call :=
      dispatch R W h
        {| params_name := str "strapi_create_blog_post";
           params_arguments := args |} in
    match args, arg args "content" with
    | VObj _, VStr content =>
        exists payload minutes,
          createBlogPost_data R (Date_now W (sent s)) args = Return payload
          /\ issued call s
             = [ {| method := POST;
                    url := collectionUrl (strapiUrl (self s)) BLOG_POST;
                    data := VObj payload;
                    params := VUndefined;
                    headers := h |} ]
          /\ lookup "excerpt" payload = Some (arg args "description")
          /\ lookup "description" payload = None
          /\ lookup "reading_time" payload = Some (VNum minutes)
          /\ (1 <= minutes)%Z
          /\ lookup "published_date" payload
             = Some (if truthy (arg args "published_date")
                     then arg args "published_date"
                     else VStr (toISOString R (Date_now W (sent s))))
    | _, _ => exists e, call s = (Throw e, s)
    end.
Proof.
  intros R W h args s call. subst call.
  unfold dispatch. cbn [params_name params_arguments].
  change (find_tool (str "strapi_create_blog_post"))
    with (find_tool (str (tool_name create_blog_post))).
  rewrite find_tool_name.
  unfold createBlogPost, postTo, bind, lift, dateNow, getSelf, axios, ret.
  cbn [fst snd].
  destruct args as [| | b | n | x | l | f];
    try (eexists; reflexivity).
  unfold arg. cbn [js_get].
  destruct (match lookup "content" f with Some v => v | None => VUndefined end)
    as [| | b | n | content | l | g] eqn:Hc;
    try (unfold createBlogPost_data; cbn [js_get obind]; rewrite Hc;
         cbn [readingTime js_split obind]; eexists; reflexivity).
  pose proof (readingTime_positive (VStr content) eq_refl) as Hpos.
  eexists. exists (ceilDiv (Z.of_nat (List.length (splitWhiteSpace content))) 200).
  unfold createBlogPost_data. cbn [js_get obind]. rewrite Hc.
  cbn [readingTime js_split obind self sent snd].
  split; [reflexivity|]. split.
  - apply issued_app. cbn [sent]. now destruct (respond W (sent s) _).
  - repeat split. exact Hpos.
Qed.

(* ================================================================== *)
(** ** The list methods: the edges of the summary mode *)

(** X17. Around the summary of a list call with an arguments object: any
    falsy [summary] other than [undefined] ([false], [0], an empty string,
    [null]) gives the serialised body as it is; in summary mode a body whose
    [results] is missing or falsy is returned serialised as it is too, and a
    truthy [results] that is not an array makes the call throw after its
    request was sent. *)
Theorem list_summary_edges :
  forall (R : runtime) (W : world) (t : tool) (uid : string)
         (h : value) (f : object) (s : state) (body : value),
    listedCollection t = Some uid ->
    let args := VObj f in
    let r := listRequest (strapiUrl (self s)) uid h
               (withDefault (arg args "page") (VNum 1))
               (withDefault (arg args "pageSize") (VNum 25)) in
    respond W (sent s) r = Return body ->
    let call :=
      dispatch R W h
        {| params_name := str (tool_name t); params_arguments := args |} in
    issued call s = [r]
    /\ (arg args "summary" <> VUndefined ->
        truthy (arg args "summary") = false ->
        fst (call s)
        = Return {| text := JSON_stringify R body; isError := false |})
    /\ (truthy (withDefault (arg args "summary") (VBool true)) = true ->
        (defined body = true ->
         truthy (arg body "results") = false ->
         fst (call s)
         = Return {| text := JSON_stringify R body; isError := false |})
        /\ (truthy (arg body "results") = true ->
            (forall items, arg body "results" <> VArr items) ->
            exists e, fst (call s) = Throw e)).
Proof.
  intros R W t uid h f s body Ht args r Hbody call. subst call r.
  assert (Hv : js_get (defaultArgs args) "page"
               = Return (arg (defaultArgs args) "page")) by reflexivity.
  pose proof (list_dispatch_result R W t h args s Ht Hv) as Hres.
  cbv zeta in Hres. change (defaultArgs args) with args in Hres.
  rewrite Hbody in Hres. cbn [obind] in Hres.
  split; [|split].
  - apply issued_app.
    rewrite (list_dispatch_sent R W t h args s Ht). unfold listRequests.
    change (defaultArgs args) with args. unfold getDefault. subst args.
    cbn [js_get obind]. reflexivity.
  - intros Hdef Hfalsy. rewrite Hres. unfold listResult.
    destruct (arg args "summary") eqn:E; try contradiction; cbn [withDefault];
      now rewrite Hfalsy.
  - intros Hsum. rewrite Hres. unfold listResult. rewrite Hsum. split.
    + intros Hdef Hfalsy. rewrite (js_get_defined body "results" Hdef).
      cbn [obind]. now rewrite Hfalsy.
    + intros Htruthy Hnot.
      assert (Hdef : defined body = true).
      { destruct body; try reflexivity; discriminate. }
      rewrite (js_get_defined body "results" Hdef). cbn [obind].
      rewrite Htruthy.
      destruct (arg body "results") as [| | b | n | x | l | g];
        try discriminate; try (eexists; reflexivity).
      now destruct (Hnot l).
Qed.

Lemma list_summary_edges_witness :
  fst (dispatch exampleRuntime
         (constantWorld 0 (Return (VObj [("results", VNull)]))) VNull
         {| params_name := str "strapi_list_events";
            params_arguments := VObj [] |}
         (freshState (exampleServer (Some (str "token")))))
  = Return {| text := JSON_stringify exampleRuntime (VObj [("results", VNull)]);
              isError := false |}.
Proof.
  destruct (@list_summary_edges
              exampleRuntime
              (constantWorld 0 (Return (VObj [("results", VNull)])))
              list_events EVENT VNull []
              (freshState (exampleServer (Some (str "token"))))
              (VObj [("results", VNull)]) eq_refl eq_refl)
    as (_ & _ & Hsummary).
  destruct (Hsummary eq_refl) as [Hfalsy _].
  apply Hfalsy; reflexivity.
Defined.

(* ================================================================== *)
(** ** The catalog and the dispatcher *)

Lemma catalog_names : map schema_name catalog = map tool_name all_tools.
Proof. reflexivity. Qed.

Lemma find_tool_some (name : jsstring) (t : tool) :
  find_tool name = Some t -> name = str (tool_name t).
Proof.
  unfold find_tool. intros H. apply find_some in H.
  now apply jsstring_eqb_eq.
Qed.

Lemma all_tools_complete (t : tool) : In t all_tools.
Proof. destruct t; simpl; tauto. Qed.

(** X18. The catalog and the dispatcher agree: a name is dispatched to a
    handler exactly when the catalog lists a tool of that name, the names of
    the catalog are pairwise distinct, and every required argument of a tool
    is one of its declared properties. *)
Theorem catalog_matches_dispatcher :
  (forall name : jsstring,
      (exists t, find_tool name = Some t)
      <-> exists sch, In sch catalog /\ name = str (schema_name sch))
  /\ NoDup (map schema_name catalog)
  /\ List.length catalog = 18%nat
  /\ forall sch k,
      In sch catalog ->
      In k (schema_required sch) ->
      In k (map prop_name (schema_properties sch)).
Proof.
  split; [|split; [|split]].
  - intros name. split.
    + intros (t & Ht). apply find_tool_some in Ht.
      pose proof (in_map tool_name _ _ (all_tools_complete t)) as Hin.
      rewrite <- catalog_names in Hin. apply in_map_iff in Hin.
      destruct Hin as (sch & Hname & Hsch).
      exists sch. split; [exact Hsch | now rewrite Hname].
    + intros (sch & Hsch & ->).
      pose proof (in_map schema_name _ _ Hsch) as Hin.
      rewrite catalog_names in Hin. apply in_map_iff in Hin.
      destruct Hin as (t & Hname & _).
      exists t. rewrite <- Hname. apply find_tool_name.
  - repeat constructor; simpl; intuition discriminate.
  - reflexivity.
  - intros sch k Hsch Hk. simpl in Hsch.
    repeat (destruct Hsch as [<- | Hsch]; [simpl in Hk |- *; tauto|]).
    contradiction.
Qed.

(* ================================================================== *)
(** ** The declared defaults *)

Lemma lookup_withProperty (f : object) (k k' : string) (d : value) :
  lookup k' (withProperty f k d)
  = match lookup k' f with
    | Some v => Some v
    | None => if String.eqb k' k then Some d else None
    end.
Proof.
  unfold withProperty. induction f as [|[k1 v1] f IH]; simpl; [reflexivity|].
  now destruct (String.eqb k' k1).
Qed.

Lemma arg_withProperty (f : object) (k k' : string) (d : value) :
  lookup k f = None ->
  arg (VObj (withProperty f k d)) k'
  = if String.eqb k' k then d else arg (VObj f) k'.
Proof.
  intros Hk. unfold arg. cbn [js_get]. rewrite lookup_withProperty.
  destruct (String.eqb_spec k' k) as [-> | Hne].
  - now rewrite Hk.
  - now destruct (lookup k' f).
Qed.

Section Defaults.

Variable R : runtime.
Variable W : world.

Lemma listHandler_object (t : tool) (uid : string) (h : value) (f : object)
      (s : state) :
  listedCollection t = Some uid ->
  dispatch R W h
    {| params_name := str (tool_name t); params_arguments := VObj f |} s
  = listCollection R W uid (summarizer R t) h
      (withDefault (arg (VObj f) "page") (VNum 1))
      (withDefault (arg (VObj f) "pageSize") (VNum 25))
      (withDefault (arg (VObj f) "summary") (VBool true)) s.
Proof.
  intros Ht. unfold dispatch. cbn [params_name params_arguments].
  rewrite find_tool_name.
  destruct t; try discriminate; injection Ht as <-; reflexivity.
Qed.

Lemma publishHandler_object (t : tool) (uid : string) (h : value) (f : object)
      (s : state) :
  publishedCollection t = Some uid ->
  dispatch R W h
    {| params_name := str (tool_name t); params_arguments := VObj f |} s
  = publishDocument R W uid h
      (VObj [ ("publish", VBool (negb (match arg (VObj f) "publish" with
                                       | VBool false => true
                                       | _ => false
                                       end)));
              ("document_id", arg (VObj f) "document_id") ]) s.
Proof.
  intros Ht. unfold dispatch. cbn [params_name params_arguments].
  rewrite find_tool_name.
  destruct t; try discriminate; injection Ht as <-;
    unfold publishBlogPost, publishTutorial, publishEvent, publishDocument,
      bind, lift; cbn [js_get obind lookup String.eqb Ascii.eqb Bool.eqb];
    unfold arg; cbn [js_get];
    destruct (match lookup "publish" f with Some v => v | None => VUndefined end)
      as [| | [|] | n | x | l | g]; reflexivity.
Qed.

End Defaults.

Ltac side :=
  solve [ reflexivity | intros E; discriminate E | intros _; reflexivity ].

(** X19. Passing the declared default of a property is the same as leaving
    the property out: for every tool of the catalog and every property with
    a [default], a call whose arguments lack the property and the call with
    the property added at its default value run alike, with the same
    requests, result and final state. *)
Theorem declared_default_equals_omission :
  forall (R : runtime) (W : world) (sch : tool_schema) (p : property)
         (d h : value) (f : object) (s : state),
    In sch catalog ->
    In p (schema_properties sch) ->
    prop_default p = Some d ->
    lookup (prop_name p) f = None ->
    dispatch R W h
      {| params_name := str (schema_name sch);
         params_arguments := VObj (withProperty f (prop_name p) d) |} s
    = dispatch R W h
        {| params_name := str (schema_name sch);
           params_arguments := VObj f |} s.
Proof.
  intros R W sch p d h f s Hsch Hp Hd Hf.
  assert (Hlist : forall t uid,
    listedCollection t = Some uid ->
    schema_name sch = tool_name t ->
    (prop_name p = "page" -> d = VNum 1) ->
    (prop_name p = "pageSize" -> d = VNum 25) ->
    (prop_name p = "summary" -> d = VBool true) ->
    dispatch R W h
      {| params_name := str (schema_name sch);
         params_arguments := VObj (withProperty f (prop_name p) d) |} s
    = dispatch R W h
        {| params_name := str (schema_name sch);
           params_arguments := VObj f |} s).
  { intros t uid Ht -> H1 H2 H3.
    rewrite !(@listHandler_object R W t uid h _ s Ht).
    rewrite !(@arg_withProperty f _ _ d Hf).
    assert (Hundef : arg (VObj f) (prop_name p) = VUndefined).
    { unfold arg. cbn [js_get]. now rewrite Hf. }
    remember (prop_name p) as k eqn:Ek. clear Ek Hf.
    destruct (String.eqb_spec "page" k) as [<- | N1].
    - rewrite (H1 eq_refl), Hundef. reflexivity.
    - destruct (String.eqb_spec "pageSize" k) as [<- | N2].
      + rewrite (H2 eq_refl), Hundef. reflexivity.
      + destruct (String.eqb_spec "summary" k) as [<- | N3].
        * rewrite (H3 eq_refl), Hundef. reflexivity.
        * reflexivity. }
  assert (Hpublish : forall t uid,
    publishedCollection t = Some uid ->
    schema_name sch = tool_name t ->
    prop_name p = "publish" -> d = VBool true ->
    dispatch R W h
      {| params_name := str (schema_name sch);
         params_arguments := VObj (withProperty f (prop_name p) d) |} s
    = dispatch R W h
        {| params_name := str (schema_name sch);
           params_arguments := VObj f |} s).
  { intros t uid Ht -> Hk ->. rewrite Hk in *.
    rewrite !(@publishHandler_object R W t uid h _ s Ht).
    rewrite !(@arg_withProperty f _ _ (VBool true) Hf).
    cbn [String.eqb Ascii.eqb Bool.eqb].
    assert (Hundef : arg (VObj f) "publish" = VUndefined).
    { unfold arg. cbn [js_get]. now rewrite Hf. }
    now rewrite Hundef. }
  unfold catalog, byDocumentId in Hsch. cbn [In] in Hsch.
  repeat (destruct Hsch as [<- | Hsch];
          [ cbn [schema_properties schema_name In] in *;
            repeat (destruct Hp as [<- | Hp];
                    [ first
                        [ discriminate Hd
                        | injection Hd as <-;
                          first
                            [ apply (Hlist list_blog_posts BLOG_POST); side
                            | apply (Hlist list_tutorials TUTORIAL); side
                            | apply (Hlist list_events EVENT); side
                            | apply (Hpublish publish_blog_post BLOG_POST); side
                            | apply (Hpublish publish_tutorial TUTORIAL); side
                            | apply (Hpublish publish_event EVENT); side ] ]
                    | ]);
            contradiction
          | ]).
  contradiction.
Qed.

Lemma declared_default_equals_omission_witness :
  dispatch exampleRuntime (constantWorld 0 (Return exampleBody)) VNull
    {| params_name := str "strapi_list_blog_posts";
       params_arguments := VObj [("page", VNum 3); ("summary", VBool true)] |}
    (freshState (exampleServer (Some (str "token"))))
  = dispatch exampleRuntime (constantWorld 0 (Return exampleBody)) VNull
      {| params_name := str "strapi_list_blog_posts";
         params_arguments := VObj [("page", VNum 3)] |}
      (freshState (exampleServer (Some (str "token")))).
Proof.
  apply (@declared_default_equals_omission
           exampleRuntime (constantWorld 0 (Return exampleBody))
           {| schema_name := "strapi_list_blog_posts";
              schema_properties :=
                [ propDefault "page" TNumber (VNum 1);
                  propDefault "pageSize" TNumber (VNum 25);
                  STATUS;
                  prop "category_id" TNumber; prop "author_id" TNumber;
                  prop "tag_id" TNumber;
                  propDefault "sort" TString (VStr (str "createdAt:desc"));
                  prop "search" TString;
                  propDefault "summary" TBoolean (VBool true) ];
              schema_required := [] |}
           (propDefault "summary" TBoolean (VBool true))
           (VBool true) VNull [("page", VNum 3)]
           (freshState (exampleServer (Some (str "token"))))).
  - simpl. tauto.
  - simpl. tauto.
  - reflexivity.
  - reflexivity.
Defined.

(* ================================================================== *)
(** ** The methods of v1.0.0 *)

(** X20. In v1.0.0 a cached token never expires: once [jwtToken] is truthy,
    [authenticate] returns it without any request whatever the clock and
    [tokenExpiry] say; only a falsy [jwtToken] makes it log in, and a
    successful login stores the token and leaves [tokenExpiry] as it was. *)
Theorem v1_0_0_token_never_expires :
  forall (W : world) (srv : server) (trace : list request),
    truthy (envValue (apiToken srv)) = false ->
    let s := {| self := srv; sent := trace |} in
    if truthy (jwtToken srv)
    then V1_0_0.authenticate W s = (Return (jwtToken srv), s)
    else
      issued (V1_0_0.authenticate W) s = [loginRequest srv]
      /\ match loginToken (respond W trace (loginRequest srv)) with
         | Return token =>
             V1_0_0.authenticate W s
             = (Return token,
                {| self := {| strapiUrl := strapiUrl srv;
                              apiToken := apiToken srv;
                              adminEmail := adminEmail srv;
                              adminPassword := adminPassword srv;
                              jwtToken := token;
                              tokenExpiry := tokenExpiry srv |};
                   sent := trace ++ [loginRequest srv] |})
         | Throw e =>
             V1_0_0.authenticate W s
             = (Throw e, {| self := srv; sent := trace ++ [loginRequest srv] |})
         end.
Proof.
  intros W srv trace Hapi s.
  pose proof (v1_0_0_authenticate_cases W srv trace) as Hauth.
  cbv zeta in Hauth. fold s in Hauth. rewrite Hapi in Hauth.
  destruct (truthy (jwtToken srv)); [exact Hauth|].
  split.
  - apply issued_app. rewrite Hauth.
    now destruct (loginToken (respond W trace (loginRequest srv))).
  - destruct (loginToken (respond W trace (loginRequest srv))); exact Hauth.
Qed.

Lemma v1_0_0_token_never_expires_witness :
  V1_0_0.authenticate (constantWorld 99999999999 (Return VNull))
    (freshState (withToken (exampleServer None) (VStr (str "old")) 1))
  = (Return (VStr (str "old")),
     freshState (withToken (exampleServer None) (VStr (str "old")) 1)).
Proof.
  exact (@v1_0_0_token_never_expires
           (constantWorld 99999999999 (Return VNull))
           (withToken (exampleServer None) (VStr (str "old")) 1) [] eq_refl).
Defined.

(** X21. In v1.0.0 a publish call on an object is one [PUT] of the document
    whose payload is [publishedAt]: the current time when [publish] is
    truthy, and [null] when it is falsy or missing, so that a call without
    [publish] unpublishes. *)
Theorem v1_0_0_publish_without_flag_unpublishes :
  forall (R : runtime) (W : world) (uid : string) (h : value) (f : object)
         (s : state),
    let args := VObj f in
    let payload :=
      VObj [("publishedAt",
             if truthy (arg args "publish")
             then VStr (toISOString R (Date_now W (sent s)))
             else VNull)] in
    issued (V1_0_0.publishDocument R W uid h args) s
    = [ {| method := PUT;
           url := documentUrl R (strapiUrl (self s)) uid (arg args "document_id");
           data := payload;
           params := VUndefined;
           headers := h |} ]
    /\ (lookup "publish" f = None -> payload = VObj [("publishedAt", VNull)]).
Proof.
  intros R W uid h f s args payload. subst payload args. split.
  - apply issued_app.
    unfold V1_0_0.publishDocument, bind, lift, arg.
    cbn [js_get obind].
    destruct (truthy match lookup "publish" f with
                     | Some v => v
                     | None => VUndefined
                     end);
      unfold bind, dateNow, getSelf, axios, ret;
      cbv beta iota delta [self sent snd fst];
      match goal with
      | |- context [respond W ?t ?r] => destruct (respond W t r)
      end; reflexivity.
  - intros Hnone. unfold arg. cbn [js_get]. now rewrite Hnone.
Qed.

Lemma v1_0_0_publish_without_flag_unpublishes_witness :
  VObj [("publishedAt",
         if truthy (arg (VObj [("document_id", VStr (str "d1"))]) "publish")
         then VStr (toISOString exampleRuntime 0)
         else VNull)]
  = VObj [("publishedAt", VNull)].
Proof.
  apply (proj2 (@v1_0_0_publish_without_flag_unpublishes
                  exampleRuntime (constantWorld 0 (Return VNull)) BLOG_POST VNull
                  [("document_id", VStr (str "d1"))]
                  (freshState (exampleServer (Some (str "token")))))).
  reflexivity.
Defined.
